(** * Fuse orchestration of spsdk: a shallow embedding of [spsdk/fuses/fuses.py]

    The development follows the layout of the Python module:
    - [PyFormat]: the integer renderings the f-strings of the module rely on;
    - the exception classes and the logging records;
    - the register model the module imports from [spsdk.fuses.fuse_registers];
    - the two backend operators ([BlhostFuseOperator], [NxpeleFuseOperator]);
    - the orchestrator [Fuses] ([read_single], [read_all], [write_single],
      [load_config], [get_config], [create_fuse_script]);
    - the value resolution of [FuseScript.generate_script];
    - the folder settings computed by [spsdk/__init__.py].

    Mutable Python objects are modelled by explicit state passing: the
    registers keep their structural definition in an immutable record and
    their current value and active locks in a store keyed by [uid]. *)

From Stdlib Require Import ZArith String Ascii.
From Stdlib Require Import DecimalString HexadecimalString DecimalZ DecimalPos DecimalFacts.
From Stdlib Require Import HexadecimalZ HexadecimalPos HexadecimalFacts.
From stdpp Require Import gmap strings list.

Local Open Scope string_scope.
Local Open Scope Z_scope.

(* ===================================================================== *)
(** ** Integer renderings used by the f-strings *)
(* ===================================================================== *)

Module PyFormat.

(** [f"{n}"] for a Python [int]: decimal digits, a leading minus sign for
    negative numbers. *)
Definition str_int (n : Z) : string :=
  DecimalString.NilZero.string_of_int (Z.to_int n).

(** The upper-case form of a hexadecimal letter; other characters are kept. *)
Definition upper_ascii (c : ascii) : ascii :=
  let code := nat_of_ascii c in
  if (Nat.leb 97 code && Nat.leb code 102)%bool
  then ascii_of_nat (code - 32)
  else c.

Fixpoint string_map (f : ascii -> ascii) (s : string) : string :=
  match s with
  | EmptyString => EmptyString
  | String c s' => String (f c) (string_map f s')
  end.

(** Lower-case hexadecimal digits of [n], sign in front. *)
Definition hex_digits (n : Z) : string :=
  HexadecimalString.NilZero.string_of_int (Z.to_hex_int n).

(** [f"{n:X}"]: upper-case hexadecimal digits, no prefix. *)
Definition format_X (n : Z) : string := string_map upper_ascii (hex_digits n).

(** [hex(n)]: ["0x"] prefix, lower-case digits, sign before the prefix. *)
Definition hex (n : Z) : string :=
  if n <? 0 then "-0x" +:+ hex_digits (- n) else "0x" +:+ hex_digits n.

(** The characters of a string, to reason about what a text can contain. *)
Definition chars (s : string) : list ascii := list_ascii_of_string s.

Definition dec_alphabet : list ascii := chars "-0123456789".
Definition hex_alphabet : list ascii := chars "-0123456789ABCDEF".

End PyFormat.

(* ===================================================================== *)
(** ** Exceptions and logging *)
(* ===================================================================== *)

(** The exception classes raised in the module, each with its message.
    [SPSDKFuseOperationFailure] and [SPSDKFuseConfigurationError] are the two
    classes declared in [fuses.py]; both derive from [SPSDKError].
    [RecursionError] is what the interpreter raises when the call depth of
    [read_single] is exhausted. *)
Inductive Exn : Type :=
| SPSDKError (msg : string)
| SPSDKFuseOperationFailure (msg : string)
| SPSDKFuseConfigurationError (msg : string)
| SPSDKAttributeError (msg : string)
| SPSDKValueError (msg : string)
| SPSDKKeyError (msg : string)
| SPSDKRegsErrorRegisterNotFound (msg : string)
| SPSDKRegsErrorBitfieldNotFound (msg : string)
| RecursionError.

(** [isinstance(e, SPSDKFuseOperationFailure)], the test of the [except]
    clause of [read_all]. *)
Definition is_operation_failure (e : Exn) : bool :=
  match e with
  | SPSDKFuseOperationFailure _ => true
  | _ => false
  end.

(** [str(e)] as defined by [SPSDKError.__str__]. *)
Definition exn_str (e : Exn) : string :=
  match e with
  | SPSDKError m | SPSDKFuseOperationFailure m | SPSDKFuseConfigurationError m
  | SPSDKAttributeError m | SPSDKValueError m | SPSDKKeyError m
  | SPSDKRegsErrorRegisterNotFound m | SPSDKRegsErrorBitfieldNotFound m =>
      "SPSDK: " +:+ (if String.eqb m "" then "Unknown Error" else m)
  | RecursionError => "maximum recursion depth exceeded"
  end.

Inductive LogLevel : Type := DEBUG | INFO | WARNING.

Record LogRecord : Type := mkLog { log_level : LogLevel; log_msg : string }.

Definition is_warning (r : LogRecord) : bool :=
  match log_level r with WARNING => true | _ => false end.

(** The outcome of a call: a returned value or a raised exception. *)
Inductive Result (A : Type) : Type :=
| Ok (a : A)
| Raise (e : Exn).
Arguments Ok {A} a.
Arguments Raise {A} e.

(* ===================================================================== *)
(** ** The register model ([spsdk.fuses.fuse_registers]) *)
(* ===================================================================== *)

(** Modelled from the spec: the enumerations [FuseLock] and
    [IndividualWriteLock] are imported from [fuse_registers.py], which is not
    part of the sources; the source names [WRITE_LOCK], [READ_LOCK],
    [ALWAYS] and [IMPLICIT], the third policy is called [NEVER] in the
    spec. *)
Inductive FuseLock : Type := WRITE_LOCK | READ_LOCK.

Definition FuseLock_eqb (a b : FuseLock) : bool :=
  match a, b with
  | WRITE_LOCK, WRITE_LOCK | READ_LOCK, READ_LOCK => true
  | _, _ => false
  end.

Inductive IndividualWriteLock : Type := NEVER | ALWAYS | IMPLICIT.

(** Modelled from the spec: the access of a register ([fuse_registers.py]
    is not part of the sources): readable and writable flags and a
    description for people. *)
Record Access : Type := mkAccess {
  is_readable : bool;
  is_writable : bool;
  access_description : string
}.

(** Modelled from the spec: a bitfield of a register ([fuse_registers.py]
    is not part of the sources). *)
Record Bitfield : Type := mkBitfield {
  bf_name : string;
  bf_offset : Z;
  bf_width : Z;
  bf_description : string
}.

(** Modelled from the spec: the designation of a lock fuse
    ([fuse_registers.py] is not part of the sources): the register that
    holds the lock bits and the masks selecting the write-lock and the
    read-lock bits in it. *)
Record FuseLockRegister : Type := mkFuseLockRegister {
  register_id : string;
  write_lock_mask : Z;
  read_lock_mask : Z
}.

(** Modelled from the spec: the class [FuseRegister] ([fuse_registers.py]
    is not part of the sources).  This is the structural definition of a
    register; it is immutable for the session.  The mutable part (current
    value, active locks) lives in the store below, keyed by [uid], so that
    every reference to a register sees the same current value. *)
#[warnings="-register-all"]
Inductive FuseRegister : Type := mkFuseRegister {
  name : string;
  uid : string;
  otp_index : option Z;
  width : Z;
  description : string;
  bitfields : list Bitfield;
  access : Access;
  reset_value : Z;
  individual_write_lock : IndividualWriteLock;
  fuse_lock_register : option FuseLockRegister;
  sub_regs : list FuseRegister;
  reverse_subregs_order : bool
}.

(** Modelled from the spec: [fuse_registers.py] is not part of the sources.
    The collection [FuseRegisters]: the ordered registers, the current raw
    value of every register (a register never set holds its reset value)
    and its set of active locks. *)
Record FuseRegisters : Type := mkFuseRegisters {
  registers : list FuseRegister;
  reg_values : gmap string Z;
  reg_locks : gmap string (list FuseLock)
}.

Module Reg.

(** Modelled from the spec: a group register is a register with
    [sub_regs]. *)
Definition has_group_registers (r : FuseRegister) : bool :=
  match sub_regs r with [] => false | _ :: _ => true end.

(** Modelled from the spec: [get_reset_value] of the missing class. *)
Definition get_reset_value (r : FuseRegister) : Z := reset_value r.

(** Modelled from the spec: identity of register objects
    ([lock_fuse != reg] in the source); registers are identified by their
    stable [uid]. *)
Definition same (a b : FuseRegister) : bool := String.eqb (uid a) (uid b).

(** Modelled from the spec: the current raw value of a register without
    members; a register never set holds its reset value. *)
Definition leaf_value (fr : FuseRegisters) (r : FuseRegister) : Z :=
  default (reset_value r) (reg_values fr !! uid r).

(** Modelled from the spec: members in declared order, or reversed when
    [reverse_subregs_order] is set. *)
Definition ordered_sub_regs (r : FuseRegister) : list FuseRegister :=
  if reverse_subregs_order r then rev (sub_regs r) else sub_regs r.

(** Modelled from the spec: the value of a group register is the
    concatenation of the raw values of its members, computed on demand. *)
Definition get_value (fr : FuseRegisters) (r : FuseRegister) : Z :=
  if has_group_registers r
  then fold_left (fun acc m => Z.lor (Z.shiftl acc (width m)) (leaf_value fr m))
                 (ordered_sub_regs r) 0
  else leaf_value fr r.

(** Modelled from the spec: storing the raw value of a register without
    members. *)
Definition set_leaf_value (r : FuseRegister) (v : Z) (fr : FuseRegisters)
  : FuseRegisters :=
  mkFuseRegisters (registers fr) (<[uid r := v]> (reg_values fr)) (reg_locks fr).

(** Modelled from the spec: splitting a group value over the members, last
    member in the low bits; the inverse of the concatenation of
    [get_value]. *)
Fixpoint set_members (ms : list FuseRegister) (v : Z) (fr : FuseRegisters)
  : FuseRegisters :=
  match ms with
  | [] => fr
  | m :: ms' =>
      set_members ms' (Z.shiftr v (width m))
                  (set_leaf_value m (Z.land v (Z.ones (width m))) fr)
  end.

(** Modelled from the spec: [set_value] stores the raw value; on a group
    register it is distributed over the members. *)
Definition set_value (r : FuseRegister) (v : Z) (fr : FuseRegisters)
  : FuseRegisters :=
  if has_group_registers r
  then set_members (rev (ordered_sub_regs r)) v fr
  else set_leaf_value r v fr.

(** Modelled from the spec: the set of currently active locks of a
    register. *)
Definition get_active_locks (fr : FuseRegisters) (r : FuseRegister)
  : list FuseLock :=
  default [] (reg_locks fr !! uid r).

(** [l in locks]. *)
Definition has_lock (l : FuseLock) (ls : list FuseLock) : bool :=
  existsb (FuseLock_eqb l) ls.

(** Modelled from the spec: [lock] marks a lock active. *)
Definition lock (r : FuseRegister) (l : FuseLock) (fr : FuseRegisters)
  : FuseRegisters :=
  let ls := get_active_locks fr r in
  mkFuseRegisters (registers fr) (reg_values fr)
    (<[uid r := if has_lock l ls then ls else (ls ++ [l])%list]> (reg_locks fr)).

(** Modelled from the spec: the value of a bitfield inside its register,
    [width] bits from bit [offset]. *)
Definition bitfield_get (fr : FuseRegisters) (r : FuseRegister) (b : Bitfield) : Z :=
  Z.land (Z.shiftr (leaf_value fr r) (bf_offset b)) (Z.ones (bf_width b)).

(** Modelled from the spec: setting a bitfield changes its bits of the
    register value and no other. *)
Definition bitfield_set (r : FuseRegister) (b : Bitfield) (v : Z)
           (fr : FuseRegisters) : FuseRegisters :=
  let m := Z.shiftl (Z.ones (bf_width b)) (bf_offset b) in
  let old := leaf_value fr r in
  set_leaf_value r
    (Z.lor (Z.land old (Z.lnot m)) (Z.land (Z.shiftl v (bf_offset b)) m)) fr.

(** Modelled from the spec: [get_bitfield(name) -> Bitfield], an unknown
    name is a not-found error. *)
Definition get_bitfield (r : FuseRegister) (n : string) : Result Bitfield :=
  match find (fun b => String.eqb (bf_name b) n) (bitfields r) with
  | Some b => Ok b
  | None =>
      Raise (SPSDKRegsErrorBitfieldNotFound
               ("The bitfield " +:+ n +:+ " is not found in register " +:+ name r +:+ "."))
  end.

End Reg.

Module Regs.

(** Modelled from the spec: a register answers to its name and to its
    uid. *)
Definition matches (n : string) (r : FuseRegister) : bool :=
  String.eqb n (name r) || String.eqb n (uid r).

(** Modelled from the spec: [find_reg(name_or_uid, include_group_regs)];
    the first register of the collection with that name or uid, members of
    group registers included on request. *)
Fixpoint find_in (rs : list FuseRegister) (n : string) (include_group_regs : bool)
  : option FuseRegister :=
  match rs with
  | [] => None
  | r :: rs' =>
      if matches n r then Some r
      else
        match (if include_group_regs then find (matches n) (sub_regs r) else None) with
        | Some m => Some m
        | None => find_in rs' n include_group_regs
        end
  end.

(** Modelled from the spec: [find_reg] fails with a not-found error when
    no register answers. *)
Definition find_reg (fr : FuseRegisters) (n : string) (include_group_regs : bool)
  : Result FuseRegister :=
  match find_in (registers fr) n include_group_regs with
  | Some r => Ok r
  | None =>
      Raise (SPSDKRegsErrorRegisterNotFound
               ("The register " +:+ n +:+ " has not been found."))
  end.

(** Modelled from the spec: [get_lock_fuse(reg) -> Register | None], a
    lookup of the designated lock fuse inside the collection. *)
Definition get_lock_fuse (fr : FuseRegisters) (r : FuseRegister)
  : option FuseRegister :=
  match fuse_lock_register r with
  | None => None
  | Some flr => find_in (registers fr) (register_id flr) true
  end.

(** Modelled from the spec: every register of the collection, members of
    groups included. *)
Definition all_registers (fr : FuseRegisters) : list FuseRegister :=
  flat_map (fun r => r :: sub_regs r) (registers fr).

(** Modelled from the spec: the locks a value of the lock fuse makes
    active. *)
Definition locks_from (flr : FuseLockRegister) (lock_value : Z) : list FuseLock :=
  ((if Z.eqb (Z.land lock_value (write_lock_mask flr)) 0 then [] else [WRITE_LOCK])
  ++ (if Z.eqb (Z.land lock_value (read_lock_mask flr)) 0 then [] else [READ_LOCK]))%list.

(** Modelled from the spec: [update_locks] recomputes, for every register
    with a lock fuse, the active locks from the current value of the lock
    fuse. *)
Definition update_locks (fr : FuseRegisters) : FuseRegisters :=
  fold_left
    (fun acc r =>
       match fuse_lock_register r, get_lock_fuse fr r with
       | Some flr, Some lf =>
           mkFuseRegisters (registers acc) (reg_values acc)
             (<[uid r := locks_from flr (Reg.get_value fr lf)]> (reg_locks acc))
       | _, _ => acc
       end)
    (all_registers fr) fr.

End Regs.

(* ===================================================================== *)
(** ** Backend operators *)
(* ===================================================================== *)

Definition nl : string := String (ascii_of_nat 10) EmptyString.

(** The capability interface [FuseOperator]: two operations on a device
    handle of type [Dev] and two class-level text renderers. *)
Class FuseOperator (Dev : Type) : Type := mkFuseOperator {
  NAME : string;
  script_title : string;
  read_fuse : Z -> Dev -> Result Z * Dev;
  write_fuse : Z -> Z -> bool -> Dev -> Result unit * Dev;
  get_fuse_write_cmd : Z -> Z -> bool -> bool -> string * list LogRecord
}.

(** Modelled from the spec: [get_bytes_value(raw=True).hex()], the raw value
    as [width / 8] bytes (rounded up), most significant first, two
    lower-case digits per byte. *)
Definition bytes_hex (w v : Z) : string :=
  let digits := PyFormat.hex_digits v in
  let want := (2 * Z.to_nat ((w + 7) / 8))%nat in
  String.concat "" (repeat "0" (want - String.length digits)%nat) +:+ digits.

(** [get_fuse_script], which [BlhostFuseOperator] and [NxpeleFuseOperator]
    define alike but for the title of the header; [version] is
    [spsdk.version]. *)
Fixpoint get_fuse_script_loop {Dev : Type} `{FuseOperator Dev}
         (fr : FuseRegisters) (fuses : list FuseRegister) (ret : string)
  : Result string :=
  match fuses with
  | [] => Ok ret
  | fuse :: rest =>
      match otp_index fuse with
      | None =>
          Raise (SPSDKAttributeError ("OTP index is nto defined for fuse " +:+ name fuse))
      | Some idx =>
          let otp_value := "0x" +:+ bytes_hex (width fuse) (Reg.get_value fr fuse) in
          let ret := ret +:+ ("# Fuse " +:+ name fuse +:+ ", index " +:+ PyFormat.str_int idx
                              +:+ " and value: " +:+ otp_value +:+ "." +:+ nl) in
          let ret := ret +:+ fst (get_fuse_write_cmd idx (Reg.get_value fr fuse) false false) in
          get_fuse_script_loop fr rest (ret +:+ nl +:+ nl)
      end
  end.

Definition get_fuse_script {Dev : Type} `{FuseOperator Dev}
           (version family : string) (fr : FuseRegisters)
           (fuses : list FuseRegister) (revision : string) : Result string :=
  let ret := "# " +:+ script_title +:+ " fuses programming script" +:+ nl
             +:+ "# Generated by SPSDK " +:+ version +:+ nl
             +:+ "# Chip: " +:+ family +:+ " rev:" +:+ revision +:+ nl +:+ nl +:+ nl in
  get_fuse_script_loop fr fuses ret.

(** The part of [McuBoot] that [BlhostFuseOperator] calls. *)
Class McuBoot (T : Type) : Type := mkMcuBoot {
  is_opened : T -> bool;
  mboot_open : T -> T;
  mboot_close : T -> T;
  efuse_read_once : Z -> T -> option Z * T;
  efuse_program_once : Z -> Z -> T -> bool * T
}.

Module BlhostFuseOperator.

Definition NAME : string := "blhost".

(** [mboot_operation_decorator]: open the session when it is not open,
    run the operation, close the session on every exit path. *)
Definition mboot_operation_decorator {T A : Type} `{McuBoot T}
           (func : T -> Result A * T) (mboot : T) : Result A * T :=
  let mboot := if is_opened mboot then mboot else mboot_open mboot in
  let '(r, mboot) := func mboot in
  (r, mboot_close mboot).

Definition read_fuse {T : Type} `{McuBoot T} (index : Z) : T -> Result Z * T :=
  mboot_operation_decorator
    (fun mboot =>
       match efuse_read_once index mboot with
       | (None, mboot') => (Raise (SPSDKFuseOperationFailure "Reading of fuse failed."), mboot')
       | (Some ret, mboot') => (Ok ret, mboot')
       end).

Definition write_fuse {T : Type} `{McuBoot T} (index value : Z) (lock : bool)
  : T -> Result unit * T :=
  mboot_operation_decorator
    (fun mboot =>
       let index := if lock then Z.lor index (Z.shiftl 1 24) else index in
       match efuse_program_once index value mboot with
       | (false, mboot') => (Raise (SPSDKFuseOperationFailure "Writing of fuse failed."), mboot')
       | (true, mboot') => (Ok tt, mboot')
       end).

(** [BlhostFuseOperator.get_fuse_write_cmd]. *)
Definition get_fuse_write_cmd (index value : Z) (lock verify : bool)
  : string * list LogRecord :=
  let ret := "efuse-program-once " +:+ PyFormat.str_int index
             +:+ " " +:+ ("0x" +:+ PyFormat.format_X value) in
  let ret := ret +:+ " " +:+ (if verify then "--verify" else "--no-verify") in
  let ret := if lock then ret +:+ " lock" else ret in
  (ret, []).

Definition operator {T : Type} `{McuBoot T} : FuseOperator T :=
  mkFuseOperator T NAME "BLHOST" read_fuse write_fuse get_fuse_write_cmd.

End BlhostFuseOperator.

(** The part of [EleMessageHandler] that [NxpeleFuseOperator] calls: the
    handler is entered and left around each message ([with] block), and a
    message either completes or raises. *)
Class EleMessageHandler (T : Type) : Type := mkEleMessageHandler {
  ele_enter : T -> T;
  ele_exit : T -> T;
  send_read_common_fuse : Z -> T -> Result Z * T;
  send_write_fuse : Z -> Z -> bool -> Z -> T -> Result unit * T
}.

Module NxpeleFuseOperator.

Definition NAME : string := "nxpele".

Definition read_fuse {T : Type} `{EleMessageHandler T} (index : Z) (h : T)
  : Result Z * T :=
  let '(r, h) := send_read_common_fuse index (ele_enter h) in
  (r, ele_exit h).

Definition write_fuse {T : Type} `{EleMessageHandler T}
           (index value : Z) (lock : bool) (h : T) : Result unit * T :=
  let bit_position := index * 32 in
  let bit_length := 32 in
  let '(r, h) := send_write_fuse bit_position bit_length lock value (ele_enter h) in
  (r, ele_exit h).

(** [NxpeleFuseOperator.get_fuse_write_cmd]. *)
Definition get_fuse_write_cmd (index value : Z) (lock verify : bool)
  : string * list LogRecord :=
  let ret := "write-fuse --index " +:+ PyFormat.str_int index
             +:+ " --data " +:+ ("0x" +:+ PyFormat.format_X value) in
  let logs :=
    if verify
    then [mkLog DEBUG "The 'verify' parameter is not applicable for nxpele command"]
    else [] in
  let ret := if lock then ret +:+ " --lock" else ret in
  (ret, logs).

Definition operator {T : Type} `{EleMessageHandler T} : FuseOperator T :=
  mkFuseOperator T NAME "NXPELE" read_fuse write_fuse get_fuse_write_cmd.

End NxpeleFuseOperator.

(** The classes derived from [FuseOperator]. *)
Inductive OperatorType : Type := BlhostType | NxpeleType.

(** The class attribute [NAME]. *)
Definition operator_type_name (t : OperatorType) : string :=
  match t with
  | BlhostType => BlhostFuseOperator.NAME
  | NxpeleType => NxpeleFuseOperator.NAME
  end.

(** [FuseOperator.__subclasses__()]: the derived classes in the order of
    their definition. *)
Definition subclasses : list OperatorType := [BlhostType; NxpeleType].

(** [FuseOperator.get_operator_type]. *)
Definition get_operator_type (name_ : string) : Result OperatorType :=
  match find (fun subclass => String.eqb (operator_type_name subclass) name_) subclasses with
  | Some subclass => Ok subclass
  | None => Raise (SPSDKKeyError ("No such a fuse operator with name " +:+ name_))
  end.

(** An operator class taken by itself, as [get_operator_type] returns it:
    its class attributes and its class methods.  The class is not
    instantiated, so there is no device handle to operate on. *)
Definition operator_class (t : OperatorType) : FuseOperator Empty_set :=
  match t with
  | BlhostType =>
      mkFuseOperator Empty_set BlhostFuseOperator.NAME "BLHOST"
                     (fun _ d => match d with end) (fun _ _ _ d => match d with end)
                     BlhostFuseOperator.get_fuse_write_cmd
  | NxpeleType =>
      mkFuseOperator Empty_set NxpeleFuseOperator.NAME "NXPELE"
                     (fun _ d => match d with end) (fun _ _ _ d => match d with end)
                     NxpeleFuseOperator.get_fuse_write_cmd
  end.

(* ===================================================================== *)
(** ** The orchestrator [Fuses] *)
(* ===================================================================== *)

(** The attributes of a [Fuses] object.  [_operator] holds the state of the
    device handle of the selected operator, [None] when no operator was
    given; [log] collects the records sent to the module logger, oldest
    first. *)
Record Fuses (Dev : Type) : Type := mkFuses {
  family : string;
  revision : string;
  _operator : option Dev;
  fuse_regs : FuseRegisters;
  fuse_context : list FuseRegister;
  log : list LogRecord
}.
Arguments mkFuses {Dev}.
Arguments family {Dev}.
Arguments revision {Dev}.
Arguments _operator {Dev}.
Arguments fuse_regs {Dev}.
Arguments fuse_context {Dev}.
Arguments log {Dev}.

(** Methods of [Fuses]: the object is threaded through, an exception leaves
    the mutations done before it in place. *)
Definition M (Dev A : Type) : Type := Fuses Dev -> Result A * Fuses Dev.

Definition ret {Dev A : Type} (a : A) : M Dev A := fun s => (Ok a, s).

Definition raise {Dev A : Type} (e : Exn) : M Dev A := fun s => (Raise e, s).

Definition bind {Dev A B : Type} (c : M Dev A) (k : A -> M Dev B) : M Dev B :=
  fun s =>
    match c s with
    | (Ok a, s') => k a s'
    | (Raise e, s') => (Raise e, s')
    end.

Notation "x <- c ;; k" := (bind c (fun x => k))
  (at level 62, c at next level, right associativity).
Notation "c ;;; k" := (bind c (fun _ => k))
  (at level 62, right associativity).

Definition logger {Dev : Type} (lvl : LogLevel) (msg : string) : M Dev unit :=
  fun s =>
    (Ok tt, mkFuses (family s) (revision s) (_operator s) (fuse_regs s)
                    (fuse_context s) (log s ++ [mkLog lvl msg])).

Definition get_fuse_regs {Dev : Type} : M Dev FuseRegisters :=
  fun s => (Ok (fuse_regs s), s).

Definition modify_fuse_regs {Dev : Type} (f : FuseRegisters -> FuseRegisters)
  : M Dev unit :=
  fun s =>
    (Ok tt, mkFuses (family s) (revision s) (_operator s) (f (fuse_regs s))
                    (fuse_context s) (log s)).

Definition set_fuse_context {Dev : Type} (ctx : list FuseRegister) : M Dev unit :=
  fun s =>
    (Ok tt, mkFuses (family s) (revision s) (_operator s) (fuse_regs s) ctx (log s)).

Definition find_reg {Dev : Type} (n : string) (include_group_regs : bool)
  : M Dev FuseRegister :=
  fun s => (Regs.find_reg (fuse_regs s) n include_group_regs, s).

(** A call through the [fuse_operator] property: it raises when no operator
    is defined, otherwise the operation runs on the device handle. *)
Definition with_fuse_operator {Dev A : Type} (op : Dev -> Result A * Dev) : M Dev A :=
  fun s =>
    match _operator s with
    | None => (Raise (SPSDKError "Fuse operator is not defined."), s)
    | Some d =>
        let '(r, d') := op d in
        (r, mkFuses (family s) (revision s) (Some d') (fuse_regs s)
                    (fuse_context s) (log s))
    end.

(** [for x in xs: body(x)]. *)
Fixpoint for_each {Dev A : Type} (xs : list A) (body : A -> M Dev unit) : M Dev unit :=
  match xs with
  | [] => ret tt
  | x :: xs' => body x ;;; for_each xs' body
  end.

Section Orchestrator.

Context {Dev : Type} `{FuseOperator Dev}.

(** The body of [Fuses.read_single]; the recursive calls go through
    [read_single_]. *)
Definition read_single_body (read_single_ : string -> bool -> M Dev Z)
           (name_ : string) (check_locks : bool) : M Dev Z :=
  reg <- find_reg name_ true ;;
  if negb (is_readable (access reg)) then
    raise (SPSDKFuseOperationFailure
             ("Unable to read fuse " +:+ name_ +:+ ". Fuse access: "
              +:+ access_description (access reg)))
  else
    fr <- get_fuse_regs ;;
    (match Regs.get_lock_fuse fr reg with
     | Some lock_fuse =>
         if check_locks then
           logger DEBUG "Reading the value of lock register first." ;;;
           (* if the fuse locks itself, do not read it *)
           _ <- read_single_ (uid lock_fuse) (negb (Reg.same lock_fuse reg)) ;;
           fr' <- get_fuse_regs ;;
           if Reg.has_lock READ_LOCK (Reg.get_active_locks fr' reg) then
             raise (SPSDKFuseOperationFailure
                      ("Fuse " +:+ name reg +:+ " read operation is locked by lock fuse "
                       +:+ name lock_fuse +:+ "."))
           else ret tt
         else ret tt
     | None => ret tt
     end) ;;;
    if Reg.has_group_registers reg then
      for_each (sub_regs reg)
               (fun sub_reg => _ <- read_single_ (uid sub_reg) true ;; ret tt) ;;;
      set_fuse_context [reg] ;;;
      fr' <- get_fuse_regs ;;
      ret (Reg.get_value fr' reg)
    else
      match otp_index reg with
      | None => raise (SPSDKFuseConfigurationError "OTP index is not defined")
      | Some idx =>
          value <- with_fuse_operator (read_fuse idx) ;;
          modify_fuse_regs (Reg.set_value reg value) ;;;
          modify_fuse_regs Regs.update_locks ;;;
          set_fuse_context [reg] ;;;
          ret value
      end.

(** [Fuses.read_single].  [depth] bounds the nesting of the recursive
    calls, as the recursion limit of the interpreter does. *)
Fixpoint read_single (depth : nat) : string -> bool -> M Dev Z :=
  match depth with
  | O => fun _ _ => raise RecursionError
  | S depth' => read_single_body (read_single depth')
  end.

(** The loop of [Fuses.read_all]; [ctx] is the local list of the
    registers read so far. *)
Fixpoint read_all_loop (depth : nat) (regs : list FuseRegister)
         (ctx : list FuseRegister) : M Dev (list FuseRegister) :=
  match regs with
  | [] => ret ctx
  | reg :: rest =>
      fun s =>
        match read_single depth (uid reg) true s with
        | (Ok _, s') => read_all_loop depth rest (ctx ++ [reg]) s'
        | (Raise e, s') =>
            if is_operation_failure e then
              (logger WARNING
                      ("Unable to read the fuse " +:+ name reg +:+ ": " +:+ exn_str e) ;;;
               read_all_loop depth rest ctx) s'
            else (Raise e, s')
        end
  end.

(** [Fuses.read_all]. *)
Definition read_all (depth : nat) : M Dev unit :=
  fr <- get_fuse_regs ;;
  ctx <- read_all_loop depth (registers fr) [] ;;
  set_fuse_context ctx.

Definition is_implicit (p : IndividualWriteLock) : bool :=
  match p with IMPLICIT => true | _ => false end.

Definition is_always (p : IndividualWriteLock) : bool :=
  match p with ALWAYS => true | _ => false end.

(** Lines 402-410 of [write_single_reg]: the lock fuse is read first and
    the write is refused when it shows the register write-locked. *)
Definition check_write_lock (depth : nat) (reg : FuseRegister) : M Dev unit :=
  fr <- get_fuse_regs ;;
  match Regs.get_lock_fuse fr reg with
  | Some lock_reg =>
      logger DEBUG "Reading the value of lock register first." ;;;
      (* if the fuse locks itself, do not check locks when reading *)
      _ <- read_single depth (uid lock_reg) (negb (Reg.same lock_reg reg)) ;;
      fr' <- get_fuse_regs ;;
      if Reg.has_lock WRITE_LOCK (Reg.get_active_locks fr' reg) then
        raise (SPSDKFuseOperationFailure
                 ("Fuse " +:+ name reg +:+ " write operation is locked by lock fuse "
                  +:+ name lock_reg +:+ "."))
      else ret tt
  | None => ret tt
  end.

(** Lines 411-419: for the policies [ALWAYS] and [IMPLICIT] the register
    is read again and must still hold its reset value. *)
Definition check_not_written (depth : nat) (reg : FuseRegister) : M Dev unit :=
  match individual_write_lock reg with
  | ALWAYS | IMPLICIT =>
      let reset := Reg.get_reset_value reg in
      value <- read_single depth (uid reg) true ;;
      if negb (Z.eqb value reset) then
        raise (SPSDKFuseOperationFailure
                 ("Fuse " +:+ name reg +:+ " has non reset value "
                  +:+ PyFormat.str_int reset +:+ " and is write-locked."))
      else ret tt
  | NEVER => ret tt
  end.

(** Lines 421-430: the lock flag handed to the operator. *)
Definition effective_lock (reg : FuseRegister) (lock : bool) : M Dev bool :=
  lock <- (if lock && is_implicit (individual_write_lock reg) then
             logger WARNING
               "The user's lock is ignored as the fuse will be implicitly locked after write" ;;;
             ret false
           else ret lock) ;;
  if negb lock && is_always (individual_write_lock reg) then
    logger INFO
      "Enabling the lock flag as the fuse has individual write lock set to 'always'" ;;;
    ret true
  else ret lock.

(** The inner function [write_single_reg] of [Fuses.write_single];
    [name_] is the [name] argument of the enclosing call. *)
Definition write_single_reg (depth : nat) (name_ : string)
           (reg : FuseRegister) (lock : bool) : M Dev unit :=
  match otp_index reg with
  | None => raise (SPSDKError ("OTP index for fuse " +:+ name reg +:+ " is not set."))
  | Some idx =>
      if negb (is_writable (access reg)) then
        raise (SPSDKFuseOperationFailure
                 ("Unable to write fuse " +:+ name_ +:+ ". Fuse access: "
                  +:+ access_description (access reg)))
      else
        check_write_lock depth reg ;;;
        check_not_written depth reg ;;;
        lock <- effective_lock reg lock ;;
        fr <- get_fuse_regs ;;
        with_fuse_operator (write_fuse idx (Reg.get_value fr reg) lock) ;;;
        (* lock the local register so it matches the real state in chip *)
        if lock || is_implicit (individual_write_lock reg) then
          modify_fuse_regs (Reg.lock reg WRITE_LOCK)
        else ret tt
  end.

(** [Fuses.write_single]. *)
Definition write_single (depth : nat) (name_ : string) (lock : bool) : M Dev unit :=
  reg <- find_reg name_ true ;;
  if Reg.has_group_registers reg then
    for_each (sub_regs reg) (fun sub_reg => write_single_reg depth name_ sub_reg lock)
  else write_single_reg depth name_ reg lock.

(** [Fuses.write_multiple]. *)
Definition write_multiple (depth : nat) (names : list string) : M Dev unit :=
  for_each names
           (fun n => reg <- find_reg n true ;; write_single depth (uid reg) false).

(** [Fuses.create_fuse_script]; [version] is [spsdk.version] and [tool]
    the operator name the database holds for the family
    ([get_db(family, revision).get_str(DatabaseManager.FUSES, "tool")]).
    The text is rendered by the class found under that name
    ([self.fuse_operator_type]), a class method; the operator of the object
    is not asked. *)
Definition create_fuse_script (version tool : string) (s : Fuses Dev) : Result string :=
  let fuse_regs_ :=
    flat_map (fun reg =>
                if Reg.has_group_registers reg then
                  (if reverse_subregs_order reg then rev (sub_regs reg) else sub_regs reg)
                else [reg])
             (fuse_context s) in
  match get_operator_type tool with
  | Raise e => Raise e
  | Ok fuse_operator_type =>
      @get_fuse_script Empty_set (operator_class fuse_operator_type)
                       version (family s) (fuse_regs s) fuse_regs_ (revision s)
  end.

End Orchestrator.

(* ===================================================================== *)
(** ** Declarative configuration *)
(* ===================================================================== *)

(** A value of the [registers] mapping: a raw integer or a mapping from
    bitfield names to integers. *)
Inductive CfgValue : Type :=
| CfgInt (v : Z)
| CfgBitfields (items : list (string * Z)).

(** The configuration dictionary; [cfg_registers] keeps the insertion order
    of the Python dict. *)
Record Config : Type := mkConfig {
  cfg_family : string;
  cfg_revision : string;
  cfg_registers : list (string * CfgValue)
}.

Module RegsConfig.

Fixpoint load_bitfields (r : FuseRegister) (items : list (string * Z))
         (fr : FuseRegisters) : Result unit * FuseRegisters :=
  match items with
  | [] => (Ok tt, fr)
  | (bn, v) :: rest =>
      match Reg.get_bitfield r bn with
      | Raise e => (Raise e, fr)
      | Ok b => load_bitfields r rest (Reg.bitfield_set r b v fr)
      end
  end.

(** Modelled from the spec: [FuseRegisters.load_yml_config] is not part
    of the sources.  It populates the in-memory values from the mapping
    register-name -> raw value or bitfield-name -> value; the registers
    set before an unknown name is met stay set. *)
Fixpoint load_yml_config (yml : list (string * CfgValue)) (fr : FuseRegisters)
  : Result unit * FuseRegisters :=
  match yml with
  | [] => (Ok tt, fr)
  | (reg_name, value) :: rest =>
      match Regs.find_reg fr reg_name true with
      | Raise e => (Raise e, fr)
      | Ok reg =>
          match value with
          | CfgInt v => load_yml_config rest (Reg.set_value reg v fr)
          | CfgBitfields items =>
              match load_bitfields reg items fr with
              | (Raise e, fr') => (Raise e, fr')
              | (Ok _, fr') => load_yml_config rest fr'
              end
          end
      end
  end.

(** Modelled from the spec: [FuseRegisters.get_config] is not part of the
    sources.  It serializes the current values of the registers; with
    [diff] only the registers whose value differs from the reset value. *)
Definition get_config (fr : FuseRegisters) (diff : bool) : list (string * CfgValue) :=
  flat_map
    (fun reg =>
       if diff && Z.eqb (Reg.get_value fr reg) (Reg.get_reset_value reg) then []
       else [(name reg, CfgInt (Reg.get_value fr reg))])
    (registers fr).

End RegsConfig.


Section Configuration.

Context {Dev : Type}.

(** The list comprehension of [load_config]: every key is resolved, the
    first unknown name raises. *)
Fixpoint resolve_all (fr : FuseRegisters) (names : list string)
  : Result (list FuseRegister) :=
  match names with
  | [] => Ok []
  | n :: rest =>
      match Regs.find_reg fr n true with
      | Raise e => Raise e
      | Ok r =>
          match resolve_all fr rest with
          | Raise e => Raise e
          | Ok rs => Ok (r :: rs)
          end
      end
  end.

(** [Fuses.load_config].  [check_config] stands for the schema validation,
    an external collaborator: it either accepts the configuration or
    raises. *)
Definition load_config (check_config : Config -> Result unit) (config : Config)
  : M Dev unit :=
  fun s =>
    match check_config config with
    | Raise e => (Raise e, s)
    | Ok _ =>
        let '(r, fr) := RegsConfig.load_yml_config (cfg_registers config) (fuse_regs s) in
        let s := mkFuses (family s) (revision s) (_operator s) fr
                         (fuse_context s) (log s) in
        match r with
        | Raise e => (Raise e, s)
        | Ok _ =>
            (* set the fuse context to currently loaded registers *)
            match resolve_all fr (map fst (cfg_registers config)) with
            | Raise e => (Raise e, s)
            | Ok ctx => set_fuse_context ctx s
            end
        end
    end.

(** [Fuses.get_config]. *)
Definition get_config (diff : bool) : M Dev Config :=
  fun s =>
    let registers_ := RegsConfig.get_config (fuse_regs s) diff in
    (logger DEBUG "The fuse configuration was created." ;;;
     ret (mkConfig (family s) (revision s) registers_)) s.

End Configuration.

(* ===================================================================== *)
(** ** [FuseScript]: values resolved from an attributes object *)
(* ===================================================================== *)

(** The Python values that reach the script generator. *)
Inductive PyVal : Type :=
| PyInt (z : Z)
| PyBool (b : bool)
| PyStr (s : string)
| PyNone.

(** Truth value of an object, as tested by [if value:]. *)
Definition truthy (v : PyVal) : bool :=
  match v with
  | PyInt z => negb (Z.eqb z 0)
  | PyBool b => b
  | PyStr s => negb (String.eqb s "")
  | PyNone => false
  end.

(** An entry of [fuses_db]: a single value or a mapping from bitfield names
    to values. *)
Inductive DbValue : Type :=
| DbLeaf (v : PyVal)
| DbDict (items : list (string * PyVal)).

(** [isinstance(value, (int, bool))]. *)
Definition is_int_or_bool (v : PyVal) : bool :=
  match v with PyInt _ | PyBool _ => true | _ => false end.

(** Modelled from the spec: [spsdk.utils.misc.value_to_int] is not part of
    the sources.  Integers and booleans convert to their integer value, a
    string converts when it is a decimal numeral, anything else is refused. *)
Definition value_to_int (v : PyVal) : Result Z :=
  match v with
  | PyInt z => Ok z
  | PyBool b => Ok (if b then 1 else 0)
  | PyStr s =>
      match DecimalString.NilZero.int_of_string s with
      | Some d => Ok (Z.of_int d)
      | None => Raise (SPSDKError ("Invalid input number type(str) with value (" +:+ s +:+ ")"))
      end
  | PyNone => Raise (SPSDKError "Invalid input number type(NoneType) with value (None)")
  end.

(** An attributes object: [hasattr] and [getattr] by attribute name. *)
Definition AttributesObject : Type := string -> option PyVal.

Record FuseScript : Type := mkFuseScript {
  fs_family : string;
  fs_revision : string;
  fs_fuses : FuseRegisters;
  fs_fuses_db : list (string * DbValue);
  fs_no_verify : bool;
  fs_name : string
}.

Module Script.

Definition startswith (pre s : string) : bool := String.prefix pre s.

(** [FuseScript.get_object_value]. *)
Definition get_object_value (value : string) (attributes_object : AttributesObject)
  : Result PyVal :=
  let stripped := String.substring 2 (String.length value - 2) value in
  match (if startswith "__" value then attributes_object stripped else None) with
  | Some v => Ok v
  | None =>
      Raise (SPSDKValueError
               ("Fuses: Object does not contain "
                +:+ (if startswith "__" value then stripped else value)))
  end.

(** Modelled from the spec: [Register.set_value] with a Python value. *)
Definition reg_set_value (reg : FuseRegister) (v : PyVal) (fr : FuseRegisters)
  : Result FuseRegisters :=
  match value_to_int v with
  | Raise e => Raise e
  | Ok z => Ok (Reg.set_value reg z fr)
  end.

(** Modelled from the spec: [Bitfield.set_value]; a value that does not
    fit the width of the bitfield is refused. *)
Definition bitfield_set_value (reg : FuseRegister) (b : Bitfield) (v : PyVal)
           (fr : FuseRegisters) : Result FuseRegisters :=
  match value_to_int v with
  | Raise e => Raise e
  | Ok z =>
      if (0 <=? z) && (z <? 2 ^ bf_width b)
      then Ok (Reg.bitfield_set reg b z fr)
      else Raise (SPSDKValueError
                    ("The input value is out of range of bitfield " +:+ bf_name b))
  end.

Definition bitfield_info (fr : FuseRegisters) (reg : FuseRegister) (b : Bitfield)
  : string :=
  "# Bitfield: " +:+ bf_name b +:+ ", Description: " +:+ bf_description b
  +:+ ", Value: " +:+ PyFormat.hex (Reg.bitfield_get fr reg b) +:+ nl.

(** The loop over the items of a bitfield mapping (lines 600-613). *)
Fixpoint apply_bitfields (attributes_object : AttributesObject) (reg : FuseRegister)
         (items : list (string * PyVal)) (fr : FuseRegisters) (extra_info : string)
  : Result (FuseRegisters * string) :=
  match items with
  | [] => Ok (fr, extra_info)
  | (sub_key, sub_value) :: rest =>
      match Reg.get_bitfield reg sub_key with
      | Raise e => Raise e
      | Ok bitfield =>
          let applied :=
            if is_int_or_bool sub_value then
              bitfield_set_value reg bitfield sub_value fr
            else
              match sub_value with
              | PyStr sv =>
                  match get_object_value sv attributes_object with
                  | Raise e => Raise e
                  | Ok resolved =>
                      if truthy resolved
                      then bitfield_set_value reg bitfield resolved fr
                      else Ok fr
                  end
              | _ => Ok fr
              end in
          match applied with
          | Raise e => Raise e
          | Ok fr' =>
              apply_bitfields attributes_object reg rest fr'
                              (extra_info +:+ bitfield_info fr' reg bitfield)
          end
      end
  end.

(** Lines 596-617: the value of one entry of [fuses_db] is applied to its
    register; the result is the registers and [extra_info]. *)
Definition apply_value (attributes_object : AttributesObject) (reg : FuseRegister)
           (value : DbValue) (fr : FuseRegisters) : Result (FuseRegisters * string) :=
  match value with
  | DbLeaf v =>
      if is_int_or_bool v then          (* RAW int value or boolean *)
        match reg_set_value reg v fr with
        | Raise e => Raise e
        | Ok fr' => Ok (fr', "")
        end
      else
        match v with
        | PyStr sv =>                   (* Value from object *)
            match get_object_value sv attributes_object with
            | Raise e => Raise e
            | Ok resolved =>
                if truthy resolved then
                  match reg_set_value reg resolved fr with
                  | Raise e => Raise e
                  | Ok fr' => Ok (fr', "")
                  end
                else Ok (fr, "")
            end
        | _ => Ok (fr, "")
        end
  | DbDict items =>                     (* value contains bitfields *)
      apply_bitfields attributes_object reg items fr ""
  end.

Section Generate.

Context {Dev : Type} `{FuseOperator Dev}.

(** [FuseScript.generate_file_header]; [version] is [spsdk.version]. *)
Definition generate_file_header (version : string) (fs : FuseScript) : string :=
  "# " +:+ NAME +:+ " " +:+ fs_name fs +:+ " fuses programming script" +:+ nl
  +:+ "# Generated by SPSDK " +:+ version +:+ nl
  +:+ "# Family: " +:+ fs_family fs +:+ " Revision: " +:+ fs_revision fs.

(** The texts built by [generate_script] and the records it logs. *)
Record Output : Type := mkOutput {
  out_script : string;
  out_info : string;
  out_log : list LogRecord
}.

(** Lines 627-637: one command per member of a grouped register. *)
Fixpoint emit_sub_regs (fs : FuseScript) (fr : FuseRegisters)
         (subs : list FuseRegister) (o : Output) : Result Output :=
  match subs with
  | [] => Ok o
  | reg :: rest =>
      let script := out_script o +:+ "# OTP ID: " +:+ name reg +:+ ", Value: "
                    +:+ PyFormat.hex (Reg.get_value fr reg) +:+ nl in
      match otp_index reg with
      | None => Raise (SPSDKError ("OTP index is not defined for " +:+ name reg))
      | Some idx =>
          let '(cmd, logs) :=
            get_fuse_write_cmd idx (Reg.get_value fr reg) false (negb (fs_no_verify fs)) in
          emit_sub_regs fs fr rest
            (mkOutput (script +:+ cmd +:+ nl)
                      (out_info o +:+ "OTP ID: " +:+ PyFormat.str_int idx +:+ ", Value: "
                       +:+ PyFormat.hex (Reg.get_value fr reg) +:+ nl)
                      (out_log o ++ logs))
      end
  end.

(** Lines 619-648: the text emitted for one register once its value is
    resolved. *)
Definition emit_register (fs : FuseScript) (fr : FuseRegisters) (reg : FuseRegister)
           (extra_info : string) (o : Output) : Result Output :=
  let script := out_script o +:+ nl +:+ "# Value: "
                +:+ PyFormat.hex (Reg.get_value fr reg) +:+ nl in
  let script := script +:+ "# Description: " +:+ description reg +:+ nl in
  let script := script +:+ extra_info in
  let script :=
    if negb (String.eqb extra_info "") then
      script +:+ "# WARNING! Partially set register, check all bitfields before writing" +:+ nl
    else script in
  match sub_regs reg with
  | _ :: _ =>
      emit_sub_regs fs fr (sub_regs reg)
        (mkOutput (script +:+ "# Grouped register name: " +:+ name reg +:+ nl +:+ nl)
                  (out_info o +:+ nl +:+ " --== Grouped register name: " +:+ name reg
                   +:+ " ==-- " +:+ nl)
                  (out_log o))
  | [] =>
      let script := script +:+ "# OTP ID: " +:+ name reg +:+ nl +:+ nl in
      match otp_index reg with
      | None => Raise (SPSDKError ("OTP index is not defined for " +:+ name reg))
      | Some idx =>
          let '(cmd, logs) :=
            get_fuse_write_cmd idx (Reg.get_value fr reg) false (negb (fs_no_verify fs)) in
          Ok (mkOutput (script +:+ cmd +:+ nl)
                       (out_info o +:+ "OTP ID: " +:+ PyFormat.str_int idx +:+ ", Value: "
                        +:+ PyFormat.hex (Reg.get_value fr reg) +:+ nl)
                       (out_log o ++ logs))
      end
  end.

(** The body of the loop of [generate_script] for one item of
    [fuses_db]: the registers after the item and the output so far.
    [self.fuses.get_reg(key)] is the lookup of the collection, members of
    group registers left out. *)
Definition process_item (fs : FuseScript) (attributes_object : AttributesObject)
           (key : string) (value : DbValue) (fr : FuseRegisters) (o : Output)
  : Result (FuseRegisters * Output) :=
  if startswith "_" key then Ok (fr, o)     (* Skip private attributes *)
  else
    match Regs.find_reg fr key false with
    | Raise e => Raise e
    | Ok reg =>
        match apply_value attributes_object reg value fr with
        | Raise e => Raise e
        | Ok (fr', extra_info) =>
            match emit_register fs fr' reg extra_info o with
            | Raise e => Raise e
            | Ok o' => Ok (fr', o')
            end
        end
    end.

Fixpoint generate_loop (fs : FuseScript) (attributes_object : AttributesObject)
         (items : list (string * DbValue)) (fr : FuseRegisters) (o : Output)
  : Result (FuseRegisters * Output) :=
  match items with
  | [] => Ok (fr, o)
  | (key, value) :: rest =>
      match process_item fs attributes_object key value fr o with
      | Raise e => Raise e
      | Ok (fr', o') => generate_loop fs attributes_object rest fr' o'
      end
  end.

(** [FuseScript.generate_script]. *)
Definition generate_script (version : string) (fs : FuseScript)
           (attributes_object : AttributesObject) (info_only : bool) : Result string :=
  let script := generate_file_header version fs +:+ nl in
  match generate_loop fs attributes_object (fs_fuses_db fs) (fs_fuses fs)
                      (mkOutput script "" []) with
  | Raise e => Raise e
  | Ok (_, o) => Ok (if info_only then out_info o else out_script o)
  end.

End Generate.





End Script.

(* ===================================================================== *)
(** ** Settings of the package *)
(* ===================================================================== *)

(** The settings computed when the package [spsdk] is imported
    ([spsdk/__init__.py]). *)
Module Settings.

(** [os.environ.get]. *)
Definition Environ : Type := string -> option string.

(** Python's [a or b] on values that are a string or [None]: [a] when it
    is a non-empty string, else [b]. *)
Definition py_or (a b : option string) : option string :=
  match a with
  | Some s => if String.eqb s "" then b else a
  | None => b
  end.

(** [SPSDK_VERSION_BASE.replace(".", "_")]. *)
Definition SPSDK_VERSION_FOLDER_SUFFIX (version_base : string) : string :=
  PyFormat.string_map (fun c => if Ascii.eqb c "." then "_"%char else c) version_base.

Definition SPSDK_DATA_FOLDER_ENV_VERSION (version_base : string) : string :=
  "SPSDK_DATA_FOLDER_" +:+ SPSDK_VERSION_FOLDER_SUFFIX version_base.

(** [SPSDK_DATA_FOLDER]; [package_data] is the folder [data] beside the
    package. *)
Definition SPSDK_DATA_FOLDER (environ : Environ) (version_base package_data : string)
  : option string :=
  py_or (py_or (environ (SPSDK_DATA_FOLDER_ENV_VERSION version_base))
               (environ "SPSDK_DATA_FOLDER"))
        (Some package_data).

Definition SPSDK_RESTRICTED_DATA_FOLDER_ENV_VERSION (version_base : string) : string :=
  "SPSDK_RESTRICTED_DATA_FOLDER_" +:+ SPSDK_VERSION_FOLDER_SUFFIX version_base.

(** [SPSDK_RESTRICTED_DATA_FOLDER]. *)
Definition SPSDK_RESTRICTED_DATA_FOLDER (environ : Environ) (version_base : string)
  : option string :=
  py_or (environ (SPSDK_RESTRICTED_DATA_FOLDER_ENV_VERSION version_base))
        (environ "SPSDK_RESTRICTED_DATA_FOLDER").

End Settings.

(* ===================================================================== *)
(** ** A simulated device and a small register map *)
(* ===================================================================== *)

Module Demo.

(** A simulated boot-loader session: the fuse array, the indices that
    cannot be read, whether the session is open, and the programming
    requests received so far (index as sent, value). *)
Record SimBoot : Type := mkSimBoot {
  sim_opened : bool;
  sim_fuses : gmap Z Z;
  sim_unreadable : list Z;
  sim_requests : list (Z * Z)
}.

Definition sim_read (index : Z) (b : SimBoot) : option Z * SimBoot :=
  if existsb (Z.eqb index) (sim_unreadable b) then (None, b)
  else (Some (default 0 (sim_fuses b !! index)), b).

Definition sim_program (index value : Z) (b : SimBoot) : bool * SimBoot :=
  let cell := Z.land index (Z.ones 24) in
  (true,
   mkSimBoot (sim_opened b)
             (<[cell := Z.lor (default 0 (sim_fuses b !! cell)) value]> (sim_fuses b))
             (sim_unreadable b)
             (sim_requests b ++ [(index, value)])).

#[global] Instance sim_mcuboot : McuBoot SimBoot :=
  mkMcuBoot SimBoot sim_opened
    (fun b => mkSimBoot true (sim_fuses b) (sim_unreadable b) (sim_requests b))
    (fun b => mkSimBoot false (sim_fuses b) (sim_unreadable b) (sim_requests b))
    sim_read sim_program.

#[global] Instance sim_operator : FuseOperator SimBoot := BlhostFuseOperator.operator.

Definition rw : Access := mkAccess true true "RW".

Definition leaf (n : string) (idx : Z) (policy : IndividualWriteLock)
           (lock_reg : option FuseLockRegister) : FuseRegister :=
  mkFuseRegister n ("uid_" +:+ n) (Some idx) 32 ("Fuse " +:+ n) [] rw 0 policy lock_reg [] false.

(** [FUSE_A]: policy [NEVER], no lock fuse. *)
Definition FUSE_A : FuseRegister := leaf "FUSE_A" 3 NEVER None.

(** [FUSE_B]: policy [IMPLICIT]. *)
Definition FUSE_B : FuseRegister := leaf "FUSE_B" 4 IMPLICIT None.

(** [FUSE_C]: policy [ALWAYS]. *)
Definition FUSE_C : FuseRegister := leaf "FUSE_C" 5 ALWAYS None.

(** [LOCK0]: a lock fuse that is its own lock fuse; bit 0 write-locks it,
    bit 1 read-locks it. *)
Definition LOCK0 : FuseRegister :=
  leaf "LOCK0" 0 NEVER (Some (mkFuseLockRegister "uid_LOCK0" 1 2)).

(** [FUSE_D]: locked through [LOCK0], bit 2 (write) and bit 3 (read). *)
Definition FUSE_D : FuseRegister :=
  leaf "FUSE_D" 6 NEVER (Some (mkFuseLockRegister "uid_LOCK0" 4 8)).

Definition KEY0 : FuseRegister := leaf "KEY0" 8 NEVER None.
Definition KEY1 : FuseRegister := leaf "KEY1" 9 NEVER None.

(** [KEY]: a group register over [KEY0] and [KEY1]; no OTP index of its
    own. *)
Definition KEY : FuseRegister :=
  mkFuseRegister "KEY" "uid_KEY" None 64 "Key" [] rw 0 NEVER None [KEY0; KEY1] false.

(** [MODE]: a register with two bitfields. *)
Definition MODE : FuseRegister :=
  mkFuseRegister "MODE" "uid_MODE" (Some 10) 32 "Mode"
                 [mkBitfield "BOOT" 0 4 "Boot source"; mkBitfield "DBG" 4 1 "Debug enable"]
                 rw 0 NEVER None [] false.

Definition regs : FuseRegisters :=
  mkFuseRegisters [FUSE_A; FUSE_B; FUSE_C; LOCK0; FUSE_D; KEY; MODE] ∅ ∅.

Definition boot (fuses : list (Z * Z)) (unreadable : list Z) : SimBoot :=
  mkSimBoot false (list_to_map fuses) unreadable [].

Definition fuses (fr : FuseRegisters) (b : SimBoot) : Fuses SimBoot :=
  mkFuses "demo" "latest" (Some b) fr [] [].

Definition set (r : FuseRegister) (v : Z) (s : Fuses SimBoot) : Fuses SimBoot :=
  mkFuses (family s) (revision s) (_operator s) (Reg.set_value r v (fuse_regs s))
          (fuse_context s) (log s).

Definition requests (s : Fuses SimBoot) : list (Z * Z) :=
  match _operator s with Some b => sim_requests b | None => [] end.

(** A session on a device whose fuses are all blank. *)
Definition blank : Fuses SimBoot := fuses regs (boot [] []).

(** The blank session after [read_single("FUSE_B")]. *)
Definition after_read_B : Fuses SimBoot := snd (read_single 4 "FUSE_B" true blank).

(** [NOIDX]: a register without members and without OTP index. *)
Definition NOIDX : FuseRegister :=
  mkFuseRegister "NOIDX" "uid_NOIDX" None 32 "No index" [] rw 0 NEVER None [] false.

Definition with_noidx : Fuses SimBoot :=
  fuses (mkFuseRegisters [FUSE_A; NOIDX] ∅ ∅) (boot [] []).

(** An attributes object with a zero, a false, a non-zero and a true
    attribute. *)
Definition attributes : AttributesObject :=
  fun a =>
    if String.eqb a "zero" then Some (PyInt 0)
    else if String.eqb a "off" then Some (PyBool false)
    else if String.eqb a "seven" then Some (PyInt 7)
    else if String.eqb a "on" then Some (PyBool true)
    else None.

(** The registers with [FUSE_A] holding 5 and the field [BOOT] of [MODE]
    holding 3. *)
Definition preset : FuseRegisters :=
  Reg.set_value MODE 3 (Reg.set_value FUSE_A 5 regs).

Definition script (db : list (string * DbValue)) : FuseScript :=
  mkFuseScript "demo" "latest" preset db false "Demo".

(** A configuration with two raw values and a bitfield mapping. *)
Definition config : Config :=
  mkConfig "demo" "latest"
           [("FUSE_A", CfgInt 5); ("FUSE_C", CfgInt 0);
            ("MODE", CfgBitfields [("BOOT", 9); ("DBG", 1)])].


(** [KEY2]: a fuse that can be read but not written. *)
Definition KEY2 : FuseRegister :=
  mkFuseRegister "KEY2" "uid_KEY2" (Some 11) 32 "Fuse KEY2" [] (mkAccess true false "RO")
                 0 NEVER None [] false.

(** [PAIR]: a group register whose second member cannot be written. *)
Definition PAIR : FuseRegister :=
  mkFuseRegister "PAIR" "uid_PAIR" None 64 "Pair" [] rw 0 NEVER None [KEY0; KEY2] false.

(** A blank device under the registers [FUSE_A] and [PAIR]; [KEY0] holds 7
    in memory. *)
Definition with_pair : Fuses SimBoot :=
  set KEY0 7 (fuses (mkFuseRegisters [FUSE_A; PAIR] ∅ ∅) (boot [] [])).

(** An environment in which the data folder is given for version 2.2.0
    and in general. *)
Definition environ : Settings.Environ :=
  fun n =>
    if String.eqb n "SPSDK_DATA_FOLDER_2_2_0" then Some "/opt/data-2.2.0"
    else if String.eqb n "SPSDK_DATA_FOLDER" then Some "/opt/data"
    else if String.eqb n "SPSDK_RESTRICTED_DATA_FOLDER_2_2_0" then Some ""
    else None.

End Demo.

(* ===================================================================== *)
(** ** Vocabulary of the statements *)
(* ===================================================================== *)

(** The object [s] after one more record reached the logger. *)
Definition append_log {Dev : Type} (s : Fuses Dev) (r : LogRecord) : Fuses Dev :=
  mkFuses (family s) (revision s) (_operator s) (fuse_regs s) (fuse_context s)
          (log s ++ [r]).

Definition implicit_lock_warning : LogRecord :=
  mkLog WARNING
        "The user's lock is ignored as the fuse will be implicitly locked after write".

(** The outcome of every [read_single] call made by the loop of
    [read_all], in order; the list stops at a call that raises anything but
    [SPSDKFuseOperationFailure]. *)
Fixpoint read_all_trace {Dev : Type} `{FuseOperator Dev}
         (depth : nat) (regs : list FuseRegister) (s : Fuses Dev)
  : list (FuseRegister * Result Z) :=
  match regs with
  | [] => []
  | reg :: rest =>
      let '(r, s') := read_single depth (uid reg) true s in
      (reg, r) ::
      match r with
      | Ok _ => read_all_trace depth rest s'
      | Raise e =>
          if is_operation_failure e then
            read_all_trace depth rest
              (append_log s' (mkLog WARNING ("Unable to read the fuse " +:+ name reg
                                             +:+ ": " +:+ exn_str e)))
          else []
      end
  end.

Definition read_succeeded (o : FuseRegister * Result Z) : bool :=
  match snd o with Ok _ => true | Raise _ => false end.

Definition read_failed (o : FuseRegister * Result Z) : bool :=
  match snd o with Ok _ => false | Raise e => is_operation_failure e end.

(** The warning [read_all] logs for a register whose read failed. *)
Definition read_warning (o : FuseRegister * Result Z) : LogRecord :=
  mkLog WARNING
        ("Unable to read the fuse " +:+ name (fst o) +:+ ": "
         +:+ match snd o with Ok _ => "" | Raise e => exn_str e end).

Definition warnings (l : list LogRecord) : list LogRecord :=
  List.filter is_warning l.

(** The value of a character as a digit in base [base]: the digits [0] to
    [9], then the upper-case letters from [A] on; no value for a digit that
    the base does not have, nor for any other character, the lower-case
    letters among them. *)
Definition digit_value (base : Z) (c : ascii) : option Z :=
  let code := Z.of_nat (nat_of_ascii c) in
  let d := if (48 <=? code) && (code <=? 57) then code - 48
           else if (65 <=? code) && (code <=? 90) then code - 55
           else base in
  if d <? base then Some d else None.

(** The digits of [s], most significant first, read after [acc]. *)
Fixpoint digits_value (base : Z) (s : string) (acc : Z) : option Z :=
  match s with
  | EmptyString => Some acc
  | String c s' =>
      match digit_value base c with
      | Some d => digits_value base s' (base * acc + d)
      | None => None
      end
  end.

(** The integer that the text [s] denotes in base [base]: one digit or
    more, after a minus sign for a negative number. *)
Definition numeral_value (base : Z) (s : string) : option Z :=
  match s with
  | EmptyString => None
  | String c s' =>
      if Ascii.eqb c "-" then
        match s' with
        | EmptyString => None
        | String _ _ => Z.opp <$> digits_value base s' 0
        end
      else digits_value base s 0
  end.

(** A numeral without a superfluous zero in front: after the sign, if any,
    the first digit is [0] only when it is the one digit, and the text
    [-0] is not used. *)
Definition no_leading_zero (s : string) : bool :=
  match s with
  | String c s' =>
      if Ascii.eqb c "-" then negb (String.prefix "0" s')
      else match s' with
           | EmptyString => true
           | String _ _ => negb (Ascii.eqb c "0")
           end
  | EmptyString => true
  end.

(** The attribute [description] of an SPSDK exception; the built-in
    [RecursionError] has none. *)
Definition exn_description (e : Exn) : option string :=
  match e with
  | SPSDKError m | SPSDKFuseOperationFailure m | SPSDKFuseConfigurationError m
  | SPSDKAttributeError m | SPSDKValueError m | SPSDKKeyError m
  | SPSDKRegsErrorRegisterNotFound m | SPSDKRegsErrorBitfieldNotFound m => Some m
  | RecursionError => None
  end.

(** [keeps_structure c]: running [c] leaves the registers of the collection,
    their structural definitions, as they are. *)
Definition keeps_structure {Dev A : Type} (c : M Dev A) : Prop :=
  forall s, registers (fuse_regs (snd (c s))) = registers (fuse_regs s).

(** [quiet c]: running [c] leaves the warnings of the log as they are. *)
Definition quiet {Dev A : Type} (c : M Dev A) : Prop :=
  forall s, warnings (log (snd (c s))) = warnings (log s).

Definition lock_read_debug : LogRecord :=
  mkLog DEBUG "Reading the value of lock register first.".





(** How [read_all] ends, read off the trace of its reads: it raises what
    the last read raised when that is no [SPSDKFuseOperationFailure]. *)
Definition trace_outcome (trace : list (FuseRegister * Result Z)) : Result unit :=
  match last trace with
  | Some (_, Raise e) => if is_operation_failure e then Ok tt else Raise e
  | _ => Ok tt
  end.

(** The result is the [RecursionError] of the depth limit. *)
Definition hit_depth_limit {A : Type} (r : Result A) : bool :=
  match r with
  | Raise RecursionError => true
  | _ => false
  end.

(** [stable c1 c2]: what [c1] gives, when it is no [RecursionError], [c2]
    gives as well. *)
Definition stable {Dev A : Type} (c1 c2 : M Dev A) : Prop :=
  forall s r s', c1 s = (r, s') -> hit_depth_limit r = false -> c2 s = (r, s').

Definition always_lock_info : LogRecord :=
  mkLog INFO
        "Enabling the lock flag as the fuse has individual write lock set to 'always'".

(** The object [s] with the device handle [d]. *)
Definition with_device {Dev : Type} (s : Fuses Dev) (d : Dev) : Fuses Dev :=
  mkFuses (family s) (revision s) (Some d) (fuse_regs s) (fuse_context s) (log s).

(** The object [s] with the registers [fr]. *)
Definition with_registers {Dev : Type} (s : Fuses Dev) (fr : FuseRegisters) : Fuses Dev :=
  mkFuses (family s) (revision s) (_operator s) fr (fuse_context s) (log s).

(** The registers whose commands [create_fuse_script] asks for. *)
Definition has_otp_index (reg : FuseRegister) : Prop := otp_index reg <> None.

(** What a programming script holds for one fuse: a comment line with the
    name, the OTP index and the bytes of the value, the write command of
    the operator class with neither the lock nor the verify flag, and an
    empty line.  Nothing for a fuse without OTP index. *)
Definition fuse_block {Dev : Type} `{FuseOperator Dev} (fr : FuseRegisters)
           (fuse : FuseRegister) : string :=
  match otp_index fuse with
  | Some idx =>
      "# Fuse " +:+ name fuse +:+ ", index " +:+ PyFormat.str_int idx +:+ " and value: 0x"
      +:+ bytes_hex (width fuse) (Reg.get_value fr fuse) +:+ "." +:+ nl
      +:+ fst (get_fuse_write_cmd idx (Reg.get_value fr fuse) false false) +:+ nl +:+ nl
  | None => ""
  end.

(** The blocks of the fuses, in order. *)
Definition script_body {Dev : Type} `{FuseOperator Dev} (fr : FuseRegisters)
           (fuses : list FuseRegister) : string :=
  fold_right (fun fuse text => fuse_block fr fuse +:+ text) "" fuses.



(** The string [sv] is a value of the entry [value]: the value itself or
    a value of its bitfield mapping. *)
Definition mentions (value : DbValue) (sv : string) : Prop :=
  match value with
  | DbLeaf v => v = PyStr sv
  | DbDict items => exists sub_key : string, In (sub_key, PyStr sv) items
  end.

(** An environment variable that is set to a non-empty string. *)
Definition is_set (v : option string) : Prop := exists s : string, v = Some s /\ s <> "".

(* ===================================================================== *)
(** * Properties *)
(* ===================================================================== *)

(** ** Command text *)

Section CommandText.

Import PyFormat.

Lemma append_cons (c : ascii) (a b : string) :
  String c a +:+ b = String c (a +:+ b).
Proof. reflexivity. Qed.

Lemma append_assoc (a b c : string) : (a +:+ b) +:+ c = a +:+ (b +:+ c).
Proof.
  induction a as [|x a IH]; [reflexivity|].
  rewrite !append_cons. now rewrite IH.
Qed.

Lemma append_empty_r (a : string) : a +:+ "" = a.
Proof.
  induction a as [|x a IH]; [reflexivity|].
  rewrite append_cons. now rewrite IH.
Qed.

Lemma chars_append (a b : string) : chars (a +:+ b) = (chars a ++ chars b)%list.
Proof.
  induction a as [|x a IH]; [reflexivity|].
  rewrite append_cons. unfold chars in *. simpl. now rewrite IH.
Qed.

Lemma chars_string_map (f : ascii -> ascii) (s : string) :
  chars (string_map f s) = map f (chars s).
Proof.
  induction s as [|x s IH]; [reflexivity|].
  unfold chars in *. simpl. now rewrite IH.
Qed.

(** The decimal rendering uses decimal digits and the minus sign only. *)
Lemma str_int_alphabet (n : Z) :
  Forall (fun c => In c dec_alphabet) (chars (str_int n)).
Proof.
  assert (Hu : forall d, Forall (fun c => In c dec_alphabet)
                                (chars (DecimalString.NilEmpty.string_of_uint d))).
  { induction d; simpl; constructor; try assumption; simpl; tauto. }
  assert (Hz : forall d, Forall (fun c => In c dec_alphabet)
                                (chars (DecimalString.NilZero.string_of_uint d))).
  { intros d. destruct d; try apply Hu.
    simpl. constructor; [simpl; tauto | constructor]. }
  unfold str_int. destruct (Z.to_int n) as [d|d]; simpl.
  - apply Hz.
  - constructor; [simpl; tauto | apply Hz].
Qed.

(** The [X] rendering uses upper-case hexadecimal digits and the minus
    sign only. *)
Lemma format_X_alphabet (n : Z) :
  Forall (fun c => In c hex_alphabet) (chars (format_X n)).
Proof.
  assert (Hu : forall d, Forall (fun c => In c hex_alphabet)
              (chars (string_map upper_ascii (HexadecimalString.NilEmpty.string_of_uint d)))).
  { induction d; simpl; constructor; try assumption; simpl; tauto. }
  assert (Hz : forall d, Forall (fun c => In c hex_alphabet)
              (chars (string_map upper_ascii (HexadecimalString.NilZero.string_of_uint d)))).
  { intros d. destruct d; try apply Hu.
    simpl. constructor; [simpl; tauto | constructor]. }
  unfold format_X, hex_digits. destruct (Z.to_hex_int n) as [d|d]; simpl.
  - apply Hz.
  - constructor; [simpl; tauto | apply Hz].
Qed.

(** The decimal rendering denotes the number it renders. *)
Lemma str_int_parses (n : Z) :
  Z.of_int <$> DecimalString.NilZero.int_of_string (str_int n) = Some n.
Proof.
  unfold str_int.
  rewrite DecimalString.NilZero.isi.
  - simpl. now rewrite DecimalZ.of_to.
  - destruct n as [|p|p]; simpl; try discriminate.
    intros E. injection E as E. now apply (DecimalPos.Unsigned.to_uint_nonnil p).
  - destruct n as [|p|p]; simpl; try discriminate.
    intros E. injection E as E. now apply (DecimalPos.Unsigned.to_uint_nonnil p).
Qed.

(** A text without the letter [v] holds no [verify] token. *)
Lemma no_v_no_verify (text : string) :
  ~ In "v"%char (chars text) ->
  forall pre post : string, text <> pre +:+ "verify" +:+ post.
Proof.
  intros Hv pre post ->. apply Hv.
  rewrite chars_append. apply in_or_app. right.
  rewrite chars_append. apply in_or_app. left.
  simpl. tauto.
Qed.

Lemma alphabet_no_v (alphabet : list ascii) (s : string) :
  ~ In "v"%char alphabet ->
  Forall (fun c => In c alphabet) (chars s) ->
  ~ In "v"%char (chars s).
Proof.
  intros Ha Hs Hin. rewrite Forall_forall in Hs. apply Ha.
  apply Hs. now apply list_elem_of_In.
Qed.

Ltac digit_step :=
  match goal with
  | |- context [digit_value ?b ?c] =>
      let v := eval vm_compute in (digit_value b c) in
      change (digit_value b c) with v; cbv iota
  end.

Lemma digits_value_dec_acc (d : Decimal.uint) :
  forall acc : positive,
    digits_value 10 (DecimalString.NilEmpty.string_of_uint d) (Z.pos acc)
    = Some (Z.pos (Pos.of_uint_acc d acc)).
Proof.
  induction d; intros acc;
    cbn [DecimalString.NilEmpty.string_of_uint digits_value Pos.of_uint_acc];
    [reflexivity| ..];
    digit_step;
    match goal with
    | |- digits_value 10 _ ?a = Some (Z.pos (Pos.of_uint_acc _ ?p)) =>
        replace a with (Z.pos p) by lia; apply IHd
    end.
Qed.

Lemma digits_value_dec (d : Decimal.uint) :
  digits_value 10 (DecimalString.NilEmpty.string_of_uint d) 0
  = Some (Z.of_N (Pos.of_uint d)).
Proof.
  induction d;
    cbn [DecimalString.NilEmpty.string_of_uint digits_value Pos.of_uint];
    [reflexivity| ..];
    digit_step; cbn [Z.mul Z.add];
    first [exact IHd | apply (digits_value_dec_acc d)].
Qed.

Lemma digits_value_hex_acc (d : Hexadecimal.uint) :
  forall acc : positive,
    digits_value 16 (string_map upper_ascii (HexadecimalString.NilEmpty.string_of_uint d))
                 (Z.pos acc)
    = Some (Z.pos (Pos.of_hex_uint_acc d acc)).
Proof.
  induction d; intros acc;
    cbn [HexadecimalString.NilEmpty.string_of_uint string_map digits_value
         Pos.of_hex_uint_acc];
    [reflexivity| ..];
    digit_step;
    match goal with
    | |- digits_value 16 _ ?a = Some (Z.pos (Pos.of_hex_uint_acc _ ?p)) =>
        replace a with (Z.pos p) by lia; apply IHd
    end.
Qed.

Lemma digits_value_hex (d : Hexadecimal.uint) :
  digits_value 16 (string_map upper_ascii (HexadecimalString.NilEmpty.string_of_uint d)) 0
  = Some (Z.of_N (Pos.of_hex_uint d)).
Proof.
  induction d;
    cbn [HexadecimalString.NilEmpty.string_of_uint string_map digits_value Pos.of_hex_uint];
    [reflexivity| ..];
    digit_step; cbn [Z.mul Z.add];
    first [exact IHd | apply (digits_value_hex_acc d)].
Qed.

Lemma to_uint_head (p : positive) :
  exists (c : ascii) (rest : string),
    DecimalString.NilZero.string_of_uint (Pos.to_uint p) = String c rest
    /\ DecimalString.NilEmpty.string_of_uint (Pos.to_uint p) = String c rest
    /\ Ascii.eqb c "-" = false
    /\ Ascii.eqb c "0" = false.
Proof.
  assert (Hnorm : Decimal.unorm (Pos.to_uint p) = Pos.to_uint p).
  { rewrite <- (DecimalPos.Unsigned.to_of (Pos.to_uint p)).
    now rewrite DecimalPos.Unsigned.of_to. }
  pose proof (DecimalPos.Unsigned.to_uint_nonzero p) as Hnz.
  destruct (Pos.to_uint p) as [|d|d|d|d|d|d|d|d|d|d] eqn:E;
    try (eexists; eexists; repeat split; reflexivity).
  - discriminate Hnorm.
  - exfalso. rewrite DecimalFacts.unorm_D0 in Hnorm. unfold Decimal.unorm in Hnorm.
    destruct (Decimal.nzhead d) as [|u|u|u|u|u|u|u|u|u|u] eqn:Ed; try discriminate.
    + injection Hnorm as <-. now apply Hnz.
    + now apply (DecimalFacts.nzhead_nonzero d u).
Qed.

Lemma to_hex_uint_head (p : positive) :
  exists (c : ascii) (rest : string),
    string_map upper_ascii (HexadecimalString.NilZero.string_of_uint (Pos.to_hex_uint p))
    = String c rest
    /\ string_map upper_ascii
         (HexadecimalString.NilEmpty.string_of_uint (Pos.to_hex_uint p))
       = String c rest
    /\ Ascii.eqb c "-" = false
    /\ Ascii.eqb c "0" = false.
Proof.
  assert (Hnorm : Hexadecimal.unorm (Pos.to_hex_uint p) = Pos.to_hex_uint p).
  { rewrite <- (HexadecimalPos.Unsigned.to_of (Pos.to_hex_uint p)).
    now rewrite HexadecimalPos.Unsigned.of_to. }
  pose proof (HexadecimalPos.Unsigned.to_uint_nonzero p) as Hnz.
  destruct (Pos.to_hex_uint p) as [|d|d|d|d|d|d|d|d|d|d|d|d|d|d|d|d] eqn:E;
    try (eexists; eexists; repeat split; reflexivity).
  - discriminate Hnorm.
  - exfalso. rewrite HexadecimalFacts.unorm_D0 in Hnorm. unfold Hexadecimal.unorm in Hnorm.
    destruct (Hexadecimal.nzhead d) as [|u|u|u|u|u|u|u|u|u|u|u|u|u|u|u|u] eqn:Ed;
      try discriminate.
    + injection Hnorm as <-. now apply Hnz.
    + now apply (HexadecimalFacts.nzhead_nonzero d u).
Qed.

(** The decimal text of an integer denotes it and has no leading zero. *)
Lemma str_int_numeral (n : Z) :
  numeral_value 10 (str_int n) = Some n /\ no_leading_zero (str_int n) = true.
Proof.
  unfold str_int. destruct n as [|p|p]; [split; reflexivity| |];
    cbn [Z.to_int DecimalString.NilZero.string_of_int];
    destruct (to_uint_head p) as (c & rest & Hz & He & Hminus & Hzero);
    pose proof (digits_value_dec (Pos.to_uint p)) as Hval;
    rewrite DecimalPos.Unsigned.of_to in Hval; rewrite He in Hval; rewrite Hz.
  - split.
    + cbn [numeral_value]. now rewrite Hminus, Hval.
    + cbn [no_leading_zero]. rewrite Hminus, Hzero. now destruct rest.
  - split.
    + cbn [numeral_value Ascii.eqb]. change (Ascii.eqb "-" "-") with true. cbv iota.
      now rewrite Hval.
    + cbn [no_leading_zero]. change (Ascii.eqb "-" "-") with true. cbv iota.
      cbn [String.prefix]. destruct (ascii_dec "0" c) as [<-|_]; [discriminate|reflexivity].
Qed.

(** The upper-case hexadecimal text of an integer denotes it and has no
    leading zero. *)
Lemma format_X_numeral (n : Z) :
  numeral_value 16 (format_X n) = Some n /\ no_leading_zero (format_X n) = true.
Proof.
  unfold format_X, hex_digits. destruct n as [|p|p]; [split; reflexivity| |];
    cbn [Z.to_hex_int HexadecimalString.NilZero.string_of_int string_map];
    destruct (to_hex_uint_head p) as (c & rest & Hz & He & Hminus & Hzero);
    pose proof (digits_value_hex (Pos.to_hex_uint p)) as Hval;
    rewrite HexadecimalPos.Unsigned.of_to in Hval; rewrite He in Hval; rewrite Hz.
  - split.
    + cbn [numeral_value]. now rewrite Hminus, Hval.
    + cbn [no_leading_zero]. rewrite Hminus, Hzero. now destruct rest.
  - change (upper_ascii "-") with "-"%char. split.
    + cbn [numeral_value Ascii.eqb]. change (Ascii.eqb "-" "-") with true. cbv iota.
      now rewrite Hval.
    + cbn [no_leading_zero]. change (Ascii.eqb "-" "-") with true. cbv iota.
      cbn [String.prefix]. destruct (ascii_dec "0" c) as [<-|_]; [discriminate|reflexivity].
Qed.

End CommandText.

(** C8. For every index, value, lock flag and verify flag, the command of
    the blhost backend is [efuse-program-once <index> 0x<VALUE-HEX>], then
    [ --verify] or [ --no-verify] after the verify flag, then [ lock] exactly
    when the lock flag is set; the command of the nxpele backend is
    [write-fuse --index <index> --data 0x<VALUE-HEX>], then [ --lock] exactly
    when the lock flag is set, it does not depend on the verify flag and
    holds no [verify] token at all.  In both, [<index>] is the decimal
    numeral of the index and [<VALUE-HEX>] the hexadecimal numeral of the
    value in upper-case digits: each text denotes its number, digit by
    digit, and has no leading zero. *)
Theorem write_cmd_text_formats (index value : Z) (lock verify : bool) :
  fst (BlhostFuseOperator.get_fuse_write_cmd index value lock verify)
  = "efuse-program-once " +:+ PyFormat.str_int index
    +:+ " 0x" +:+ PyFormat.format_X value
    +:+ (if verify then " --verify" else " --no-verify")
    +:+ (if lock then " lock" else "")
  /\ fst (NxpeleFuseOperator.get_fuse_write_cmd index value lock verify)
     = "write-fuse --index " +:+ PyFormat.str_int index
       +:+ " --data 0x" +:+ PyFormat.format_X value
       +:+ (if lock then " --lock" else "")
  /\ fst (NxpeleFuseOperator.get_fuse_write_cmd index value lock verify)
     = fst (NxpeleFuseOperator.get_fuse_write_cmd index value lock (negb verify))
  /\ (forall pre post : string,
        fst (NxpeleFuseOperator.get_fuse_write_cmd index value lock verify)
        <> pre +:+ "verify" +:+ post)
  /\ numeral_value 10 (PyFormat.str_int index) = Some index
  /\ no_leading_zero (PyFormat.str_int index) = true
  /\ numeral_value 16 (PyFormat.format_X value) = Some value
  /\ no_leading_zero (PyFormat.format_X value) = true.
Proof.
  assert (Hdec : ~ In "v"%char (PyFormat.chars (PyFormat.str_int index))).
  { apply (alphabet_no_v PyFormat.dec_alphabet); [|apply str_int_alphabet].
    simpl. intuition discriminate. }
  assert (Hhex : ~ In "v"%char (PyFormat.chars (PyFormat.format_X value))).
  { apply (alphabet_no_v PyFormat.hex_alphabet); [|apply format_X_alphabet].
    simpl. intuition discriminate. }
  split; [|split; [|split; [|split; [|split; [|split; [|split]]]]]].
  5: apply str_int_numeral.
  5: apply str_int_numeral.
  5: apply format_X_numeral.
  5: apply format_X_numeral.
  - unfold BlhostFuseOperator.get_fuse_write_cmd. cbn [fst].
    destruct lock, verify; rewrite ?append_assoc, ?append_empty_r; reflexivity.
  - unfold NxpeleFuseOperator.get_fuse_write_cmd. cbn [fst].
    destruct lock; rewrite ?append_assoc, ?append_empty_r; reflexivity.
  - unfold NxpeleFuseOperator.get_fuse_write_cmd. cbn [fst]. reflexivity.
  - apply no_v_no_verify.
    unfold NxpeleFuseOperator.get_fuse_write_cmd. cbn [fst].
    destruct lock; rewrite !chars_append; rewrite !in_app_iff;
      intros Hin; decompose [or] Hin; clear Hin;
      try (apply Hdec; assumption); try (apply Hhex; assumption);
      match goal with H : In _ _ |- _ => simpl in H; intuition discriminate end.
Qed.

(** ** Writing a single fuse *)

Section WriteSingle.

Context {Dev : Type} `{FuseOperator Dev}.

(** On a register without members [write_single] is [write_single_reg]
    on the register the name resolves to. *)
Lemma write_single_leaf (depth : nat) (n : string) (lock : bool)
      (reg : FuseRegister) (s : Fuses Dev) :
  Regs.find_reg (fuse_regs s) n true = Ok reg ->
  Reg.has_group_registers reg = false ->
  write_single depth n lock s = write_single_reg depth n reg lock s.
Proof.
  intros Hfind Hleaf. unfold write_single, bind, find_reg.
  rewrite Hfind, Hleaf. reflexivity.
Qed.

(** The pre-check shared by the policies [ALWAYS] and [IMPLICIT]: when the
    register is read back with a value other than its reset value, the
    write is refused, whatever the lock flag. *)
Lemma write_single_reg_rejects_written (depth : nat) (n : string)
      (reg : FuseRegister) (idx v : Z) (s s1 s2 : Fuses Dev) (lock : bool) :
  individual_write_lock reg <> NEVER ->
  otp_index reg = Some idx ->
  is_writable (access reg) = true ->
  check_write_lock depth reg s = (Ok tt, s1) ->
  read_single depth (uid reg) true s1 = (Ok v, s2) ->
  v <> Reg.get_reset_value reg ->
  write_single_reg depth n reg lock s
  = (Raise (SPSDKFuseOperationFailure
              ("Fuse " +:+ name reg +:+ " has non reset value "
               +:+ PyFormat.str_int (Reg.get_reset_value reg)
               +:+ " and is write-locked.")), s2).
Proof.
  intros Hpol Hidx Hw Hlock Hread Hv.
  unfold write_single_reg. rewrite Hidx, Hw. cbn [negb].
  unfold bind at 1. rewrite Hlock.
  unfold bind at 1. unfold check_not_written.
  assert (Hne : Z.eqb v (Reg.get_reset_value reg) = false) by now apply Z.eqb_neq.
  destruct (individual_write_lock reg); [congruence| |];
    unfold bind at 1; rewrite Hread, Hne; reflexivity.
Qed.

Lemma has_lock_app_same (l : FuseLock) (ls : list FuseLock) :
  Reg.has_lock l (ls ++ [l]) = true.
Proof.
  unfold Reg.has_lock. rewrite existsb_app. simpl.
  destruct l; simpl; now rewrite orb_true_r.
Qed.

(** After [lock] the lock is among the active locks of the register. *)
Lemma lock_is_active (r : FuseRegister) (l : FuseLock) (fr : FuseRegisters) :
  Reg.has_lock l (Reg.get_active_locks (Reg.lock r l fr) r) = true.
Proof.
  unfold Reg.get_active_locks at 1. unfold Reg.lock. cbn [reg_locks].
  rewrite lookup_insert_eq. cbn [default].
  destruct (Reg.has_lock l (Reg.get_active_locks fr r)) eqn:E; [exact E|].
  apply has_lock_app_same.
Qed.

(** The flag handed to the operator for a register of policy [IMPLICIT] is
    false, whatever the caller asked for; only the log tells the
    difference. *)
Lemma effective_lock_implicit (reg : FuseRegister) (lock : bool) (s : Fuses Dev) :
  individual_write_lock reg = IMPLICIT ->
  effective_lock reg lock s
  = (Ok false,
     if lock then
       mkFuses (family s) (revision s) (_operator s) (fuse_regs s) (fuse_context s)
               (log s ++ [mkLog WARNING
                  "The user's lock is ignored as the fuse will be implicitly locked after write"])
     else s).
Proof.
  intros Hpol. unfold effective_lock. rewrite Hpol. destruct lock; reflexivity.
Qed.

(** The steps of [write_single_reg] once the register has an OTP index
    and is writable, one [match] per call that can raise. *)
Lemma write_single_reg_steps (depth : nat) (n : string) (reg : FuseRegister)
      (idx : Z) (lock : bool) (s : Fuses Dev) :
  otp_index reg = Some idx ->
  is_writable (access reg) = true ->
  write_single_reg depth n reg lock s
  = match check_write_lock depth reg s with
    | (Raise e, s1) => (Raise e, s1)
    | (Ok _, s1) =>
        match check_not_written depth reg s1 with
        | (Raise e, s2) => (Raise e, s2)
        | (Ok _, s2) =>
            match effective_lock reg lock s2 with
            | (Raise e, s3) => (Raise e, s3)
            | (Ok l, s3) =>
                match with_fuse_operator
                        (write_fuse idx (Reg.get_value (fuse_regs s3) reg) l) s3 with
                | (Raise e, s4) => (Raise e, s4)
                | (Ok _, s4) =>
                    if l || is_implicit (individual_write_lock reg)
                    then modify_fuse_regs (Reg.lock reg WRITE_LOCK) s4
                    else (Ok tt, s4)
                end
            end
        end
    end.
Proof.
  intros Hidx Hw. unfold write_single_reg. rewrite Hidx, Hw. cbn [negb].
  unfold bind, get_fuse_regs, ret.
  destruct (check_write_lock depth reg s) as [[[]|e] s1]; [|reflexivity].
  destruct (check_not_written depth reg s1) as [[[]|e] s2]; [|reflexivity].
  destruct (effective_lock reg lock s2) as [[l|e] s3]; [|reflexivity].
  destruct (with_fuse_operator _ s3) as [[[]|e] s4]; [|reflexivity].
  destruct (l || is_implicit (individual_write_lock reg)); reflexivity.
Qed.

Lemma with_fuse_operator_append_log {A : Type} (op : Dev -> Result A * Dev)
      (s : Fuses Dev) (r : LogRecord) :
  with_fuse_operator op (append_log s r)
  = (fst (with_fuse_operator op s), append_log (snd (with_fuse_operator op s)) r).
Proof.
  unfold with_fuse_operator, append_log. cbn [_operator].
  destruct (_operator s) as [d|] eqn:E.
  - destruct (op d) as [r' d']. reflexivity.
  - cbn [fst snd]. now rewrite E.
Qed.

Lemma write_single_reg_implicit_true_false (depth : nat) (n : string)
      (reg : FuseRegister) (s : Fuses Dev) :
  individual_write_lock reg = IMPLICIT ->
  match write_single_reg depth n reg false s with
  | (Ok _, s') => write_single_reg depth n reg true s
                  = (Ok tt, append_log s' implicit_lock_warning)
  | (Raise e, s') => write_single_reg depth n reg true s = (Raise e, s')
                     \/ write_single_reg depth n reg true s
                        = (Raise e, append_log s' implicit_lock_warning)
  end.
Proof.
  intros Hpol.
  destruct (otp_index reg) as [idx|] eqn:Hidx;
    [|unfold write_single_reg; rewrite Hidx; left; reflexivity].
  destruct (is_writable (access reg)) eqn:Hw;
    [|unfold write_single_reg; rewrite Hidx, Hw; left; reflexivity].
  rewrite !(write_single_reg_steps depth n reg idx _ s Hidx Hw).
  destruct (check_write_lock depth reg s) as [[[]|e] s1]; [|left; reflexivity].
  destruct (check_not_written depth reg s1) as [[[]|e] s2]; [|left; reflexivity].
  rewrite !(effective_lock_implicit reg _ s2 Hpol).
  rewrite Hpol. cbn [orb is_implicit].
  change (mkFuses (family s2) (revision s2) (_operator s2) (fuse_regs s2)
                  (fuse_context s2)
                  (log s2 ++ [mkLog WARNING
                    "The user's lock is ignored as the fuse will be implicitly locked after write"]))
    with (append_log s2 implicit_lock_warning).
  rewrite with_fuse_operator_append_log.
  change (fuse_regs (append_log s2 implicit_lock_warning)) with (fuse_regs s2).
  destruct (with_fuse_operator _ s2) as [[[]|e] s4]; cbn [fst snd].
  - reflexivity.
  - right. reflexivity.
Qed.

Lemma write_single_reg_implicit_locks (depth : nat) (n : string)
      (reg : FuseRegister) (lock : bool) (s s' : Fuses Dev) :
  individual_write_lock reg = IMPLICIT ->
  write_single_reg depth n reg lock s = (Ok tt, s') ->
  Reg.has_lock WRITE_LOCK (Reg.get_active_locks (fuse_regs s') reg) = true.
Proof.
  intros Hpol.
  destruct (otp_index reg) as [idx|] eqn:Hidx;
    [|unfold write_single_reg; rewrite Hidx; discriminate].
  destruct (is_writable (access reg)) eqn:Hw;
    [|unfold write_single_reg; rewrite Hidx, Hw; discriminate].
  rewrite (write_single_reg_steps depth n reg idx _ s Hidx Hw).
  destruct (check_write_lock depth reg s) as [[[]|e] s1]; [|discriminate].
  destruct (check_not_written depth reg s1) as [[[]|e] s2]; [|discriminate].
  rewrite (effective_lock_implicit reg _ s2 Hpol).
  rewrite Hpol. cbn [orb is_implicit].
  destruct (with_fuse_operator _ _) as [[[]|e] s4]; [|discriminate].
  unfold modify_fuse_regs. intros E. injection E as <-. cbn [fuse_regs].
  apply lock_is_active.
Qed.
End WriteSingle.

(** C1. For a register of policy [ALWAYS]: when a [write_single] call gets
    as far as reading the register back and the value read differs from the
    reset value, the call fails with [SPSDKFuseOperationFailure], whatever
    lock flag the caller passed. *)
Theorem write_single_always_rejects_written
        {Dev : Type} `{FuseOperator Dev}
        (depth : nat) (n : string) (reg : FuseRegister) (idx v : Z)
        (s s1 s2 : Fuses Dev) :
  Regs.find_reg (fuse_regs s) n true = Ok reg ->
  Reg.has_group_registers reg = false ->
  individual_write_lock reg = ALWAYS ->
  otp_index reg = Some idx ->
  is_writable (access reg) = true ->
  check_write_lock depth reg s = (Ok tt, s1) ->
  read_single depth (uid reg) true s1 = (Ok v, s2) ->
  v <> Reg.get_reset_value reg ->
  forall lock : bool,
    write_single depth n lock s
    = (Raise (SPSDKFuseOperationFailure
                ("Fuse " +:+ name reg +:+ " has non reset value "
                 +:+ PyFormat.str_int (Reg.get_reset_value reg)
                 +:+ " and is write-locked.")), s2).
Proof.
  intros Hfind Hleaf Hpol Hidx Hw Hlock Hread Hv lock.
  rewrite (write_single_leaf depth n lock reg s Hfind Hleaf).
  apply (write_single_reg_rejects_written depth n reg idx v s s1 s2 lock);
    try assumption.
  rewrite Hpol. discriminate.
Qed.

(** [FUSE_C] (policy [ALWAYS]) already holds 7 in the device: the write is
    refused with and without the lock flag. *)
Lemma write_single_always_rejects_written_witness :
fst (write_single 4 "FUSE_C" true (Demo.fuses Demo.regs (Demo.boot [(5, 7)] [])))
= Raise (SPSDKFuseOperationFailure
"Fuse FUSE_C has non reset value 0 and is write-locked.")
/\ fst (write_single 4 "FUSE_C" false (Demo.fuses Demo.regs (Demo.boot [(5, 7)] [])))
= Raise (SPSDKFuseOperationFailure
"Fuse FUSE_C has non reset value 0 and is write-locked.").
Proof.
split;
erewrite (write_single_always_rejects_written 4 "FUSE_C" Demo.FUSE_C 5 7);
[reflexivity | reflexivity | reflexivity | reflexivity | reflexivity
| reflexivity | reflexivity | vm_compute; reflexivity | discriminate
| reflexivity | reflexivity | reflexivity | reflexivity | reflexivity
| reflexivity | reflexivity | vm_compute; reflexivity | discriminate].
Defined.

(** C9. For a register of policy [IMPLICIT] the same pre-check is made as
    for [ALWAYS]: the register is read back, and when the value read differs
    from the reset value the call fails with [SPSDKFuseOperationFailure], on
    the first attempt of the caller as on any later one. *)
Theorem write_single_implicit_rejects_written
        {Dev : Type} `{FuseOperator Dev}
        (depth : nat) (n : string) (reg : FuseRegister) (idx v : Z)
        (s s1 s2 : Fuses Dev) :
  Regs.find_reg (fuse_regs s) n true = Ok reg ->
  Reg.has_group_registers reg = false ->
  individual_write_lock reg = IMPLICIT ->
  otp_index reg = Some idx ->
  is_writable (access reg) = true ->
  check_write_lock depth reg s = (Ok tt, s1) ->
  read_single depth (uid reg) true s1 = (Ok v, s2) ->
  v <> Reg.get_reset_value reg ->
  forall lock : bool,
    write_single depth n lock s
    = (Raise (SPSDKFuseOperationFailure
                ("Fuse " +:+ name reg +:+ " has non reset value "
                 +:+ PyFormat.str_int (Reg.get_reset_value reg)
                 +:+ " and is write-locked.")), s2).
Proof.
  intros Hfind Hleaf Hpol Hidx Hw Hlock Hread Hv lock.
  rewrite (write_single_leaf depth n lock reg s Hfind Hleaf).
  apply (write_single_reg_rejects_written depth n reg idx v s s1 s2 lock);
    try assumption.
  rewrite Hpol. discriminate.
Qed.

(** [FUSE_B] (policy [IMPLICIT]) holds 1 in a device never written by this
    session: the first write of the caller is refused. *)
Lemma write_single_implicit_rejects_written_witness :
fst (write_single 4 "FUSE_B" true (Demo.fuses Demo.regs (Demo.boot [(4, 1)] [])))
= Raise (SPSDKFuseOperationFailure
"Fuse FUSE_B has non reset value 0 and is write-locked.")
/\ fst (write_single 4 "FUSE_B" false (Demo.fuses Demo.regs (Demo.boot [(4, 1)] [])))
= Raise (SPSDKFuseOperationFailure
"Fuse FUSE_B has non reset value 0 and is write-locked.").
Proof.
split;
erewrite (write_single_implicit_rejects_written 4 "FUSE_B" Demo.FUSE_B 4 1);
[reflexivity | reflexivity | reflexivity | reflexivity | reflexivity
| reflexivity | reflexivity | vm_compute; reflexivity | discriminate
| reflexivity | reflexivity | reflexivity | reflexivity | reflexivity
| reflexivity | reflexivity | vm_compute; reflexivity | discriminate].
Defined.

(** C2. For a register of policy [IMPLICIT]: after a successful
    [write_single] the active locks of the register include [WRITE_LOCK],
    also when the caller passed [lock=false]; a call with [lock=true] ends
    as the call with [lock=false] does (it succeeds when that one succeeds
    and raises only what that one raises), the one difference being the
    warning in the log; and the flag handed to the operator is false: once
    the two checks have passed, the one call made to the operator is
    [write_fuse] with the index and the value of the register and the flag
    false, whatever the caller passed, and its outcome is the outcome of
    the write. *)
Theorem write_single_implicit_locks_and_ignores_lock
        {Dev : Type} `{FuseOperator Dev}
        (depth : nat) (n : string) (reg : FuseRegister) (s : Fuses Dev) :
  Regs.find_reg (fuse_regs s) n true = Ok reg ->
  Reg.has_group_registers reg = false ->
  individual_write_lock reg = IMPLICIT ->
  (forall (lock : bool) (s' : Fuses Dev),
      write_single depth n lock s = (Ok tt, s') ->
      Reg.has_lock WRITE_LOCK (Reg.get_active_locks (fuse_regs s') reg) = true)
  /\ (forall s' : Fuses Dev,
         write_single depth n false s = (Ok tt, s') ->
         write_single depth n true s = (Ok tt, append_log s' implicit_lock_warning))
  /\ (forall (e : Exn) (s' : Fuses Dev),
         write_single depth n false s = (Raise e, s') ->
         write_single depth n true s = (Raise e, s')
         \/ write_single depth n true s = (Raise e, append_log s' implicit_lock_warning))
  /\ (forall (lock : bool) (s0 : Fuses Dev),
         fst (effective_lock reg lock s0) = Ok false)
  /\ (forall (lock : bool) (idx : Z) (s1 s2 : Fuses Dev),
         otp_index reg = Some idx ->
         is_writable (access reg) = true ->
         check_write_lock depth reg s = (Ok tt, s1) ->
         check_not_written depth reg s1 = (Ok tt, s2) ->
         write_single depth n lock s
         = match with_fuse_operator
                   (write_fuse idx (Reg.get_value (fuse_regs s2) reg) false)
                   (if lock then append_log s2 implicit_lock_warning else s2) with
           | (Ok _, s4) => modify_fuse_regs (Reg.lock reg WRITE_LOCK) s4
           | (Raise e, s4) => (Raise e, s4)
           end).
Proof.
  intros Hfind Hleaf Hpol.
  split; [|split; [|split; [|split]]].
  5: { intros lock idx s1 s2 Hidx Hw Hc1 Hc2.
       rewrite (write_single_leaf depth n lock reg s Hfind Hleaf).
       rewrite (write_single_reg_steps depth n reg idx lock s Hidx Hw), Hc1, Hc2.
       rewrite (effective_lock_implicit reg lock s2 Hpol), Hpol.
       cbn [orb is_implicit].
       destruct lock; [|destruct (with_fuse_operator _ s2) as [[[]|e] s4]; reflexivity].
       change (mkFuses (family s2) (revision s2) (_operator s2) (fuse_regs s2)
                       (fuse_context s2)
                       (log s2 ++ [mkLog WARNING
                         "The user's lock is ignored as the fuse will be implicitly locked after write"]))
         with (append_log s2 implicit_lock_warning).
       change (fuse_regs (append_log s2 implicit_lock_warning)) with (fuse_regs s2).
       destruct (with_fuse_operator _ (append_log s2 implicit_lock_warning))
         as [[[]|e] s4]; reflexivity. }
  - intros lock s'. rewrite (write_single_leaf depth n lock reg s Hfind Hleaf).
    now apply write_single_reg_implicit_locks.
  - intros s'. rewrite !(write_single_leaf depth n _ reg s Hfind Hleaf).
    intros E. pose proof (write_single_reg_implicit_true_false depth n reg s Hpol) as Hx.
    rewrite E in Hx. exact Hx.
  - intros e s'. rewrite !(write_single_leaf depth n _ reg s Hfind Hleaf).
    intros E. pose proof (write_single_reg_implicit_true_false depth n reg s Hpol) as Hx.
    rewrite E in Hx. exact Hx.
  - intros lock s0. now rewrite (effective_lock_implicit reg lock s0 Hpol).
Qed.

(** [FUSE_B] (policy [IMPLICIT]) at its reset value: the write without the
    lock flag leaves it write-locked, the write with the lock flag succeeds
    as well, and the device receives the request without the lock bit. *)
Lemma write_single_implicit_locks_and_ignores_lock_witness :
  Reg.has_lock WRITE_LOCK
    (Reg.get_active_locks
       (fuse_regs (snd (write_single 4 "FUSE_B" false Demo.blank))) Demo.FUSE_B)
  = true
  /\ fst (write_single 4 "FUSE_B" true Demo.blank) = Ok tt
  /\ Demo.requests (snd (write_single 4 "FUSE_B" true Demo.blank)) = [(4, 0)].
Proof.
  pose (s := Demo.blank). change Demo.blank with s.
  destruct (write_single_implicit_locks_and_ignores_lock 4 "FUSE_B" Demo.FUSE_B s
              eq_refl eq_refl eq_refl) as (Ha & Hb & _).
  split; [|split].
  - apply (Ha false). vm_compute. reflexivity.
  - rewrite (Hb (snd (write_single 4 "FUSE_B" false s))); [reflexivity|].
    vm_compute. reflexivity.
  - rewrite (Hb (snd (write_single 4 "FUSE_B" false s))); [|vm_compute; reflexivity].
    vm_compute. reflexivity.
Defined.

(** ** The structure of the collection is immutable *)

Section Structure.

Lemma registers_set_leaf_value (r : FuseRegister) (v : Z) (fr : FuseRegisters) :
  registers (Reg.set_leaf_value r v fr) = registers fr.
Proof. reflexivity. Qed.

Lemma registers_set_members (ms : list FuseRegister) :
  forall (v : Z) (fr : FuseRegisters),
    registers (Reg.set_members ms v fr) = registers fr.
Proof.
  induction ms as [|m ms IH]; intros v fr; cbn [Reg.set_members]; [reflexivity|].
  now rewrite IH.
Qed.

Lemma registers_set_value (r : FuseRegister) (v : Z) (fr : FuseRegisters) :
  registers (Reg.set_value r v fr) = registers fr.
Proof.
  unfold Reg.set_value. destruct (Reg.has_group_registers r).
  - apply registers_set_members.
  - reflexivity.
Qed.

Lemma registers_lock (r : FuseRegister) (l : FuseLock) (fr : FuseRegisters) :
  registers (Reg.lock r l fr) = registers fr.
Proof. reflexivity. Qed.

Lemma registers_update_locks (fr : FuseRegisters) :
  registers (Regs.update_locks fr) = registers fr.
Proof.
  unfold Regs.update_locks.
  generalize (Regs.all_registers fr). intros l.
  assert (Hg : forall acc, registers (fold_left
    (fun acc r =>
       match fuse_lock_register r, Regs.get_lock_fuse fr r with
       | Some flr, Some lf =>
           mkFuseRegisters (registers acc) (reg_values acc)
             (<[uid r := Regs.locks_from flr (Reg.get_value fr lf)]> (reg_locks acc))
       | _, _ => acc
       end) l acc) = registers acc).
  { induction l as [|r l IH]; intros acc; cbn [fold_left]; [reflexivity|].
    rewrite IH. destruct (fuse_lock_register r), (Regs.get_lock_fuse fr r); reflexivity. }
  apply Hg.
Qed.

(** Name resolution looks at the structure only. *)
Lemma find_reg_structure (fr fr' : FuseRegisters) (n : string) (g : bool) :
  registers fr = registers fr' ->
  Regs.find_reg fr n g = Regs.find_reg fr' n g.
Proof. intros E. unfold Regs.find_reg. now rewrite E. Qed.

Lemma get_lock_fuse_structure (fr fr' : FuseRegisters) (r : FuseRegister) :
  registers fr = registers fr' ->
  Regs.get_lock_fuse fr r = Regs.get_lock_fuse fr' r.
Proof. intros E. unfold Regs.get_lock_fuse. now rewrite E. Qed.

End Structure.

(** ** Reading fuses *)

Section Reading.

Context {Dev : Type} `{FuseOperator Dev}.

Lemma quiet_ret {A : Type} (a : A) : quiet (@ret Dev A a).
Proof. intros s. reflexivity. Qed.

Lemma quiet_raise {A : Type} (e : Exn) : quiet (@raise Dev A e).
Proof. intros s. reflexivity. Qed.

Lemma quiet_bind {A B : Type} (c : M Dev A) (k : A -> M Dev B) :
  quiet c -> (forall a, quiet (k a)) -> quiet (bind c k).
Proof.
  intros Hc Hk s. unfold bind. specialize (Hc s).
  destruct (c s) as [[a|e] s1]; cbn [snd] in *.
  - now rewrite Hk.
  - exact Hc.
Qed.

Lemma quiet_logger_debug (msg : string) : quiet (@logger Dev DEBUG msg).
Proof.
  intros s. unfold logger, warnings. cbn [snd log].
  rewrite List.filter_app. cbn. now rewrite app_nil_r.
Qed.

Lemma quiet_get_fuse_regs : quiet (@get_fuse_regs Dev).
Proof. intros s. reflexivity. Qed.

Lemma quiet_modify_fuse_regs (f : FuseRegisters -> FuseRegisters) :
  quiet (@modify_fuse_regs Dev f).
Proof. intros s. reflexivity. Qed.

Lemma quiet_set_fuse_context (ctx : list FuseRegister) :
  quiet (@set_fuse_context Dev ctx).
Proof. intros s. reflexivity. Qed.

Lemma quiet_find_reg (n : string) (g : bool) : quiet (@find_reg Dev n g).
Proof. intros s. reflexivity. Qed.

Lemma quiet_with_fuse_operator {A : Type} (op : Dev -> Result A * Dev) :
  quiet (with_fuse_operator op).
Proof.
  intros s. unfold with_fuse_operator.
  destruct (_operator s) as [d|]; [|reflexivity].
  destruct (op d). reflexivity.
Qed.

Lemma quiet_for_each {A : Type} (xs : list A) (body : A -> M Dev unit) :
  (forall x, quiet (body x)) -> quiet (for_each xs body).
Proof.
  intros Hb. induction xs as [|x xs IH]; cbn [for_each].
  - apply quiet_ret.
  - apply quiet_bind; [apply Hb | intros _; exact IH].
Qed.

(** [read_single] logs at debug level only. *)
Lemma quiet_read_single (depth : nat) :
  forall (n : string) (check_locks : bool), quiet (read_single depth n check_locks).
Proof.
  induction depth as [|depth IH]; intros n check_locks; cbn [read_single].
  - apply quiet_raise.
  - unfold read_single_body. apply quiet_bind; [apply quiet_find_reg|]. intros reg.
    destruct (negb (is_readable (access reg))); [apply quiet_raise|].
    apply quiet_bind; [apply quiet_get_fuse_regs|]. intros fr.
    apply quiet_bind.
    + destruct (Regs.get_lock_fuse fr reg) as [lf|]; [|apply quiet_ret].
      destruct check_locks; [|apply quiet_ret].
      apply quiet_bind; [apply quiet_logger_debug|]. intros _.
      apply quiet_bind; [apply IH|]. intros _.
      apply quiet_bind; [apply quiet_get_fuse_regs|]. intros fr'.
      destruct (Reg.has_lock _ _); [apply quiet_raise | apply quiet_ret].
    + intros _. destruct (Reg.has_group_registers reg).
      * apply quiet_bind.
        { apply quiet_for_each. intros x.
          apply quiet_bind; [apply IH | intros _; apply quiet_ret]. }
        intros _. apply quiet_bind; [apply quiet_set_fuse_context|]. intros _.
        apply quiet_bind; [apply quiet_get_fuse_regs|]. intros fr'. apply quiet_ret.
      * destruct (otp_index reg) as [idx|]; [|apply quiet_raise].
        apply quiet_bind; [apply quiet_with_fuse_operator|]. intros v.
        apply quiet_bind; [apply quiet_modify_fuse_regs|]. intros _.
        apply quiet_bind; [apply quiet_modify_fuse_regs|]. intros _.
        apply quiet_bind; [apply quiet_set_fuse_context|]. intros _.
        apply quiet_ret.
Qed.

(** A successful [read_single] leaves the register it was asked for as
    the only element of the last-touched list. *)
Lemma read_single_context (depth : nat) (n : string) (check_locks : bool)
      (s s' : Fuses Dev) (v : Z) :
  read_single depth n check_locks s = (Ok v, s') ->
  exists reg, Regs.find_reg (fuse_regs s) n true = Ok reg /\ fuse_context s' = [reg].
Proof.
  destruct depth as [|depth]; cbn [read_single]; [discriminate|].
  unfold read_single_body. unfold bind at 1. unfold find_reg at 1.
  destruct (Regs.find_reg (fuse_regs s) n true) as [reg|e]; [|discriminate].
  destruct (negb (is_readable (access reg))); [discriminate|].
  unfold bind at 1. unfold get_fuse_regs at 1.
  unfold bind at 1.
  match goal with |- context [match ?c s with _ => _ end] =>
    destruct (c s) as [[[]|e] s1] end; [|discriminate].
  destruct (Reg.has_group_registers reg).
  - unfold bind at 1.
    destruct (for_each _ _ s1) as [[[]|e] s2]; [|discriminate].
    unfold bind, set_fuse_context, get_fuse_regs, ret.
    intros E. injection E as _ <-. exists reg. split; reflexivity.
  - destruct (otp_index reg) as [idx|]; [|discriminate].
    unfold bind at 1.
    destruct (with_fuse_operator _ s1) as [[x|e] s2]; [|discriminate].
    unfold bind, modify_fuse_regs, set_fuse_context, ret.
    intros E. injection E as _ <-. exists reg. split; reflexivity.
Qed.


Lemma warnings_app (l1 l2 : list LogRecord) :
  warnings (l1 ++ l2) = (warnings l1 ++ warnings l2)%list.
Proof. unfold warnings. apply List.filter_app. Qed.

(** The loop of [read_all] against its trace: when every call of the
    trace succeeded or raised [SPSDKFuseOperationFailure], the loop
    returns the registers read, in order, and has logged one warning per
    failed register. *)
Lemma read_all_loop_trace (depth : nat) (regs : list FuseRegister) :
  forall (ctx : list FuseRegister) (s : Fuses Dev),
    let trace := read_all_trace depth regs s in
    (length (List.filter read_succeeded trace) + length (List.filter read_failed trace)
     = length regs)%nat ->
    map fst trace = regs
    /\ exists s',
        read_all_loop depth regs ctx s
        = (Ok (ctx ++ map fst (List.filter read_succeeded trace))%list, s')
        /\ warnings (log s')
           = (warnings (log s) ++ map read_warning (List.filter read_failed trace))%list.
Proof.
  induction regs as [|reg rest IH]; intros ctx s; cbn [read_all_trace read_all_loop].
  - intros _. split; [reflexivity|]. exists s. cbn. now rewrite !app_nil_r.
  - pose proof (quiet_read_single depth (uid reg) true s) as Hq.
    destruct (read_single depth (uid reg) true s) as [[v|e] s1]; cbn [snd] in Hq.
    + cbn [List.filter read_succeeded read_failed snd length map fst].
      intros Hlen. injection Hlen as Hlen.
      destruct (IH (ctx ++ [reg])%list s1 Hlen) as (Hmap & s' & Hrun & Hlog).
      split; [now rewrite Hmap|].
      exists s'. split.
      * rewrite Hrun. now rewrite <- app_assoc.
      * now rewrite Hlog, Hq.
    + destruct (is_operation_failure e) eqn:He.
      * cbn [List.filter].
        change (read_succeeded (reg, Raise e)) with false.
        replace (read_failed (reg, Raise e)) with true
          by (unfold read_failed; cbn [snd]; now rewrite He).
        cbn [length map fst].
        rewrite Nat.add_succ_r. intros Hlen. injection Hlen as Hlen.
        destruct (IH ctx _ Hlen) as (Hmap & s' & Hrun & Hlog).
        split; [cbn [map fst]; now rewrite Hmap|].
        exists s'. split.
        -- unfold bind, logger. exact Hrun.
        -- rewrite Hlog. unfold append_log. cbn [log].
           rewrite warnings_app, Hq. cbn. now rewrite <- app_assoc.
      * cbn [List.filter].
        change (read_succeeded (reg, Raise e)) with false.
        replace (read_failed (reg, Raise e)) with false
          by (unfold read_failed; cbn [snd]; now rewrite He).
        cbn. discriminate.
Qed.

(** A list where exactly one element fails a test and all others pass
    the complementary one splits around that element. *)
Lemma split_single_failure {A : Type} (ok bad : A -> bool) (l : list A) :
  (forall x, ok x = true -> bad x = false) ->
  length (List.filter bad l) = 1%nat ->
  length (List.filter ok l) = (length l - 1)%nat ->
  exists pre x post,
    l = (pre ++ x :: post)%list /\ bad x = true
    /\ List.filter ok l = (pre ++ post)%list /\ List.filter bad l = [x].
Proof.
  intros Hex. induction l as [|a l IH]; cbn [List.filter length]; [discriminate|].
  destruct (bad a) eqn:Hb, (ok a) eqn:Ho; cbn [length].
  - rewrite (Hex a Ho) in Hb. discriminate.
  - intros Hbad Hok. injection Hbad as Hbad. simpl in Hok. rewrite ?Nat.sub_0_r in Hok.
    exists [], a, l. repeat split; try assumption.
    + cbn. clear IH Hbad. revert Hok.
      assert (Hle : forall l', (length (List.filter ok l') <= length l')%nat)
        by (intros l'; apply List.filter_length_le).
      induction l as [|b l IHl]; cbn [List.filter length]; [reflexivity|].
      destruct (ok b); cbn [length].
      * intros E. injection E as E. now rewrite IHl.
      * intros E. specialize (Hle l). lia.
    + destruct (List.filter bad l); [reflexivity|discriminate].
  - intros Hbad Hok.
    assert (Hl : (1 <= length l)%nat).
    { pose proof (List.filter_length_le bad l). lia. }
    destruct IH as (pre & x & post & -> & Hx & Hfo & Hfb); [assumption|lia|].
    exists (a :: pre), x, post. repeat split; try assumption.
    cbn. now rewrite Hfo.
  - intros Hbad Hok. exfalso.
    assert (Hall : (length (List.filter ok l) + length (List.filter bad l)
                    <= length l)%nat).
    { clear -Hex. induction l as [|c l IHl]; cbn [List.filter length]; [lia|].
      destruct (ok c) eqn:E.
      - rewrite (Hex c E). cbn [length]. lia.
      - destruct (bad c); cbn [length]; lia. }
    simpl in Hok. lia.
Qed.

End Reading.

(** ** A fuse that is its own lock fuse *)

Section SelfLock.

Context {Dev : Type} `{FuseOperator Dev}.

Lemma same_refl (r : FuseRegister) : Reg.same r r = true.
Proof. unfold Reg.same. apply String.eqb_refl. Qed.

(** Reading a register without members and without a lock check makes no
    nested call: one level of depth is enough. *)
Lemma read_single_unchecked_leaf (depth : nat) (m : string) (x : FuseRegister)
      (s : Fuses Dev) :
  Regs.find_reg (fuse_regs s) m true = Ok x ->
  Reg.has_group_registers x = false ->
  read_single (S depth) m false s
  = if negb (is_readable (access x)) then
      (Raise (SPSDKFuseOperationFailure
                ("Unable to read fuse " +:+ m +:+ ". Fuse access: "
                 +:+ access_description (access x))), s)
    else
      match otp_index x with
      | None => (Raise (SPSDKFuseConfigurationError "OTP index is not defined"), s)
      | Some idx =>
          match with_fuse_operator (read_fuse idx) s with
          | (Raise e, s1) => (Raise e, s1)
          | (Ok value, s1) =>
              (Ok value,
               mkFuses (family s1) (revision s1) (_operator s1)
                       (Regs.update_locks (Reg.set_value x value (fuse_regs s1)))
                       [x] (log s1))
          end
      end.
Proof.
  intros Hfind Hleaf. cbn [read_single]. unfold read_single_body.
  unfold bind at 1. unfold find_reg at 1. rewrite Hfind.
  destruct (negb (is_readable (access x))); [reflexivity|].
  unfold bind at 1. unfold get_fuse_regs at 1.
  unfold bind at 1.
  assert (Hskip : (match Regs.get_lock_fuse (fuse_regs s) x with
                   | Some _ => ret tt
                   | None => ret tt
                   end) s = (Ok tt, s)).
  { destruct (Regs.get_lock_fuse (fuse_regs s) x); reflexivity. }
  rewrite Hskip. rewrite Hleaf.
  destruct (otp_index x) as [idx|]; [|reflexivity].
  unfold bind at 1.
  destruct (with_fuse_operator (read_fuse idx) s) as [[value|e] s1]; reflexivity.
Qed.


(** The steps of the body of [read_single] on a register without members
    that is its own lock fuse: the one recursive call is the unchecked
    read of the register itself. *)
Lemma read_single_body_self_lock (rec : string -> bool -> M Dev Z)
      (n : string) (x : FuseRegister) (s : Fuses Dev) :
  Regs.find_reg (fuse_regs s) n true = Ok x ->
  Regs.get_lock_fuse (fuse_regs s) x = Some x ->
  Reg.has_group_registers x = false ->
  read_single_body rec n true s
  = if negb (is_readable (access x)) then
      (Raise (SPSDKFuseOperationFailure
                ("Unable to read fuse " +:+ n +:+ ". Fuse access: "
                 +:+ access_description (access x))), s)
    else
      match rec (uid x) false (append_log s lock_read_debug) with
      | (Raise e, s1) => (Raise e, s1)
      | (Ok _, s1) =>
          if Reg.has_lock READ_LOCK (Reg.get_active_locks (fuse_regs s1) x) then
            (Raise (SPSDKFuseOperationFailure
                      ("Fuse " +:+ name x +:+ " read operation is locked by lock fuse "
                       +:+ name x +:+ ".")), s1)
          else
            match otp_index x with
            | None => (Raise (SPSDKFuseConfigurationError "OTP index is not defined"), s1)
            | Some idx =>
                match with_fuse_operator (read_fuse idx) s1 with
                | (Raise e, s2) => (Raise e, s2)
                | (Ok value, s2) =>
                    (Ok value,
                     mkFuses (family s2) (revision s2) (_operator s2)
                             (Regs.update_locks (Reg.set_value x value (fuse_regs s2)))
                             [x] (log s2))
                end
            end
      end.
Proof.
  intros Hfind Hlf Hleaf. unfold read_single_body.
  unfold bind, find_reg, get_fuse_regs, logger. rewrite Hfind.
  destruct (negb (is_readable (access x))); [reflexivity|].
  rewrite Hlf, Hleaf, same_refl. cbn [negb].
  change (mkFuses (family s) (revision s) (_operator s) (fuse_regs s) (fuse_context s)
                  (log s ++ [mkLog DEBUG "Reading the value of lock register first."]))
    with (append_log s lock_read_debug).
  destruct (rec (uid x) false (append_log s lock_read_debug)) as [[v1|e] s1];
    [|reflexivity].
  destruct (Reg.has_lock READ_LOCK (Reg.get_active_locks (fuse_regs s1) x));
    [reflexivity|].
  unfold ret. cbv beta iota zeta.
  destruct (otp_index x) as [idx|]; [|reflexivity].
  destruct (with_fuse_operator (read_fuse idx) s1) as [[value|e] s2]; reflexivity.
Qed.

(** Depth two is all the recursion such a read needs. *)
Lemma read_single_self_lock_depth (depth : nat) (n : string) (x : FuseRegister)
      (s : Fuses Dev) :
  Regs.find_reg (fuse_regs s) n true = Ok x ->
  Regs.find_reg (fuse_regs s) (uid x) true = Ok x ->
  Regs.get_lock_fuse (fuse_regs s) x = Some x ->
  Reg.has_group_registers x = false ->
  (2 <= depth)%nat ->
  read_single depth n true s = read_single 2 n true s.
Proof.
  intros Hfind Huid Hlf Hleaf Hd.
  destruct depth as [|[|d]]; [lia|lia|].
  change (read_single (S (S d))) with (read_single_body (read_single (S d))).
  change (read_single 2) with (read_single_body (read_single 1)).
  rewrite !(read_single_body_self_lock _ n x s Hfind Hlf Hleaf).
  rewrite !(read_single_unchecked_leaf _ (uid x) x (append_log s lock_read_debug) Huid Hleaf).
  reflexivity.
Qed.

End SelfLock.

(** ** The last-touched list *)

Section LastTouched.

Context {Dev : Type} `{FuseOperator Dev}.

(** What the loop of [read_all] returns when it returns: the registers
    whose read succeeded. *)
Lemma read_all_loop_ok (depth : nat) (regs : list FuseRegister) :
  forall (ctx l : list FuseRegister) (s s' : Fuses Dev),
    read_all_loop depth regs ctx s = (Ok l, s') ->
    l = (ctx ++ map fst (List.filter read_succeeded (read_all_trace depth regs s)))%list.
Proof.
  induction regs as [|reg rest IH]; intros ctx l s s';
    cbn [read_all_loop read_all_trace].
  - unfold ret. intros E. injection E as <- _. cbn. now rewrite app_nil_r.
  - destruct (read_single depth (uid reg) true s) as [[v|e] s1].
    + intros E. apply IH in E. rewrite E.
      cbn [List.filter]. change (read_succeeded (reg, Ok v)) with true.
      cbn [map fst]. now rewrite <- app_assoc.
    + cbn [List.filter]. change (read_succeeded (reg, Raise e)) with false.
      destruct (is_operation_failure e); [|discriminate].
      unfold bind, logger. intros E. apply IH in E. exact E.
Qed.

Lemma read_all_context (depth : nat) (s s' : Fuses Dev) :
  read_all depth s = (Ok tt, s') ->
  fuse_context s'
  = map fst (List.filter read_succeeded
                         (read_all_trace depth (registers (fuse_regs s)) s)).
Proof.
  unfold read_all. unfold bind at 1. unfold get_fuse_regs at 1.
  unfold bind.
  destruct (read_all_loop depth (registers (fuse_regs s)) [] s) as [[l|e] s1] eqn:E;
    [|discriminate].
  apply read_all_loop_ok in E. cbn [app] in E. subst l.
  unfold set_fuse_context. intros E. injection E as <-. reflexivity.
Qed.

Lemma load_config_context (check_config : Config -> Result unit) (config : Config)
      (s s' : Fuses Dev) :
  load_config check_config config s = (Ok tt, s') ->
  resolve_all (fuse_regs s') (map fst (cfg_registers config)) = Ok (fuse_context s').
Proof.
  unfold load_config.
  destruct (check_config config); [|discriminate].
  destruct (RegsConfig.load_yml_config _ _) as [[[]|e] fr]; [|discriminate].
  destruct (resolve_all fr _) as [ctx|e] eqn:E; [|discriminate].
  unfold set_fuse_context. cbn [family revision _operator fuse_regs log].
  intros E'. injection E' as <-. cbn [fuse_regs fuse_context]. exact E.
Qed.

(** [effective_lock] only logs. *)
Lemma effective_lock_frame (reg : FuseRegister) (lock : bool) (s : Fuses Dev) :
  exists (l : bool) (s3 : Fuses Dev),
    effective_lock reg lock s = (Ok l, s3)
    /\ fuse_context s3 = fuse_context s
    /\ _operator s3 = _operator s
    /\ fuse_regs s3 = fuse_regs s.
Proof.
  unfold effective_lock.
  destruct lock, (individual_write_lock reg); cbn;
    eexists; eexists; (split; [reflexivity|]); repeat split.
Qed.

(** Past its two checks [write_single_reg] leaves the last-touched list
    alone, whatever the outcome of the write. *)
Lemma write_single_reg_context_after_checks (depth : nat) (n : string)
      (reg : FuseRegister) (idx : Z) (lock : bool) (s s1 s2 : Fuses Dev) :
  otp_index reg = Some idx ->
  is_writable (access reg) = true ->
  check_write_lock depth reg s = (Ok tt, s1) ->
  check_not_written depth reg s1 = (Ok tt, s2) ->
  fuse_context (snd (write_single_reg depth n reg lock s)) = fuse_context s2.
Proof.
  intros Hidx Hw Hc1 Hc2.
  rewrite (write_single_reg_steps depth n reg idx lock s Hidx Hw), Hc1, Hc2.
  destruct (effective_lock_frame reg lock s2) as (l & s3 & -> & Hctx & _ & _).
  unfold with_fuse_operator.
  destruct (_operator s3) as [d|]; [|exact Hctx].
  destruct (write_fuse idx _ l d) as [[[]|e] d']; [|exact Hctx].
  destruct (l || _); exact Hctx.
Qed.

(** [write_single_reg] never assigns the last-touched list itself: with
    the policy [NEVER] and no lock fuse it makes no read, and the list is
    left as it was, whatever the outcome. *)
Lemma write_single_reg_never_context (depth : nat) (n : string) (reg : FuseRegister)
      (lock : bool) (s : Fuses Dev) :
  individual_write_lock reg = NEVER ->
  Regs.get_lock_fuse (fuse_regs s) reg = None ->
  fuse_context (snd (write_single_reg depth n reg lock s)) = fuse_context s.
Proof.
  intros Hpol Hlf.
  destruct (otp_index reg) as [idx|] eqn:Hidx;
    [|unfold write_single_reg; rewrite Hidx; reflexivity].
  destruct (is_writable (access reg)) eqn:Hw;
    [|unfold write_single_reg; rewrite Hidx, Hw; reflexivity].
  apply (write_single_reg_context_after_checks depth n reg idx lock s s s Hidx Hw).
  - unfold check_write_lock, bind, get_fuse_regs. now rewrite Hlf.
  - unfold check_not_written. now rewrite Hpol.
Qed.

Lemma keeps_structure_bind {A B : Type} (c : M Dev A) (k : A -> M Dev B) :
  keeps_structure c -> (forall a, keeps_structure (k a)) -> keeps_structure (bind c k).
Proof.
  intros Hc Hk s. unfold bind. specialize (Hc s).
  destruct (c s) as [[a|e] s1]; cbn [snd] in *.
  - now rewrite Hk.
  - exact Hc.
Qed.

Lemma keeps_structure_same {A : Type} (c : M Dev A) :
  (forall s, fuse_regs (snd (c s)) = fuse_regs s) -> keeps_structure c.
Proof. intros Hc s. now rewrite Hc. Qed.

Lemma keeps_structure_with_fuse_operator {A : Type} (op : Dev -> Result A * Dev) :
  keeps_structure (with_fuse_operator op).
Proof.
  apply keeps_structure_same. intros s. unfold with_fuse_operator.
  destruct (_operator s) as [d|]; [|reflexivity].
  destruct (op d). reflexivity.
Qed.

Lemma keeps_structure_for_each {A : Type} (xs : list A) (body : A -> M Dev unit) :
  (forall x, keeps_structure (body x)) -> keeps_structure (for_each xs body).
Proof.
  intros Hb. induction xs as [|x xs IH]; cbn [for_each].
  - now apply keeps_structure_same.
  - apply keeps_structure_bind; [apply Hb | intros _; exact IH].
Qed.

(** [read_single] changes values and locks, never the structure. *)
Lemma keeps_structure_read_single (depth : nat) :
  forall (n : string) (check_locks : bool),
    keeps_structure (read_single depth n check_locks).
Proof.
  induction depth as [|depth IH]; intros n check_locks; cbn [read_single].
  - now apply keeps_structure_same.
  - unfold read_single_body.
    apply keeps_structure_bind; [now apply keeps_structure_same|]. intros reg.
    destruct (negb (is_readable (access reg))); [now apply keeps_structure_same|].
    apply keeps_structure_bind; [now apply keeps_structure_same|]. intros fr.
    apply keeps_structure_bind.
    + destruct (Regs.get_lock_fuse fr reg) as [lf|]; [|now apply keeps_structure_same].
      destruct check_locks; [|now apply keeps_structure_same].
      apply keeps_structure_bind; [now apply keeps_structure_same|]. intros _.
      apply keeps_structure_bind; [apply IH|]. intros _.
      apply keeps_structure_bind; [now apply keeps_structure_same|]. intros fr'.
      destruct (Reg.has_lock _ _); now apply keeps_structure_same.
    + intros _. destruct (Reg.has_group_registers reg).
      * apply keeps_structure_bind.
        { apply keeps_structure_for_each. intros x.
          apply keeps_structure_bind; [apply IH | intros _; now apply keeps_structure_same]. }
        intros _. apply keeps_structure_bind; [now apply keeps_structure_same|]. intros _.
        apply keeps_structure_bind; now intros; apply keeps_structure_same.
      * destruct (otp_index reg) as [idx|]; [|now apply keeps_structure_same].
        apply keeps_structure_bind; [apply keeps_structure_with_fuse_operator|]. intros v.
        apply keeps_structure_bind.
        { intros s. unfold modify_fuse_regs. cbn [snd fuse_regs].
          apply registers_set_value. }
        intros _. apply keeps_structure_bind.
        { intros s. unfold modify_fuse_regs. cbn [snd fuse_regs].
          apply registers_update_locks. }
        intros _. apply keeps_structure_bind; now intros; apply keeps_structure_same.
Qed.

Lemma keeps_structure_check_write_lock (depth : nat) (reg : FuseRegister) :
  keeps_structure (check_write_lock depth reg).
Proof.
  unfold check_write_lock.
  apply keeps_structure_bind; [now apply keeps_structure_same|]. intros fr.
  destruct (Regs.get_lock_fuse fr reg) as [lf|]; [|now apply keeps_structure_same].
  apply keeps_structure_bind; [now apply keeps_structure_same|]. intros _.
  apply keeps_structure_bind; [apply keeps_structure_read_single|]. intros _.
  apply keeps_structure_bind; [now apply keeps_structure_same|]. intros fr'.
  destruct (Reg.has_lock _ _); now apply keeps_structure_same.
Qed.

(** With the policy [ALWAYS] or [IMPLICIT], the list after a successful
    write is what the pre-check read left: the register the [uid] of the
    written register resolves to in the collection. *)
Lemma write_single_reg_checked_context (depth : nat) (n : string) (reg : FuseRegister)
      (lock : bool) (s s' : Fuses Dev) :
  individual_write_lock reg <> NEVER ->
  write_single_reg depth n reg lock s = (Ok tt, s') ->
  exists r : FuseRegister,
    Regs.find_reg (fuse_regs s) (uid reg) true = Ok r /\ fuse_context s' = [r].
Proof.
  intros Hpol Hrun.
  destruct (otp_index reg) as [idx|] eqn:Hidx;
    [|unfold write_single_reg in Hrun; rewrite Hidx in Hrun; discriminate].
  destruct (is_writable (access reg)) eqn:Hw;
    [|unfold write_single_reg in Hrun; rewrite Hidx, Hw in Hrun; discriminate].
  pose proof Hrun as Hsteps.
  rewrite (write_single_reg_steps depth n reg idx lock s Hidx Hw) in Hsteps.
  destruct (check_write_lock depth reg s) as [[[]|e] s1] eqn:Hc1; [|discriminate].
  destruct (check_not_written depth reg s1) as [[[]|e] s2] eqn:Hc2; [|discriminate].
  clear Hsteps.
  pose proof (write_single_reg_context_after_checks depth n reg idx lock s s1 s2
                Hidx Hw Hc1 Hc2) as Hctx.
  rewrite Hrun in Hctx. cbn [snd] in Hctx.
  pose proof (keeps_structure_check_write_lock depth reg s) as Hst.
  rewrite Hc1 in Hst. cbn [snd] in Hst.
  unfold check_not_written in Hc2.
  assert (Hread : (value <- read_single depth (uid reg) true ;;
                   if negb (Z.eqb value (Reg.get_reset_value reg)) then
                     raise (SPSDKFuseOperationFailure
                              ("Fuse " +:+ name reg +:+ " has non reset value "
                               +:+ PyFormat.str_int (Reg.get_reset_value reg)
                               +:+ " and is write-locked."))
                   else ret tt) s1 = (Ok tt, s2)).
  { destruct (individual_write_lock reg); [congruence|exact Hc2|exact Hc2]. }
  unfold bind in Hread.
  destruct (read_single depth (uid reg) true s1) as [[v|e] sx] eqn:E; [|discriminate].
  destruct (negb _); [discriminate|]. unfold ret in Hread. injection Hread as ->.
  destruct (read_single_context depth (uid reg) true s1 s2 v E) as (r & Hr & Hr').
  exists r. split; [|now rewrite Hctx].
  now rewrite <- (find_reg_structure (fuse_regs s1) (fuse_regs s) (uid reg) true Hst).
Qed.

(** With the policy [NEVER] and a lock fuse, the list after a successful
    write is what the read of the lock fuse left. *)
Lemma write_single_reg_lock_fuse_context (depth : nat) (n : string) (reg lock_reg : FuseRegister)
      (lock : bool) (s s' : Fuses Dev) :
  individual_write_lock reg = NEVER ->
  Regs.get_lock_fuse (fuse_regs s) reg = Some lock_reg ->
  write_single_reg depth n reg lock s = (Ok tt, s') ->
  exists r : FuseRegister,
    Regs.find_reg (fuse_regs s) (uid lock_reg) true = Ok r /\ fuse_context s' = [r].
Proof.
  intros Hpol Hlf Hrun.
  destruct (otp_index reg) as [idx|] eqn:Hidx;
    [|unfold write_single_reg in Hrun; rewrite Hidx in Hrun; discriminate].
  destruct (is_writable (access reg)) eqn:Hw;
    [|unfold write_single_reg in Hrun; rewrite Hidx, Hw in Hrun; discriminate].
  pose proof Hrun as Hsteps.
  rewrite (write_single_reg_steps depth n reg idx lock s Hidx Hw) in Hsteps.
  destruct (check_write_lock depth reg s) as [[[]|e] s1] eqn:Hc1; [|discriminate].
  assert (Hc2 : check_not_written depth reg s1 = (Ok tt, s1)).
  { unfold check_not_written. now rewrite Hpol. }
  clear Hsteps.
  pose proof (write_single_reg_context_after_checks depth n reg idx lock s s1 s1
                Hidx Hw Hc1 Hc2) as Hctx.
  rewrite Hrun in Hctx. cbn [snd] in Hctx. rewrite Hctx.
  unfold check_write_lock, bind, get_fuse_regs, logger in Hc1. rewrite Hlf in Hc1.
  match type of Hc1 with
  | context [read_single depth ?m ?c ?st] =>
      destruct (read_single depth m c st) as [[v|e] sx] eqn:E; [|discriminate]
  end.
  destruct (Reg.has_lock WRITE_LOCK (Reg.get_active_locks (fuse_regs sx) reg));
    [discriminate|].
  unfold ret in Hc1. injection Hc1 as <-.
  destruct (read_single_context depth _ _ _ sx v E) as (r & Hr & Hr').
  exists r. split; [exact Hr | exact Hr'].
Qed.

End LastTouched.

(** ** A write that succeeds *)

Section WriteSucceeds.

Context {Dev : Type} `{FuseOperator Dev}.

Lemma reg_values_update_locks (fr : FuseRegisters) :
  reg_values (Regs.update_locks fr) = reg_values fr.
Proof.
  unfold Regs.update_locks.
  generalize (Regs.all_registers fr). intros l.
  assert (Hg : forall acc, reg_values (fold_left
    (fun acc r =>
       match fuse_lock_register r, Regs.get_lock_fuse fr r with
       | Some flr, Some lf =>
           mkFuseRegisters (registers acc) (reg_values acc)
             (<[uid r := Regs.locks_from flr (Reg.get_value fr lf)]> (reg_locks acc))
       | _, _ => acc
       end) l acc) = reg_values acc).
  { induction l as [|r l IH]; intros acc; cbn [fold_left]; [reflexivity|].
    rewrite IH. destruct (fuse_lock_register r), (Regs.get_lock_fuse fr r); reflexivity. }
  apply Hg.
Qed.

(** Reading a register without members and without lock fuse makes no
    nested call either. *)
Lemma read_single_unlocked_leaf (depth : nat) (m : string) (check_locks : bool)
      (x : FuseRegister) (s : Fuses Dev) :
  Regs.find_reg (fuse_regs s) m true = Ok x ->
  Regs.get_lock_fuse (fuse_regs s) x = None ->
  Reg.has_group_registers x = false ->
  read_single (S depth) m check_locks s = read_single (S depth) m false s.
Proof.
  intros Hfind Hlf Hleaf. cbn [read_single]. unfold read_single_body.
  unfold bind, find_reg, get_fuse_regs. rewrite Hfind.
  destruct (negb (is_readable (access x))); [reflexivity|].
  rewrite Hlf. reflexivity.
Qed.

(** A register of policy [ALWAYS] or [IMPLICIT] without lock fuse, readable
    and writable, that the device still holds at its reset value, is
    written successfully at any depth limit of one or more.  The value
    that reaches the operator is the value just read back, the reset value:
    the read of the pre-check has replaced the value the register held in
    memory. *)
Lemma write_single_checked_succeeds (depth : nat) (n : string) (reg : FuseRegister)
      (idx : Z) (lock : bool) (s : Fuses Dev) (d d1 d2 : Dev) :
  Regs.find_reg (fuse_regs s) n true = Ok reg ->
  Regs.find_reg (fuse_regs s) (uid reg) true = Ok reg ->
  Reg.has_group_registers reg = false ->
  individual_write_lock reg <> NEVER ->
  Regs.get_lock_fuse (fuse_regs s) reg = None ->
  is_readable (access reg) = true ->
  is_writable (access reg) = true ->
  otp_index reg = Some idx ->
  _operator s = Some d ->
  read_fuse idx d = (Ok (Reg.get_reset_value reg), d1) ->
  write_fuse idx (Reg.get_reset_value reg)
             (if is_always (individual_write_lock reg) then true else false) d1
  = (Ok tt, d2) ->
  (1 <= depth)%nat ->
  exists s' : Fuses Dev,
    write_single depth n lock s = (Ok tt, s')
    /\ _operator s' = Some d2
    /\ Reg.has_lock WRITE_LOCK (Reg.get_active_locks (fuse_regs s') reg) = true.
Proof.
  intros Hfind Huid Hleaf Hpol Hlf Hr Hw Hidx Hop Hread Hwrite Hd.
  destruct depth as [|depth]; [lia|].
  rewrite (write_single_leaf _ n lock reg s Hfind Hleaf).
  rewrite (write_single_reg_steps _ n reg idx lock s Hidx Hw).
  assert (Hc1 : check_write_lock (S depth) reg s = (Ok tt, s)).
  { unfold check_write_lock, bind, get_fuse_regs. now rewrite Hlf. }
  rewrite Hc1.
  pose (s2 := mkFuses (family s) (revision s) (Some d1)
                      (Regs.update_locks
                         (Reg.set_value reg (Reg.get_reset_value reg) (fuse_regs s)))
                      [reg] (log s)).
  assert (Hrs : read_single (S depth) (uid reg) true s
                = (Ok (Reg.get_reset_value reg), s2)).
  { rewrite (read_single_unlocked_leaf depth (uid reg) true reg s Huid Hlf Hleaf).
    rewrite (read_single_unchecked_leaf depth (uid reg) reg s Huid Hleaf).
    rewrite Hr, Hidx. cbn [negb]. unfold with_fuse_operator. rewrite Hop, Hread.
    reflexivity. }
  assert (Hc2 : check_not_written (S depth) reg s = (Ok tt, s2)).
  { unfold check_not_written.
    destruct (individual_write_lock reg); [congruence| |];
      unfold bind; rewrite Hrs, Z.eqb_refl; reflexivity. }
  rewrite Hc2.
  assert (Hval : Reg.get_value (fuse_regs s2) reg = Reg.get_reset_value reg).
  { unfold Reg.get_value. rewrite Hleaf. unfold Reg.leaf_value. subst s2.
    cbn [fuse_regs]. rewrite reg_values_update_locks.
    unfold Reg.set_value. rewrite Hleaf. unfold Reg.set_leaf_value. cbn [reg_values].
    now rewrite lookup_insert_eq. }
  destruct (effective_lock_frame reg lock s2) as (l & s3 & Hel & Hctx & Hop3 & Hfr3).
  assert (Hl : l = if is_always (individual_write_lock reg) then true else false).
  { revert Hel. unfold effective_lock, bind, ret, logger.
    destruct lock, (individual_write_lock reg); try congruence; cbn;
      intros E; now injection E as <- _. }
  rewrite Hel. unfold with_fuse_operator. rewrite Hop3, Hfr3, Hval. subst s2.
  cbn [_operator]. rewrite Hl, Hwrite.
  assert (Hor : (if is_always (individual_write_lock reg) then true else false)
                || is_implicit (individual_write_lock reg) = true).
  { destruct (individual_write_lock reg); try reflexivity. congruence. }
  rewrite Hor. unfold modify_fuse_regs.
  eexists. split; [reflexivity|]. cbn [_operator fuse_regs]. split; [reflexivity|].
  apply lock_is_active.
Qed.

End WriteSucceeds.

(** C4. [read_all] does not raise on a [SPSDKFuseOperationFailure] of one
    register: over N registers where the read of exactly one fails with
    [SPSDKFuseOperationFailure] and the N-1 others succeed, [read_all]
    returns normally, logs one warning, which names the failed register,
    and leaves as last-touched list exactly the N-1 registers read, in the
    order of the collection. *)
Theorem read_all_skips_failed_register
        {Dev : Type} `{FuseOperator Dev} (depth : nat) (s : Fuses Dev) :
  let regs := registers (fuse_regs s) in
  let trace := read_all_trace depth regs s in
  length (List.filter read_failed trace) = 1%nat ->
  length (List.filter read_succeeded trace) = (length regs - 1)%nat ->
  exists (pre post : list FuseRegister) (bad : FuseRegister) (e : Exn) (s' : Fuses Dev),
    regs = (pre ++ bad :: post)%list
    /\ In (bad, Raise e) trace
    /\ is_operation_failure e = true
    /\ read_all depth s = (Ok tt, s')
    /\ fuse_context s' = (pre ++ post)%list
    /\ length (fuse_context s') = (length regs - 1)%nat
    /\ warnings (log s')
       = (warnings (log s)
          ++ [mkLog WARNING ("Unable to read the fuse " +:+ name bad +:+ ": "
                             +:+ exn_str e)])%list.
Proof.
  intros regs trace Hfail Hok.
  assert (Hne : (1 <= length regs)%nat).
  { subst trace. destruct regs; [cbn in Hfail; discriminate | cbn; lia]. }
  destruct (read_all_loop_trace depth regs [] s) as (Hmap & s1 & Hrun & Hlog).
  { fold trace. rewrite Hfail, Hok. lia. }
  fold trace in Hmap, Hrun, Hlog.
  assert (Hlen : length trace = length regs) by (rewrite <- Hmap; now rewrite length_map).
  destruct (split_single_failure read_succeeded read_failed trace)
    as (tpre & x & tpost & Htr & Hx & Hfo & Hfb).
  { intros [r [v|e']]; unfold read_succeeded, read_failed; cbn; congruence. }
  { exact Hfail. }
  { now rewrite Hlen. }
  destruct x as [bad [v|e]]; [unfold read_failed in Hx; cbn in Hx; discriminate|].
  exists (map fst tpre), (map fst tpost), bad, e.
  exists (mkFuses (family s1) (revision s1) (_operator s1) (fuse_regs s1)
                  (map fst (List.filter read_succeeded trace)) (log s1)).
  split; [|split; [|split; [|split; [|split; [|split]]]]].
  - rewrite <- Hmap, Htr. now rewrite map_app.
  - rewrite Htr. apply in_or_app. right. left. reflexivity.
  - exact Hx.
  - unfold read_all, bind, get_fuse_regs. fold regs. rewrite Hrun. reflexivity.
  - cbn [fuse_context]. rewrite Hfo. now rewrite map_app.
  - cbn [fuse_context]. rewrite length_map. exact Hok.
  - cbn [log]. rewrite Hlog, Hfb. reflexivity.
Qed.

(** The seven registers of the demonstration map on a device whose fuse 4
    ([FUSE_B]) cannot be read: the six others are the last-touched list. *)
Lemma read_all_skips_failed_register_witness :
  exists s',
    read_all 4 (Demo.fuses Demo.regs (Demo.boot [] [4])) = (Ok tt, s')
    /\ map name (fuse_context s')
       = ["FUSE_A"; "FUSE_C"; "LOCK0"; "FUSE_D"; "KEY"; "MODE"]
    /\ map log_msg (warnings (log s'))
       = ["Unable to read the fuse FUSE_B: SPSDK: Reading of fuse failed."].
Proof.
  destruct (read_all_skips_failed_register 4 (Demo.fuses Demo.regs (Demo.boot [] [4])))
    as (pre & post & bad & e & s' & _ & _ & _ & Hrun & _).
  - vm_compute. reflexivity.
  - vm_compute. reflexivity.
  - exists s'. split; [exact Hrun|].
    assert (Hs : s' = snd (read_all 4 (Demo.fuses Demo.regs (Demo.boot [] [4]))))
      by now rewrite Hrun.
    rewrite Hs. split; vm_compute; reflexivity.
Defined.

(** C5. For a register [x] that is designated as its own lock fuse,
    [read_single(x, check_locks=true)] terminates: the inner read of the
    lock fuse is made with the lock check disabled, so two levels of calls
    are all it takes at any depth limit; and it succeeds, returning the
    value read, when [x] is readable and the value read does not read-lock
    it. *)
Theorem read_single_self_lock_terminates
        {Dev : Type} `{FuseOperator Dev}
        (n : string) (x : FuseRegister) (s : Fuses Dev) :
  Regs.find_reg (fuse_regs s) n true = Ok x ->
  Regs.find_reg (fuse_regs s) (uid x) true = Ok x ->
  Regs.get_lock_fuse (fuse_regs s) x = Some x ->
  Reg.has_group_registers x = false ->
  (forall depth : nat,
      (2 <= depth)%nat -> read_single depth n true s = read_single 2 n true s)
  /\ (forall (idx v1 v2 : Z) (d d1 d2 : Dev),
         is_readable (access x) = true ->
         otp_index x = Some idx ->
         _operator s = Some d ->
         read_fuse idx d = (Ok v1, d1) ->
         read_fuse idx d1 = (Ok v2, d2) ->
         Reg.has_lock READ_LOCK
           (Reg.get_active_locks
              (Regs.update_locks (Reg.set_value x v1 (fuse_regs s))) x) = false ->
         forall depth : nat,
           (2 <= depth)%nat ->
           exists s' : Fuses Dev,
             read_single depth n true s = (Ok v2, s')
             /\ fuse_context s' = [x]
             /\ _operator s' = Some d2
             /\ fuse_regs s'
                = Regs.update_locks
                    (Reg.set_value x v2
                       (Regs.update_locks (Reg.set_value x v1 (fuse_regs s))))).
Proof.
  intros Hfind Huid Hlf Hleaf. split.
  - intros depth Hd. now apply (read_single_self_lock_depth depth n x s).
  - intros idx v1 v2 d d1 d2 Hr Hidx Hop Hr1 Hr2 Hnl depth Hd.
    rewrite (read_single_self_lock_depth depth n x s Hfind Huid Hlf Hleaf Hd).
    change (read_single 2) with (read_single_body (read_single 1)).
    rewrite (read_single_body_self_lock _ n x s Hfind Hlf Hleaf).
    rewrite (read_single_unchecked_leaf _ (uid x) x (append_log s lock_read_debug)
               Huid Hleaf).
    rewrite Hr, Hidx. cbn [negb].
    unfold with_fuse_operator, append_log.
    cbn [fuse_regs family revision _operator fuse_context log]. rewrite Hop, Hr1.
    cbn [fuse_regs family revision _operator fuse_context log]. rewrite Hnl, Hr2.
    eexists. split; [reflexivity|]. cbn [fuse_context _operator fuse_regs].
    repeat split.
Qed.

(** [LOCK0] is its own lock fuse; the device holds 4 in it, which sets the
    write lock of [FUSE_D] and no lock of [LOCK0]. *)
Lemma read_single_self_lock_terminates_witness :
  fst (read_single 9 "LOCK0" true (Demo.fuses Demo.regs (Demo.boot [(0, 4)] []))) = Ok 4.
Proof.
  destruct (read_single_self_lock_terminates "LOCK0" Demo.LOCK0
              (Demo.fuses Demo.regs (Demo.boot [(0, 4)] []))
              eq_refl eq_refl eq_refl eq_refl) as [_ Hs].
  edestruct (Hs 0 4 4) as (s' & Hrun & _);
    [reflexivity | reflexivity | reflexivity | vm_compute; reflexivity
     | vm_compute; reflexivity | vm_compute; reflexivity | | rewrite Hrun; reflexivity].
  lia.
Defined.

(** C3, as the code has it.  A successful [read_single] leaves the register
    read as the last-touched list, a successful [read_all] the registers it
    could read, a successful [load_config] the registers named by the
    configuration.  [write_single] does not assign the list: with the
    policy [NEVER] and no lock fuse the list stays what it was; with the
    policy [NEVER] and a lock fuse a successful write leaves what the read
    of the lock fuse left, the lock fuse; with the policy [ALWAYS] or
    [IMPLICIT] a successful write leaves what its pre-check read left, the
    register the [uid] of the written register resolves to in the
    collection: the written register itself, when its [uid] resolves to
    it. *)
Theorem last_touched_after_operations
        {Dev : Type} `{FuseOperator Dev} (depth : nat) (s s' : Fuses Dev) :
  (forall (n : string) (check_locks : bool) (v : Z),
      read_single depth n check_locks s = (Ok v, s') ->
      exists reg, Regs.find_reg (fuse_regs s) n true = Ok reg /\ fuse_context s' = [reg])
  /\ (read_all depth s = (Ok tt, s') ->
      fuse_context s'
      = map fst (List.filter read_succeeded
                             (read_all_trace depth (registers (fuse_regs s)) s)))
  /\ (forall (check_config : Config -> Result unit) (config : Config),
         load_config check_config config s = (Ok tt, s') ->
         resolve_all (fuse_regs s') (map fst (cfg_registers config))
         = Ok (fuse_context s'))
  /\ (forall (n : string) (lock : bool) (reg : FuseRegister),
         Regs.find_reg (fuse_regs s) n true = Ok reg ->
         Reg.has_group_registers reg = false ->
         individual_write_lock reg = NEVER ->
         Regs.get_lock_fuse (fuse_regs s) reg = None ->
         fuse_context (snd (write_single depth n lock s)) = fuse_context s)
  /\ (forall (n : string) (lock : bool) (reg lock_reg : FuseRegister),
         Regs.find_reg (fuse_regs s) n true = Ok reg ->
         Reg.has_group_registers reg = false ->
         individual_write_lock reg = NEVER ->
         Regs.get_lock_fuse (fuse_regs s) reg = Some lock_reg ->
         write_single depth n lock s = (Ok tt, s') ->
         exists r : FuseRegister,
           Regs.find_reg (fuse_regs s) (uid lock_reg) true = Ok r
           /\ fuse_context s' = [r])
  /\ (forall (n : string) (lock : bool) (reg : FuseRegister),
         Regs.find_reg (fuse_regs s) n true = Ok reg ->
         Reg.has_group_registers reg = false ->
         individual_write_lock reg <> NEVER ->
         write_single depth n lock s = (Ok tt, s') ->
         (exists r : FuseRegister,
             Regs.find_reg (fuse_regs s) (uid reg) true = Ok r
             /\ fuse_context s' = [r])
         /\ (Regs.find_reg (fuse_regs s) (uid reg) true = Ok reg ->
             fuse_context s' = [reg])).
Proof.
  split; [|split; [|split; [|split; [|split]]]].
  - intros n check_locks v. apply read_single_context.
  - apply read_all_context.
  - intros check_config config. apply load_config_context.
  - intros n lock reg Hfind Hleaf Hpol Hlf.
    rewrite (write_single_leaf depth n lock reg s Hfind Hleaf).
    now apply write_single_reg_never_context.
  - intros n lock reg lock_reg Hfind Hleaf Hpol Hlf.
    rewrite (write_single_leaf depth n lock reg s Hfind Hleaf).
    now apply write_single_reg_lock_fuse_context.
  - intros n lock reg Hfind Hleaf Hpol.
    rewrite (write_single_leaf depth n lock reg s Hfind Hleaf). intros Hrun.
    destruct (write_single_reg_checked_context depth n reg lock s s' Hpol Hrun)
      as (r & Hr & Hctx).
    split; [now exists r|]. intros Hself. rewrite Hself in Hr. now injection Hr as <-.
Qed.

(** Reading [FUSE_B] leaves [FUSE_B] as the last-touched list; writing
    [FUSE_A] afterwards leaves the list as it is; writing [FUSE_C], of
    policy [ALWAYS], leaves [FUSE_C]. *)
Lemma last_touched_after_operations_witness :
  fuse_context Demo.after_read_B = [Demo.FUSE_B]
  /\ fuse_context (snd (write_single 4 "FUSE_A" true Demo.after_read_B))
     = fuse_context Demo.after_read_B
  /\ fuse_context (snd (write_single 4 "FUSE_C" false Demo.after_read_B))
     = [Demo.FUSE_C].
Proof.
  pose (s := Demo.blank). pose (s1 := Demo.after_read_B).
  change Demo.after_read_B with s1. split; [|split].
  - destruct (last_touched_after_operations 4 s s1) as (Hread & _).
    destruct (Hread "FUSE_B" true 0) as (reg & Hreg & ->).
    + vm_compute. reflexivity.
    + vm_compute in Hreg. now injection Hreg as <-.
  - destruct (last_touched_after_operations 4 s1 s1) as (_ & _ & _ & Hwrite & _).
    apply (Hwrite "FUSE_A" true Demo.FUSE_A); reflexivity.
  - destruct (last_touched_after_operations 4 s1
                (snd (write_single 4 "FUSE_C" false s1)))
      as (_ & _ & _ & _ & _ & Hchecked).
    destruct (Hchecked "FUSE_C" false Demo.FUSE_C) as [_ Hself].
    + reflexivity.
    + reflexivity.
    + discriminate.
    + vm_compute. reflexivity.
    + apply Hself. reflexivity.
Defined.

(** C3 fails as stated: after [read_single("FUSE_B")], the successful
    [write_single("FUSE_A")] sends [FUSE_A] (index 3) to the device and the
    last-touched list still holds [FUSE_B], not the register written. *)
Lemma write_single_last_touched_counterexample :
  fst (write_single 4 "FUSE_A" false (Demo.set Demo.FUSE_A 5 Demo.after_read_B)) = Ok tt
  /\ Demo.requests
       (snd (write_single 4 "FUSE_A" false (Demo.set Demo.FUSE_A 5 Demo.after_read_B)))
     = [(3, 5)]
  /\ map name
         (fuse_context
            (snd (write_single 4 "FUSE_A" false (Demo.set Demo.FUSE_A 5 Demo.after_read_B))))
     = ["FUSE_B"]
  /\ fuse_context
       (snd (write_single 4 "FUSE_A" false (Demo.set Demo.FUSE_A 5 Demo.after_read_B)))
     <> [Demo.FUSE_A].
Proof.
  repeat split; try (vm_compute; reflexivity).
  vm_compute. discriminate.
Qed.

Section MissingIndex.

Context {Dev : Type} `{FuseOperator Dev}.

(** The script loop stops at the first fuse without an OTP index. *)
Lemma get_fuse_script_loop_missing_index (fr : FuseRegisters)
      (fuses : list FuseRegister) :
  forall ret_ : string,
    (exists reg, In reg fuses /\ otp_index reg = None) ->
    exists reg,
      In reg fuses /\ otp_index reg = None
      /\ get_fuse_script_loop fr fuses ret_
         = Raise (SPSDKAttributeError ("OTP index is nto defined for fuse " +:+ name reg)).
Proof.
  induction fuses as [|fuse rest IH]; intros ret_ (reg & Hin & Hnone).
  - destruct Hin.
  - cbn [get_fuse_script_loop].
    destruct (otp_index fuse) as [idx|] eqn:Hidx.
    + destruct Hin as [->|Hin]; [congruence|].
      destruct (IH (((ret_ +:+ ("# Fuse " +:+ name fuse +:+ ", index " +:+ PyFormat.str_int idx
                            +:+ " and value: " +:+ ("0x" +:+ bytes_hex (width fuse) (Reg.get_value fr fuse)) +:+ "." +:+ nl))
                     +:+ fst (get_fuse_write_cmd idx (Reg.get_value fr fuse) false false))
                    +:+ nl +:+ nl))
        as (r & Hr & Hn & Hrun); [now exists reg|].
      exists r. split; [now right|]. split; [exact Hn|exact Hrun].
    + exists fuse. split; [now left|]. split; [exact Hidx|reflexivity].
Qed.

End MissingIndex.

(** C6, as the code has it.  [write_single_reg] refuses every register
    without OTP index with [SPSDKError], before any check or device access;
    so does [write_single] on a register without members.  A register with
    members has no OTP index of its own and is written member by member.
    [get_fuse_script] raises [SPSDKAttributeError] as soon as one of the
    fuses it is given has no OTP index, and then yields no text at all.
    Neither exception is an [SPSDKFuseOperationFailure]. *)
Theorem missing_otp_index_is_refused {Dev : Type} `{FuseOperator Dev} :
  (forall (depth : nat) (n : string) (lock : bool) (reg : FuseRegister) (s : Fuses Dev),
      otp_index reg = None ->
      write_single_reg depth n reg lock s
      = (Raise (SPSDKError ("OTP index for fuse " +:+ name reg +:+ " is not set.")), s))
  /\ (forall (depth : nat) (n : string) (lock : bool) (reg : FuseRegister) (s : Fuses Dev),
         Regs.find_reg (fuse_regs s) n true = Ok reg ->
         Reg.has_group_registers reg = false ->
         otp_index reg = None ->
         write_single depth n lock s
         = (Raise (SPSDKError ("OTP index for fuse " +:+ name reg +:+ " is not set.")), s))
  /\ (forall (depth : nat) (n : string) (lock : bool) (reg : FuseRegister) (s : Fuses Dev),
         Regs.find_reg (fuse_regs s) n true = Ok reg ->
         Reg.has_group_registers reg = true ->
         write_single depth n lock s
         = for_each (sub_regs reg)
                    (fun sub_reg => write_single_reg depth n sub_reg lock) s)
  /\ (forall (version family_ : string) (fr : FuseRegisters)
             (fuses : list FuseRegister) (revision_ : string),
         (exists reg, In reg fuses /\ otp_index reg = None) ->
         exists reg,
           In reg fuses /\ otp_index reg = None
           /\ get_fuse_script version family_ fr fuses revision_
              = Raise (SPSDKAttributeError
                         ("OTP index is nto defined for fuse " +:+ name reg)))
  /\ (forall m : string,
         is_operation_failure (SPSDKError m) = false
         /\ is_operation_failure (SPSDKAttributeError m) = false).
Proof.
  assert (Hreg : forall (depth : nat) (n : string) (lock : bool) (reg : FuseRegister)
                        (s : Fuses Dev),
             otp_index reg = None ->
             write_single_reg depth n reg lock s
             = (Raise (SPSDKError ("OTP index for fuse " +:+ name reg +:+ " is not set.")), s)).
  { intros depth n lock reg s Hnone. unfold write_single_reg. now rewrite Hnone. }
  split; [exact Hreg|]. split; [|split; [|split]].
  - intros depth n lock reg s Hfind Hleaf Hnone.
    rewrite (write_single_leaf depth n lock reg s Hfind Hleaf). now apply Hreg.
  - intros depth n lock reg s Hfind Hgroup.
    unfold write_single, bind, find_reg. now rewrite Hfind, Hgroup.
  - intros version family_ fr fuses revision_ Hex. unfold get_fuse_script.
    now apply get_fuse_script_loop_missing_index.
  - intros m. split; reflexivity.
Qed.

(** A register without members and without OTP index: the write is refused
    and the script is refused. *)
Lemma missing_otp_index_is_refused_witness :
  fst (write_single 4 "NOIDX" false Demo.with_noidx)
  = Raise (SPSDKError "OTP index for fuse NOIDX is not set.")
  /\ get_fuse_script "2.4.0" "demo" (fuse_regs Demo.with_noidx)
                     [Demo.FUSE_A; Demo.NOIDX] "latest"
     = Raise (SPSDKAttributeError "OTP index is nto defined for fuse NOIDX").
Proof.
  pose (s := Demo.with_noidx). change Demo.with_noidx with s.
  destruct (@missing_otp_index_is_refused Demo.SimBoot _) as (_ & Hw & _ & Hs & _).
  split.
  - rewrite (Hw 4%nat "NOIDX" false Demo.NOIDX s); reflexivity.
  - destruct (Hs "2.4.0" "demo" (fuse_regs s) [Demo.FUSE_A; Demo.NOIDX] "latest")
      as (reg & Hin & Hnone & ->).
    + exists Demo.NOIDX. split; [right; left; reflexivity | reflexivity].
    + destruct Hin as [<-|[<-|[]]]; [discriminate Hnone | reflexivity].
Defined.

(** C6 fails as stated: the group register [KEY] has no OTP index, and
    [write_single("KEY")] succeeds, writing its members [KEY0] (index 8)
    and [KEY1] (index 9). *)
Lemma write_single_group_without_index_counterexample :
  otp_index Demo.KEY = None
  /\ fst (write_single 4 "KEY" false (Demo.set Demo.KEY 4294967298 Demo.blank)) = Ok tt
  /\ Demo.requests
       (snd (write_single 4 "KEY" false (Demo.set Demo.KEY 4294967298 Demo.blank)))
     = [(8, 1); (9, 2)].
Proof.
  repeat split; vm_compute; reflexivity.
Qed.

(** ** Values resolved from the attributes object *)

(** C10. In script generation, a string value, or the string sub-value of a
    bitfield, that resolves through the attributes object to a falsy value
    is not applied: the register, or the bitfield, keeps the value it had,
    nothing is raised, and the item is processed as one that gives no value
    at all; a truthy resolved value is applied by [set_value]. *)
Theorem falsy_resolved_value_is_skipped
        (attributes_object : AttributesObject) (reg : FuseRegister)
        (fr : FuseRegisters) (sv : string) (resolved : PyVal) :
  Script.get_object_value sv attributes_object = Ok resolved ->
  (truthy resolved = false ->
   Script.apply_value attributes_object reg (DbLeaf (PyStr sv)) fr = Ok (fr, "")
   /\ (forall (sub_key : string) (b : Bitfield) (rest : list (string * PyVal))
              (extra_info : string),
          Reg.get_bitfield reg sub_key = Ok b ->
          Script.apply_bitfields attributes_object reg ((sub_key, PyStr sv) :: rest)
                                 fr extra_info
          = Script.apply_bitfields attributes_object reg rest fr
                                   (extra_info +:+ Script.bitfield_info fr reg b))
   /\ (forall (Dev : Type) (op : FuseOperator Dev) (fs : FuseScript) (key : string)
              (o : Script.Output),
          Script.process_item fs attributes_object key (DbLeaf (PyStr sv)) fr o
          = Script.process_item fs attributes_object key (DbLeaf PyNone) fr o))
  /\ (truthy resolved = true ->
      Script.apply_value attributes_object reg (DbLeaf (PyStr sv)) fr
      = match Script.reg_set_value reg resolved fr with
        | Raise e => Raise e
        | Ok fr' => Ok (fr', "")
        end
      /\ (forall (sub_key : string) (b : Bitfield) (rest : list (string * PyVal))
                 (extra_info : string),
             Reg.get_bitfield reg sub_key = Ok b ->
             Script.apply_bitfields attributes_object reg ((sub_key, PyStr sv) :: rest)
                                    fr extra_info
             = match Script.bitfield_set_value reg b resolved fr with
               | Raise e => Raise e
               | Ok fr' =>
                   Script.apply_bitfields attributes_object reg rest fr'
                     (extra_info +:+ Script.bitfield_info fr' reg b)
               end)).
Proof.
  intros Hres. split; intros Ht.
  - split; [|split].
    + unfold Script.apply_value. cbn [is_int_or_bool]. now rewrite Hres, Ht.
    + intros sub_key b rest extra_info Hb. cbn [Script.apply_bitfields].
      rewrite Hb. cbn [is_int_or_bool]. now rewrite Hres, Ht.
    + intros Dev op fs key o. unfold Script.process_item, Script.apply_value.
      cbn [is_int_or_bool]. now rewrite Hres, Ht.
  - split.
    + unfold Script.apply_value. cbn [is_int_or_bool]. now rewrite Hres, Ht.
    + intros sub_key b rest extra_info Hb. cbn [Script.apply_bitfields].
      rewrite Hb. cbn [is_int_or_bool]. now rewrite Hres, Ht.
Qed.

(** With [FUSE_A] at 5 and the field [BOOT] of [MODE] at 3: the attributes
    [zero] and [off] leave both as they are, the attribute [seven] is
    applied to both. *)
Lemma falsy_resolved_value_is_skipped_witness :
  Script.apply_value Demo.attributes Demo.FUSE_A (DbLeaf (PyStr "__zero")) Demo.preset
  = Ok (Demo.preset, "")
  /\ Script.apply_bitfields Demo.attributes Demo.MODE [("BOOT", PyStr "__off")]
                            Demo.preset ""
     = Ok (Demo.preset, "# Bitfield: BOOT, Description: Boot source, Value: 0x3" +:+ nl)
  /\ Script.apply_value Demo.attributes Demo.FUSE_A (DbLeaf (PyStr "__seven")) Demo.preset
     = Ok (Reg.set_value Demo.FUSE_A 7 Demo.preset, "").
Proof.
  split; [|split].
  - destruct (falsy_resolved_value_is_skipped Demo.attributes Demo.FUSE_A Demo.preset
                "__zero" (PyInt 0) eq_refl) as [Hf _].
    destruct (Hf eq_refl) as (Hv & _). exact Hv.
  - destruct (falsy_resolved_value_is_skipped Demo.attributes Demo.MODE Demo.preset
                "__off" (PyBool false) eq_refl) as [Hf _].
    destruct (Hf eq_refl) as (_ & Hb & _).
    rewrite (Hb "BOOT" (mkBitfield "BOOT" 0 4 "Boot source") [] "" eq_refl).
    reflexivity.
  - destruct (falsy_resolved_value_is_skipped Demo.attributes Demo.FUSE_A Demo.preset
                "__seven" (PyInt 7) eq_refl) as [_ Ht].
    destruct (Ht eq_refl) as (Hv & _). rewrite Hv. reflexivity.
Defined.

(** ** Configuration round trip *)

Section RoundTrip.





















End RoundTrip.




(** ** Worked examples *)

Section Examples.

Example str_int_examples :
  PyFormat.str_int 0 = "0" /\ PyFormat.str_int 16777219 = "16777219"
  /\ PyFormat.str_int (-12) = "-12".
Proof. repeat split. Qed.

Example format_X_examples :
  PyFormat.format_X 3735928559 = "DEADBEEF" /\ PyFormat.format_X 0 = "0"
  /\ PyFormat.format_X (-255) = "-FF" /\ PyFormat.hex 48879 = "0xbeef"
  /\ PyFormat.hex (-255) = "-0xff".
Proof. repeat split. Qed.

Example write_cmd_examples :
  fst (BlhostFuseOperator.get_fuse_write_cmd 3 3735928559 true false)
  = "efuse-program-once 3 0xDEADBEEF --no-verify lock"
  /\ fst (BlhostFuseOperator.get_fuse_write_cmd 3 3735928559 false true)
     = "efuse-program-once 3 0xDEADBEEF --verify"
  /\ fst (NxpeleFuseOperator.get_fuse_write_cmd 3 3735928559 true true)
     = "write-fuse --index 3 --data 0xDEADBEEF --lock"
  /\ fst (NxpeleFuseOperator.get_fuse_write_cmd 3 3735928559 false false)
     = "write-fuse --index 3 --data 0xDEADBEEF".
Proof. repeat split. Qed.

(** The scenario of the specification: [FUSE_A] (index 3, policy [NEVER])
    holds [0xDEADBEEF] in memory and is written with [lock=true]; the
    boot-loader receives the value under the index with the lock bit
    (bit 24), and the register is write-locked in memory. *)
Example write_single_never_with_lock :
  fst (write_single 4 "FUSE_A" true (Demo.set Demo.FUSE_A 3735928559 Demo.blank)) = Ok tt
  /\ Demo.requests
       (snd (write_single 4 "FUSE_A" true (Demo.set Demo.FUSE_A 3735928559 Demo.blank)))
     = [(Z.lor 3 (Z.shiftl 1 24), 3735928559)]
  /\ Reg.get_active_locks
       (fuse_regs
          (snd (write_single 4 "FUSE_A" true (Demo.set Demo.FUSE_A 3735928559 Demo.blank))))
       Demo.FUSE_A
     = [WRITE_LOCK].
Proof. repeat split; vm_compute; reflexivity. Qed.

(** A read refused by the lock fuse: [LOCK0] holds 8, the read-lock bit of
    [FUSE_D]. *)
Example read_single_read_locked :
  fst (read_single 4 "FUSE_D" true (Demo.fuses Demo.regs (Demo.boot [(0, 8)] [])))
  = Raise (SPSDKFuseOperationFailure
             "Fuse FUSE_D read operation is locked by lock fuse LOCK0.").
Proof. vm_compute. reflexivity. Qed.

(** The depth limit: one level is not enough for a register with a lock
    fuse. *)
Example read_single_depth_exhausted :
  fst (read_single 1 "LOCK0" true Demo.blank) = Raise RecursionError.
Proof. vm_compute. reflexivity. Qed.

(** The script of a group register lists its members. *)
Example create_fuse_script_group :
  create_fuse_script "2.4.0" "blhost"
    (snd (read_single 4 "KEY" true (Demo.fuses Demo.regs (Demo.boot [(8, 1); (9, 2)] []))))
  = Ok ("# BLHOST fuses programming script" +:+ nl
        +:+ "# Generated by SPSDK 2.4.0" +:+ nl
        +:+ "# Chip: demo rev:latest" +:+ nl +:+ nl +:+ nl
        +:+ "# Fuse KEY0, index 8 and value: 0x00000001." +:+ nl
        +:+ "efuse-program-once 8 0x1 --no-verify" +:+ nl +:+ nl
        +:+ "# Fuse KEY1, index 9 and value: 0x00000002." +:+ nl
        +:+ "efuse-program-once 9 0x2 --no-verify" +:+ nl +:+ nl).
Proof. vm_compute. reflexivity. Qed.

(** A script generated from the attributes object: the attribute [zero]
    leaves [FUSE_A] at 5, the value the script then programs. *)
Example generate_script_falsy_attribute :
  Script.generate_script "2.4.0"
    (Demo.script [("_name", DbLeaf (PyStr "Demo")); ("FUSE_A", DbLeaf (PyStr "__zero"))])
    Demo.attributes false
  = Ok ("# blhost Demo fuses programming script" +:+ nl
        +:+ "# Generated by SPSDK 2.4.0" +:+ nl
        +:+ "# Family: demo Revision: latest" +:+ nl
        +:+ nl +:+ "# Value: 0x5" +:+ nl
        +:+ "# Description: Fuse FUSE_A" +:+ nl
        +:+ "# OTP ID: FUSE_A" +:+ nl +:+ nl
        +:+ "efuse-program-once 3 0x5 --verify" +:+ nl).
Proof. vm_compute. reflexivity. Qed.

(** An attribute that does not exist stops the generation. *)
Example generate_script_missing_attribute :
  Script.generate_script "2.4.0"
    (Demo.script [("FUSE_A", DbLeaf (PyStr "__absent"))]) Demo.attributes false
  = Raise (SPSDKValueError "Fuses: Object does not contain absent").
Proof. vm_compute. reflexivity. Qed.

End Examples.

(** ** More on reading *)

Section ReadAllOutcome.

Context {Dev : Type} `{FuseOperator Dev}.

(** The loop of [read_all] ends as its trace says. *)
Lemma read_all_loop_outcome (depth : nat) (regs : list FuseRegister) :
  forall (ctx : list FuseRegister) (s : Fuses Dev),
    fst (read_all_loop depth regs ctx s)
    = match trace_outcome (read_all_trace depth regs s) with
      | Ok _ => Ok (ctx ++ map fst (List.filter read_succeeded
                                               (read_all_trace depth regs s)))%list
      | Raise e => Raise e
      end.
Proof.
  induction regs as [|reg rest IH]; intros ctx s; cbn [read_all_loop read_all_trace].
  - cbn. now rewrite app_nil_r.
  - destruct (read_single depth (uid reg) true s) as [[v|e] s1].
    + rewrite IH. unfold trace_outcome.
      destruct (read_all_trace depth rest s1) as [|o tr] eqn:Etr.
      * cbn. now rewrite <- app_assoc.
      * cbn [last]. change (last (o :: tr)) with (last (o :: tr)).
        cbn [List.filter]. change (read_succeeded (reg, Ok v)) with true.
        cbn [map fst]. rewrite <- app_assoc. cbn [app].
        destruct (last (o :: tr)) as [[r0 [v0|e0]]|] eqn:El;
          rewrite ?El; try reflexivity.
    + destruct (is_operation_failure e) eqn:He.
      * unfold bind, logger. rewrite IH. unfold trace_outcome.
        change (append_log s1 (mkLog WARNING ("Unable to read the fuse " +:+ name reg
                                              +:+ ": " +:+ exn_str e)))
          with (mkFuses (family s1) (revision s1) (_operator s1) (fuse_regs s1)
                        (fuse_context s1)
                        (log s1 ++ [mkLog WARNING ("Unable to read the fuse " +:+ name reg
                                                   +:+ ": " +:+ exn_str e)])).
        match goal with |- context [read_all_trace depth rest ?st] =>
          destruct (read_all_trace depth rest st) as [|o tr] eqn:Etr end.
        -- cbn. now rewrite He.
        -- cbn [List.filter]. change (read_succeeded (reg, Raise e)) with false.
           cbn [last]. reflexivity.
      * cbn. now rewrite He.
Qed.


(** The loop of [read_all], when it returns: every register of the
    collection was tried, the registers read are returned in order, and one
    warning per failed register was logged, in order. *)
Lemma read_all_loop_returns (depth : nat) (regs : list FuseRegister) :
  forall (ctx l : list FuseRegister) (s s' : Fuses Dev),
    read_all_loop depth regs ctx s = (Ok l, s') ->
    map fst (read_all_trace depth regs s) = regs
    /\ warnings (log s')
       = (warnings (log s)
          ++ map read_warning (List.filter read_failed (read_all_trace depth regs s)))%list.
Proof.
  induction regs as [|reg rest IH]; intros ctx l s s';
    cbn [read_all_loop read_all_trace].
  - unfold ret. intros E. injection E as _ <-. split; [reflexivity|].
    cbn. now rewrite app_nil_r.
  - pose proof (quiet_read_single depth (uid reg) true s) as Hq.
    destruct (read_single depth (uid reg) true s) as [[v|e] s1]; cbn [snd] in Hq.
    + intros E. destruct (IH _ _ _ _ E) as (Hmap & Hlog).
      cbn [map fst List.filter]. change (read_failed (reg, Ok v)) with false.
      split; [now rewrite Hmap | now rewrite Hlog, Hq].
    + destruct (is_operation_failure e) eqn:He; [|discriminate].
      unfold bind, logger. intros E. destruct (IH _ _ _ _ E) as (Hmap & Hlog).
      cbn [map fst List.filter].
      replace (read_failed (reg, Raise e)) with true
        by (unfold read_failed; cbn [snd]; now rewrite He).
      split; [exact (f_equal (cons reg) Hmap)|].
      rewrite Hlog. cbn [log]. rewrite warnings_app, Hq. cbn.
      now rewrite <- app_assoc.
Qed.

(** The loop of [read_all], when it raises: the registers before the
    failing one were gone through, the read of the failing one raised the
    exception, and the object is as that read left it. *)
Lemma read_all_loop_raises (depth : nat) (regs : list FuseRegister) :
  forall (ctx : list FuseRegister) (e : Exn) (s s' : Fuses Dev),
    read_all_loop depth regs ctx s = (Raise e, s') ->
    is_operation_failure e = false
    /\ exists (before : list FuseRegister) (reg : FuseRegister)
              (after ctx0 : list FuseRegister) (s0 : Fuses Dev),
        regs = (before ++ reg :: after)%list
        /\ read_all_loop depth before ctx s = (Ok ctx0, s0)
        /\ read_single depth (uid reg) true s0 = (Raise e, s').
Proof.
  induction regs as [|reg rest IH]; intros ctx e s s'; cbn [read_all_loop].
  - discriminate.
  - destruct (read_single depth (uid reg) true s) as [[v|e0] s1] eqn:Hread.
    + intros Hrun. destruct (IH _ _ _ _ Hrun) as (He & before & r & after & c0 & s0 & -> & Hb & Hr).
      split; [exact He|]. exists (reg :: before), r, after, c0, s0.
      split; [reflexivity|]. split; [|exact Hr].
      cbn [read_all_loop]. now rewrite Hread.
    + destruct (is_operation_failure e0) eqn:Hop.
      * unfold bind at 1. unfold logger at 1. intros Hrun.
        destruct (IH _ _ _ _ Hrun) as (He & before & r & after & c0 & s0 & -> & Hb & Hr).
        split; [exact He|]. exists (reg :: before), r, after, c0, s0.
        split; [reflexivity|]. split; [|exact Hr].
        cbn [read_all_loop]. rewrite Hread, Hop. unfold bind at 1. unfold logger at 1.
        exact Hb.
      * intros E. injection E as <- <-. split; [exact Hop|].
        exists [], reg, rest, ctx, s. split; [reflexivity|]. split; [reflexivity|exact Hread].
Qed.

End ReadAllOutcome.

(** X1. [read_all] returns normally unless a [read_single] call raises
    something that is no [SPSDKFuseOperationFailure]; it then raises that
    exception and leaves the object exactly as the failing [read_single]
    left it: the registers before the failing one were gone through, the
    registers after it are not read, and the last-touched list is not
    assigned by [read_all]. *)
Theorem read_all_outcome {Dev : Type} `{FuseOperator Dev} (depth : nat) (s : Fuses Dev) :
  fst (read_all depth s)
  = trace_outcome (read_all_trace depth (registers (fuse_regs s)) s)
  /\ (forall (e : Exn) (s' : Fuses Dev),
         read_all depth s = (Raise e, s') ->
         is_operation_failure e = false
         /\ (exists reg : FuseRegister,
                last (read_all_trace depth (registers (fuse_regs s)) s)
                = Some (reg, Raise e)
                /\ (length (read_all_trace depth (registers (fuse_regs s)) s)
                    <= length (registers (fuse_regs s)))%nat)
         /\ exists (before : list FuseRegister) (reg : FuseRegister)
                   (after ctx : list FuseRegister) (s0 : Fuses Dev),
             registers (fuse_regs s) = (before ++ reg :: after)%list
             /\ read_all_loop depth before [] s = (Ok ctx, s0)
             /\ read_single depth (uid reg) true s0 = (Raise e, s')).
Proof.
  assert (Hfst : fst (read_all depth s)
                 = trace_outcome (read_all_trace depth (registers (fuse_regs s)) s)).
  { unfold read_all, bind, get_fuse_regs.
    pose proof (read_all_loop_outcome depth (registers (fuse_regs s)) [] s) as Hl.
    destruct (read_all_loop depth (registers (fuse_regs s)) [] s) as [[l|e] s1];
      cbn [fst] in *.
    - destruct (trace_outcome _) as [[]|]; [reflexivity|discriminate].
    - destruct (trace_outcome _); [discriminate|]. now injection Hl as ->. }
  split; [exact Hfst|].
  intros e s' Hrun. rewrite Hrun in Hfst. cbn [fst] in Hfst.
  unfold trace_outcome in Hfst.
  assert (Hlen : forall regs (st : Fuses Dev),
             (length (read_all_trace depth regs st) <= length regs)%nat).
  { induction regs as [|reg rest IH]; intros st; cbn [read_all_trace]; [cbn; lia|].
    destruct (read_single depth (uid reg) true st) as [[v|e0] s1]; cbn [length].
    - specialize (IH s1). lia.
    - destruct (is_operation_failure e0); cbn [length]; [|lia].
      match goal with |- context [read_all_trace depth rest ?x] => specialize (IH x) end.
      lia. }
  destruct (last (read_all_trace depth (registers (fuse_regs s)) s))
    as [[reg [v|e0]]|]; try discriminate.
  destruct (is_operation_failure e0) eqn:He; [discriminate|].
  injection Hfst as <-. split; [exact He|].
  split; [exists reg; split; [reflexivity | apply Hlen]|].
  unfold read_all, bind, get_fuse_regs in Hrun.
  destruct (read_all_loop depth (registers (fuse_regs s)) [] s) as [[l|e1] s1] eqn:Hloop;
    [unfold set_fuse_context in Hrun; discriminate|].
  injection Hrun as <- <-.
  destruct (read_all_loop_raises depth _ _ _ _ _ Hloop) as (_ & Hdec). exact Hdec.
Qed.

(** X2. When [read_all] returns, it has tried every register of the
    collection, the last-touched list holds the registers whose read
    succeeded, in the order of the collection, and the log has gained
    exactly one warning per register whose read failed, in that order. *)
Theorem read_all_returns {Dev : Type} `{FuseOperator Dev}
        (depth : nat) (s s' : Fuses Dev) :
  read_all depth s = (Ok tt, s') ->
  map fst (read_all_trace depth (registers (fuse_regs s)) s) = registers (fuse_regs s)
  /\ fuse_context s'
     = map fst (List.filter read_succeeded
                            (read_all_trace depth (registers (fuse_regs s)) s))
  /\ warnings (log s')
     = (warnings (log s)
        ++ map read_warning
             (List.filter read_failed
                          (read_all_trace depth (registers (fuse_regs s)) s)))%list.
Proof.
  intros Hrun. pose proof (read_all_context depth s s' Hrun) as Hctx.
  unfold read_all, bind, get_fuse_regs in Hrun.
  destruct (read_all_loop depth (registers (fuse_regs s)) [] s) as [[l|e] s1] eqn:E;
    [|discriminate].
  destruct (read_all_loop_returns depth _ _ _ _ _ E) as (Hmap & Hlog).
  unfold set_fuse_context in Hrun. injection Hrun as <-.
  split; [exact Hmap|]. split; [exact Hctx | exact Hlog].
Qed.

(** Two registers of [Demo.regs] cannot be read: both are left out, both
    are warned about. *)
Lemma read_all_returns_witness :
  map name (fuse_context (snd (read_all 4 (Demo.fuses Demo.regs (Demo.boot [] [3; 5])))))
  = ["FUSE_B"; "LOCK0"; "FUSE_D"; "KEY"; "MODE"]
  /\ length (warnings (log (snd (read_all 4 (Demo.fuses Demo.regs (Demo.boot [] [3; 5]))))))
     = 2%nat.
Proof.
  destruct (read_all_returns 4 (Demo.fuses Demo.regs (Demo.boot [] [3; 5]))
              (snd (read_all 4 (Demo.fuses Demo.regs (Demo.boot [] [3; 5])))))
    as (_ & Hctx & Hlog).
  - vm_compute. reflexivity.
  - split.
    + rewrite Hctx. vm_compute. reflexivity.
    + rewrite Hlog. vm_compute. reflexivity.
Defined.

(** A register without OTP index in the collection: [read_all] reads
    [FUSE_A] and then raises what the read of [NOIDX] raises. *)
Lemma read_all_outcome_witness :
  fst (read_all 4 Demo.with_noidx)
  = Raise (SPSDKFuseConfigurationError "OTP index is not defined")
  /\ snd (read_all 4 Demo.with_noidx)
     = snd (read_single 4 "uid_NOIDX" true (snd (read_single 4 "uid_FUSE_A" true
                                                   Demo.with_noidx)))
  /\ fuse_context (snd (read_all 4 Demo.with_noidx)) = [Demo.FUSE_A].
Proof.
  destruct (read_all_outcome 4 Demo.with_noidx) as [Hfst Hraise].
  split; [rewrite Hfst; vm_compute; reflexivity|].
  destruct (Hraise (SPSDKFuseConfigurationError "OTP index is not defined")
                   (snd (read_all 4 Demo.with_noidx)))
    as (_ & _ & before & reg & after & ctx & s0 & Hregs & Hloop & Hread).
  - vm_compute. reflexivity.
  - split; vm_compute; reflexivity.
Defined.

Section ReadSingleMore.

Context {Dev : Type} `{FuseOperator Dev}.

(** The value of a register without members after [set_value] and
    [update_locks]. *)
Lemma leaf_value_after_read (reg : FuseRegister) (v : Z) (fr : FuseRegisters) :
  Reg.has_group_registers reg = false ->
  Reg.leaf_value (Regs.update_locks (Reg.set_value reg v fr)) reg = v.
Proof.
  intros Hleaf. unfold Reg.leaf_value. rewrite reg_values_update_locks.
  unfold Reg.set_value. rewrite Hleaf. unfold Reg.set_leaf_value. cbn [reg_values].
  now rewrite lookup_insert_eq.
Qed.

Lemma stable_refl {A : Type} (c : M Dev A) : stable c c.
Proof. intros s r s' E _. exact E. Qed.

Lemma stable_bind {A B : Type} (c1 c2 : M Dev A) (k1 k2 : A -> M Dev B) :
  stable c1 c2 -> (forall a, stable (k1 a) (k2 a)) -> stable (bind c1 k1) (bind c2 k2).
Proof.
  intros Hc Hk s r s'. unfold bind.
  destruct (c1 s) as [[a|e] s1] eqn:E.
  - assert (E2 : c2 s = (Ok a, s1)) by (apply Hc; [exact E | reflexivity]).
    rewrite E2. apply Hk.
  - intros E1 Hr. injection E1 as <- <-.
    assert (E2 : c2 s = (Raise e, s1)) by (apply Hc; [exact E | exact Hr]).
    now rewrite E2.
Qed.

Lemma stable_for_each {A : Type} (f g : A -> M Dev unit) (xs : list A) :
  (forall x, stable (f x) (g x)) -> stable (for_each xs f) (for_each xs g).
Proof.
  intros Hfg. induction xs as [|x xs IH]; cbn [for_each]; [apply stable_refl|].
  apply stable_bind; [apply Hfg | intros _; exact IH].
Qed.

Lemma read_single_body_stable (rec1 rec2 : string -> bool -> M Dev Z) :
  (forall n c, stable (rec1 n c) (rec2 n c)) ->
  forall n c, stable (read_single_body rec1 n c) (read_single_body rec2 n c).
Proof.
  intros Hrec n c. unfold read_single_body.
  apply stable_bind; [apply stable_refl|]. intros reg.
  destruct (negb (is_readable (access reg))); [apply stable_refl|].
  apply stable_bind; [apply stable_refl|]. intros fr.
  apply stable_bind.
  - destruct (Regs.get_lock_fuse fr reg) as [lf|]; [|apply stable_refl].
    destruct c; [|apply stable_refl].
    apply stable_bind; [apply stable_refl|]. intros _.
    apply stable_bind; [apply Hrec|]. intros _. apply stable_refl.
  - intros _. destruct (Reg.has_group_registers reg); [|apply stable_refl].
    apply stable_bind; [|intros _; apply stable_refl].
    apply stable_for_each. intros x.
    apply stable_bind; [apply Hrec | intros _; apply stable_refl].
Qed.

(** More depth does not change a result of [read_single] that is no
    [RecursionError]. *)
Lemma read_single_stable (depth : nat) :
  forall (extra : nat) (n : string) (c : bool),
    stable (read_single depth n c) (read_single (depth + extra) n c).
Proof.
  induction depth as [|depth IH]; intros extra n c.
  - intros s r s' E Hr. cbn in E. injection E as <- _. discriminate Hr.
  - cbn [Nat.add read_single]. apply read_single_body_stable.
    intros n0 c0. apply IH.
Qed.

End ReadSingleMore.

Section WriteStable.

Context {Dev : Type} `{FuseOperator Dev}.

Lemma write_single_reg_stable (depth extra : nat) (n : string) (reg : FuseRegister)
      (lock : bool) :
  stable (write_single_reg depth n reg lock)
         (write_single_reg (depth + extra) n reg lock).
Proof.
  unfold write_single_reg.
  destruct (otp_index reg) as [idx|]; [|apply stable_refl].
  destruct (negb (is_writable (access reg))); [apply stable_refl|].
  apply stable_bind.
  - unfold check_write_lock. apply stable_bind; [apply stable_refl|]. intros fr.
    destruct (Regs.get_lock_fuse fr reg) as [lf|]; [|apply stable_refl].
    apply stable_bind; [apply stable_refl|]. intros _.
    apply stable_bind; [apply read_single_stable|]. intros _. apply stable_refl.
  - intros _. apply stable_bind; [|intros _; apply stable_refl].
    unfold check_not_written.
    destruct (individual_write_lock reg); [apply stable_refl| |];
      (apply stable_bind; [apply read_single_stable | intros v; apply stable_refl]).
Qed.

End WriteStable.

(** X3. A result of [read_single] or [write_single] that is no
    [RecursionError] does not depend on the recursion limit: every larger
    limit gives the same result and leaves the same object. *)
Theorem depth_limit_monotone {Dev : Type} `{FuseOperator Dev}
        (depth depth' : nat) (n : string) (s : Fuses Dev) :
  (depth <= depth')%nat ->
  (forall (check_locks : bool) (r : Result Z) (s' : Fuses Dev),
      read_single depth n check_locks s = (r, s') ->
      hit_depth_limit r = false ->
      read_single depth' n check_locks s = (r, s'))
  /\ (forall (lock : bool) (r : Result unit) (s' : Fuses Dev),
         write_single depth n lock s = (r, s') ->
         hit_depth_limit r = false ->
         write_single depth' n lock s = (r, s')).
Proof.
  intros Hle. replace depth' with (depth + (depth' - depth))%nat by lia. split.
  - intros check_locks r s'. apply read_single_stable.
  - intros lock r s'. revert s r s'.
    change (stable (write_single depth n lock)
                   (write_single (depth + (depth' - depth)) n lock)).
    unfold write_single. apply stable_bind; [apply stable_refl|]. intros reg.
    destruct (Reg.has_group_registers reg).
    + apply stable_for_each. intros x. apply write_single_reg_stable.
    + apply write_single_reg_stable.
Qed.

(** [FUSE_D] behind its lock fuse needs three levels; so do all larger
    limits give what three give. *)
Lemma depth_limit_monotone_witness :
  read_single 50 "FUSE_D" true Demo.blank = read_single 3 "FUSE_D" true Demo.blank
  /\ fst (read_single 3 "FUSE_D" true Demo.blank) = Ok 0.
Proof.
  split; [|vm_compute; reflexivity].
  destruct (depth_limit_monotone 3 50 "FUSE_D" Demo.blank) as [Hr _]; [lia|].
  rewrite (Hr true (fst (read_single 3 "FUSE_D" true Demo.blank))
              (snd (read_single 3 "FUSE_D" true Demo.blank))).
  - vm_compute. reflexivity.
  - vm_compute. reflexivity.
  - vm_compute. reflexivity.
Defined.

(** X4. A successful [read_single] on a register without members leaves the
    value it returns as the value of the register in memory, and the
    register as the last-touched list. *)
Theorem read_single_caches_value {Dev : Type} `{FuseOperator Dev}
        (depth : nat) (n : string) (check_locks : bool) (reg : FuseRegister)
        (v : Z) (s s' : Fuses Dev) :
  Regs.find_reg (fuse_regs s) n true = Ok reg ->
  Reg.has_group_registers reg = false ->
  read_single depth n check_locks s = (Ok v, s') ->
  Reg.get_value (fuse_regs s') reg = v /\ fuse_context s' = [reg].
Proof.
  intros Hfind Hleaf.
  destruct depth as [|depth]; cbn [read_single]; [discriminate|].
  unfold read_single_body. unfold bind at 1. unfold find_reg at 1. rewrite Hfind.
  destruct (negb (is_readable (access reg))); [discriminate|].
  unfold bind at 1. unfold get_fuse_regs at 1.
  unfold bind at 1.
  match goal with |- context [match ?c s with _ => _ end] =>
    destruct (c s) as [[[]|e] s1] end; [|discriminate].
  rewrite Hleaf.
  destruct (otp_index reg) as [idx|]; [|discriminate].
  unfold bind at 1.
  destruct (with_fuse_operator _ s1) as [[x|e] s2]; [|discriminate].
  unfold bind, modify_fuse_regs, set_fuse_context, ret.
  intros E. injection E as <- <-. cbn [fuse_regs fuse_context].
  split; [|reflexivity].
  unfold Reg.get_value. rewrite Hleaf. now apply leaf_value_after_read.
Qed.

(** The device holds 77 in fuse 3: after the read, [FUSE_A] holds 77 in
    memory. *)
Lemma read_single_caches_value_witness :
  Reg.get_value
    (fuse_regs (snd (read_single 4 "FUSE_A" true
                       (Demo.fuses Demo.regs (Demo.boot [(3, 77)] [])))))
    Demo.FUSE_A = 77.
Proof.
  apply (read_single_caches_value 4 "FUSE_A" true Demo.FUSE_A 77
           (Demo.fuses Demo.regs (Demo.boot [(3, 77)] []))).
  - reflexivity.
  - reflexivity.
  - vm_compute. reflexivity.
Defined.

(** X5. [read_single] refuses, without touching the device, the log or the
    registers: an unknown name (not-found error), a register that is not
    readable ([SPSDKFuseOperationFailure]), and, for a register without
    members and without lock fuse, a missing OTP index
    ([SPSDKFuseConfigurationError]) and a missing operator
    ([SPSDKError]). *)
Theorem read_single_refusals {Dev : Type} `{FuseOperator Dev}
        (depth : nat) (n : string) (check_locks : bool) (s : Fuses Dev) :
  (forall e, Regs.find_reg (fuse_regs s) n true = Raise e ->
             read_single (S depth) n check_locks s = (Raise e, s))
  /\ (forall reg,
         Regs.find_reg (fuse_regs s) n true = Ok reg ->
         is_readable (access reg) = false ->
         read_single (S depth) n check_locks s
         = (Raise (SPSDKFuseOperationFailure
                     ("Unable to read fuse " +:+ n +:+ ". Fuse access: "
                      +:+ access_description (access reg))), s))
  /\ (forall reg,
         Regs.find_reg (fuse_regs s) n true = Ok reg ->
         is_readable (access reg) = true ->
         Regs.get_lock_fuse (fuse_regs s) reg = None ->
         Reg.has_group_registers reg = false ->
         (otp_index reg = None ->
          read_single (S depth) n check_locks s
          = (Raise (SPSDKFuseConfigurationError "OTP index is not defined"), s))
         /\ (forall idx, otp_index reg = Some idx -> _operator s = None ->
                         read_single (S depth) n check_locks s
                         = (Raise (SPSDKError "Fuse operator is not defined."), s))).
Proof.
  split; [|split].
  - intros e Hfind. cbn [read_single]. unfold read_single_body, bind, find_reg.
    now rewrite Hfind.
  - intros reg Hfind Hr. cbn [read_single]. unfold read_single_body, bind, find_reg.
    now rewrite Hfind, Hr.
  - intros reg Hfind Hr Hlf Hleaf.
    rewrite (read_single_unlocked_leaf depth n check_locks reg s Hfind Hlf Hleaf).
    rewrite (read_single_unchecked_leaf depth n reg s Hfind Hleaf). rewrite Hr.
    cbn [negb]. split.
    + intros Hidx. now rewrite Hidx.
    + intros idx Hidx Hop. rewrite Hidx. unfold with_fuse_operator. now rewrite Hop.
Qed.

(** An unknown name, and [FUSE_A] on an object without operator. *)
Lemma read_single_refusals_witness :
  read_single 1 "NOPE" true Demo.blank
  = (Raise (SPSDKRegsErrorRegisterNotFound "The register NOPE has not been found."),
     Demo.blank)
  /\ fst (read_single 1 "FUSE_A" true (mkFuses "demo" "latest" None Demo.regs [] []))
     = Raise (SPSDKError "Fuse operator is not defined.").
Proof.
  split.
  - destruct (read_single_refusals 0 "NOPE" true Demo.blank) as (Hn & _).
    apply Hn. reflexivity.
  - destruct (read_single_refusals 0 "FUSE_A" true
                (mkFuses (Dev := Demo.SimBoot) "demo" "latest" None Demo.regs [] []))
      as (_ & _ & Hl).
    destruct (Hl Demo.FUSE_A eq_refl eq_refl eq_refl eq_refl) as [_ Ho].
    rewrite (Ho 3 eq_refl eq_refl). reflexivity.
Defined.

(** X6. A register whose lock fuse, read first, shows it read-locked is not
    read: [read_single] raises [SPSDKFuseOperationFailure] and leaves the
    object as the read of the lock fuse left it. *)
Theorem read_single_honours_read_lock {Dev : Type} `{FuseOperator Dev}
        (depth : nat) (n : string) (reg lock_fuse : FuseRegister) (v : Z)
        (s s1 : Fuses Dev) :
  Regs.find_reg (fuse_regs s) n true = Ok reg ->
  is_readable (access reg) = true ->
  Regs.get_lock_fuse (fuse_regs s) reg = Some lock_fuse ->
  read_single depth (uid lock_fuse) (negb (Reg.same lock_fuse reg))
              (append_log s lock_read_debug) = (Ok v, s1) ->
  Reg.has_lock READ_LOCK (Reg.get_active_locks (fuse_regs s1) reg) = true ->
  read_single (S depth) n true s
  = (Raise (SPSDKFuseOperationFailure
              ("Fuse " +:+ name reg +:+ " read operation is locked by lock fuse "
               +:+ name lock_fuse +:+ ".")), s1).
Proof.
  intros Hfind Hr Hlf Hread Hlocked.
  cbn [read_single]. unfold read_single_body, bind, find_reg, get_fuse_regs, logger.
  rewrite Hfind, Hr. cbn [negb]. rewrite Hlf.
  change (mkFuses (family s) (revision s) (_operator s) (fuse_regs s) (fuse_context s)
                  (log s ++ [mkLog DEBUG "Reading the value of lock register first."]))
    with (append_log s lock_read_debug).
  rewrite Hread, Hlocked. reflexivity.
Qed.

(** [LOCK0] holds 8, the read-lock bit of [FUSE_D]: fuse 6 is not read, the
    registers hold the value of [LOCK0] only. *)
Lemma read_single_honours_read_lock_witness :
  fst (read_single 3 "FUSE_D" true (Demo.fuses Demo.regs (Demo.boot [(0, 8); (6, 99)] [])))
  = Raise (SPSDKFuseOperationFailure
             "Fuse FUSE_D read operation is locked by lock fuse LOCK0.")
  /\ map_to_list
       (reg_values
          (fuse_regs (snd (read_single 3 "FUSE_D" true
                             (Demo.fuses Demo.regs (Demo.boot [(0, 8); (6, 99)] []))))))
     = [("uid_LOCK0", 8)].
Proof.
  rewrite (read_single_honours_read_lock 2 "FUSE_D" Demo.FUSE_D Demo.LOCK0 8
             (Demo.fuses Demo.regs (Demo.boot [(0, 8); (6, 99)] []))
             (snd (read_single 2 "uid_LOCK0" true
                     (append_log (Demo.fuses Demo.regs (Demo.boot [(0, 8); (6, 99)] []))
                                 lock_read_debug)))).
  - split; [reflexivity | vm_compute; reflexivity].
  - reflexivity.
  - reflexivity.
  - reflexivity.
  - vm_compute. reflexivity.
  - vm_compute. reflexivity.
Defined.

(** ** More on writing *)

Section WriteMore.

Context {Dev : Type} `{FuseOperator Dev}.

Lemma for_each_app {A : Type} (l1 l2 : list A) (body : A -> M Dev unit) (s : Fuses Dev) :
  for_each (l1 ++ l2) body s
  = match for_each l1 body s with
    | (Ok _, s1) => for_each l2 body s1
    | (Raise e, s1) => (Raise e, s1)
    end.
Proof.
  revert s. induction l1 as [|x l1 IH]; intros s; cbn [app for_each]; [reflexivity|].
  unfold bind. destruct (body x s) as [[[]|e] s1]; [apply IH | reflexivity].
Qed.

(** The flag handed to the operator for a register of policy [ALWAYS] is
    true, whatever the caller asked for; only the log tells the
    difference. *)
Lemma effective_lock_always (reg : FuseRegister) (lock : bool) (s : Fuses Dev) :
  individual_write_lock reg = ALWAYS ->
  effective_lock reg lock s
  = (Ok true, if lock then s else append_log s always_lock_info).
Proof.
  intros Hpol. unfold effective_lock. rewrite Hpol. destruct lock; reflexivity.
Qed.

Lemma write_single_reg_always_false_true (depth : nat) (n : string)
      (reg : FuseRegister) (s : Fuses Dev) :
  individual_write_lock reg = ALWAYS ->
  match write_single_reg depth n reg true s with
  | (Ok _, s') => write_single_reg depth n reg false s
                  = (Ok tt, append_log s' always_lock_info)
  | (Raise e, s') => write_single_reg depth n reg false s = (Raise e, s')
                     \/ write_single_reg depth n reg false s
                        = (Raise e, append_log s' always_lock_info)
  end.
Proof.
  intros Hpol.
  destruct (otp_index reg) as [idx|] eqn:Hidx;
    [|unfold write_single_reg; rewrite Hidx; left; reflexivity].
  destruct (is_writable (access reg)) eqn:Hw;
    [|unfold write_single_reg; rewrite Hidx, Hw; left; reflexivity].
  rewrite !(write_single_reg_steps depth n reg idx _ s Hidx Hw).
  destruct (check_write_lock depth reg s) as [[[]|e] s1]; [|left; reflexivity].
  destruct (check_not_written depth reg s1) as [[[]|e] s2]; [|left; reflexivity].
  rewrite !(effective_lock_always reg _ s2 Hpol).
  cbn [orb].
  rewrite with_fuse_operator_append_log.
  change (fuse_regs (append_log s2 always_lock_info)) with (fuse_regs s2).
  destruct (with_fuse_operator _ s2) as [[[]|e] s4]; cbn [fst snd].
  - reflexivity.
  - right. reflexivity.
Qed.

Lemma write_single_reg_always_locks (depth : nat) (n : string)
      (reg : FuseRegister) (lock : bool) (s s' : Fuses Dev) :
  individual_write_lock reg = ALWAYS ->
  write_single_reg depth n reg lock s = (Ok tt, s') ->
  Reg.has_lock WRITE_LOCK (Reg.get_active_locks (fuse_regs s') reg) = true.
Proof.
  intros Hpol.
  destruct (otp_index reg) as [idx|] eqn:Hidx;
    [|unfold write_single_reg; rewrite Hidx; discriminate].
  destruct (is_writable (access reg)) eqn:Hw;
    [|unfold write_single_reg; rewrite Hidx, Hw; discriminate].
  rewrite (write_single_reg_steps depth n reg idx _ s Hidx Hw).
  destruct (check_write_lock depth reg s) as [[[]|e] s1]; [|discriminate].
  destruct (check_not_written depth reg s1) as [[[]|e] s2]; [|discriminate].
  rewrite (effective_lock_always reg _ s2 Hpol). cbn [orb].
  destruct (with_fuse_operator _ _) as [[[]|e] s4]; [|discriminate].
  unfold modify_fuse_regs. intros E. injection E as <-. cbn [fuse_regs].
  apply lock_is_active.
Qed.

End WriteMore.

(** X7. For a register of policy [NEVER] without lock fuse, with an OTP
    index and writable, [write_single] makes no read: it hands the value
    the register holds in memory and the lock flag of the caller to the
    operator, propagates what the operator raises, and on success marks the
    register write-locked exactly when the caller asked for the lock. *)
Theorem write_single_never_honours_lock {Dev : Type} `{FuseOperator Dev}
        (depth : nat) (n : string) (reg : FuseRegister) (idx : Z) (lock : bool)
        (s : Fuses Dev) :
  Regs.find_reg (fuse_regs s) n true = Ok reg ->
  Reg.has_group_registers reg = false ->
  individual_write_lock reg = NEVER ->
  Regs.get_lock_fuse (fuse_regs s) reg = None ->
  otp_index reg = Some idx ->
  is_writable (access reg) = true ->
  write_single depth n lock s
  = match _operator s with
    | None => (Raise (SPSDKError "Fuse operator is not defined."), s)
    | Some d =>
        match write_fuse idx (Reg.get_value (fuse_regs s) reg) lock d with
        | (Raise e, d') => (Raise e, with_device s d')
        | (Ok _, d') =>
            (Ok tt,
             if lock
             then with_registers (with_device s d')
                                 (Reg.lock reg WRITE_LOCK (fuse_regs s))
             else with_device s d')
        end
    end.
Proof.
  intros Hfind Hleaf Hpol Hlf Hidx Hw.
  rewrite (write_single_leaf depth n lock reg s Hfind Hleaf).
  rewrite (write_single_reg_steps depth n reg idx lock s Hidx Hw).
  unfold check_write_lock, bind, get_fuse_regs. rewrite Hlf.
  unfold check_not_written, effective_lock. rewrite Hpol.
  unfold bind, ret, with_fuse_operator, modify_fuse_regs, with_device, with_registers.
  destruct lock; cbn [is_implicit is_always andb orb negb fuse_regs];
    (destruct (_operator s) as [d|]; [|reflexivity]);
    cbn [family revision _operator fuse_regs fuse_context log];
    match goal with
    | |- context [write_fuse ?i ?v ?l ?d] =>
        destruct (write_fuse i v l d) as [[[]|e] d']; reflexivity
    end.
Qed.

(** [FUSE_A] holding 5: written without the lock flag it stays unlocked,
    written with the flag it is locked; the value sent is 5. *)
Lemma write_single_never_honours_lock_witness :
  Reg.get_active_locks
    (fuse_regs (snd (write_single 0 "FUSE_A" false (Demo.set Demo.FUSE_A 5 Demo.blank))))
    Demo.FUSE_A = []
  /\ Reg.get_active_locks
       (fuse_regs (snd (write_single 0 "FUSE_A" true (Demo.set Demo.FUSE_A 5 Demo.blank))))
       Demo.FUSE_A = [WRITE_LOCK]
  /\ Demo.requests (snd (write_single 0 "FUSE_A" false (Demo.set Demo.FUSE_A 5 Demo.blank)))
     = [(3, 5)].
Proof.
  rewrite !(write_single_never_honours_lock 0 "FUSE_A" Demo.FUSE_A 3 _
              (Demo.set Demo.FUSE_A 5 Demo.blank) eq_refl eq_refl eq_refl eq_refl
              eq_refl eq_refl).
  repeat split; vm_compute; reflexivity.
Defined.

(** X8. For a register of policy [ALWAYS]: the flag handed to the operator
    is true whatever the caller passed; a call with [lock=false] ends as
    the call with [lock=true] does, the one difference being an info record
    in the log; after a successful write the register is write-locked; and
    once the two checks have passed, the one call made to the operator is
    [write_fuse] with the index and the value of the register and the flag
    true, whatever the caller passed. *)
Theorem write_single_always_forces_lock {Dev : Type} `{FuseOperator Dev}
        (depth : nat) (n : string) (reg : FuseRegister) (s : Fuses Dev) :
  Regs.find_reg (fuse_regs s) n true = Ok reg ->
  Reg.has_group_registers reg = false ->
  individual_write_lock reg = ALWAYS ->
  (forall (lock : bool) (s0 : Fuses Dev), fst (effective_lock reg lock s0) = Ok true)
  /\ (forall s' : Fuses Dev,
         write_single depth n true s = (Ok tt, s') ->
         write_single depth n false s = (Ok tt, append_log s' always_lock_info))
  /\ (forall (e : Exn) (s' : Fuses Dev),
         write_single depth n true s = (Raise e, s') ->
         write_single depth n false s = (Raise e, s')
         \/ write_single depth n false s = (Raise e, append_log s' always_lock_info))
  /\ (forall (lock : bool) (s' : Fuses Dev),
         write_single depth n lock s = (Ok tt, s') ->
         Reg.has_lock WRITE_LOCK (Reg.get_active_locks (fuse_regs s') reg) = true)
  /\ (forall (lock : bool) (idx : Z) (s1 s2 : Fuses Dev),
         otp_index reg = Some idx ->
         is_writable (access reg) = true ->
         check_write_lock depth reg s = (Ok tt, s1) ->
         check_not_written depth reg s1 = (Ok tt, s2) ->
         write_single depth n lock s
         = match with_fuse_operator
                   (write_fuse idx (Reg.get_value (fuse_regs s2) reg) true)
                   (if lock then s2 else append_log s2 always_lock_info) with
           | (Ok _, s4) => modify_fuse_regs (Reg.lock reg WRITE_LOCK) s4
           | (Raise e, s4) => (Raise e, s4)
           end).
Proof.
  intros Hfind Hleaf Hpol. split; [|split; [|split; [|split]]].
  5: { intros lock idx s1 s2 Hidx Hw Hc1 Hc2.
       rewrite (write_single_leaf depth n lock reg s Hfind Hleaf).
       rewrite (write_single_reg_steps depth n reg idx lock s Hidx Hw), Hc1, Hc2.
       rewrite (effective_lock_always reg lock s2 Hpol).
       cbn [orb].
       destruct lock; [destruct (with_fuse_operator _ s2) as [[[]|e] s4]; reflexivity|].
       change (fuse_regs (append_log s2 always_lock_info)) with (fuse_regs s2).
       destruct (with_fuse_operator _ (append_log s2 always_lock_info))
         as [[[]|e] s4]; reflexivity. }
  - intros lock s0. now rewrite (effective_lock_always reg lock s0 Hpol).
  - intros s'. rewrite !(write_single_leaf depth n _ reg s Hfind Hleaf).
    intros E. pose proof (write_single_reg_always_false_true depth n reg s Hpol) as Hx.
    rewrite E in Hx. exact Hx.
  - intros e s'. rewrite !(write_single_leaf depth n _ reg s Hfind Hleaf).
    intros E. pose proof (write_single_reg_always_false_true depth n reg s Hpol) as Hx.
    rewrite E in Hx. exact Hx.
  - intros lock s'. rewrite (write_single_leaf depth n lock reg s Hfind Hleaf).
    now apply write_single_reg_always_locks.
Qed.

(** [FUSE_C] (policy [ALWAYS]) written without the lock flag: the device
    receives the index with the lock bit, and the register is locked. *)
Lemma write_single_always_forces_lock_witness :
  Demo.requests (snd (write_single 4 "FUSE_C" false Demo.blank))
  = [(Z.lor 5 (Z.shiftl 1 24), 0)]
  /\ Reg.has_lock WRITE_LOCK
       (Reg.get_active_locks (fuse_regs (snd (write_single 4 "FUSE_C" false Demo.blank)))
                             Demo.FUSE_C) = true.
Proof.
  destruct (write_single_always_forces_lock 4 "FUSE_C" Demo.FUSE_C Demo.blank
              eq_refl eq_refl eq_refl) as (_ & _ & _ & Hl & _).
  split; [vm_compute; reflexivity|].
  apply (Hl false). vm_compute. reflexivity.
Defined.

(** X9. For a register of policy [ALWAYS] or [IMPLICIT] (no lock fuse,
    readable, writable) that the device holds at its reset value, the
    outcome of [write_single] is the outcome of one programming request
    with the reset value: the value set in memory before the call does not
    reach the device, the read of the pre-check has replaced it. *)
Theorem write_single_programs_value_read_back {Dev : Type} `{FuseOperator Dev}
        (depth : nat) (n : string) (reg : FuseRegister) (idx : Z) (lock : bool)
        (s : Fuses Dev) (d d1 : Dev) :
  Regs.find_reg (fuse_regs s) n true = Ok reg ->
  Regs.find_reg (fuse_regs s) (uid reg) true = Ok reg ->
  Reg.has_group_registers reg = false ->
  individual_write_lock reg <> NEVER ->
  Regs.get_lock_fuse (fuse_regs s) reg = None ->
  is_readable (access reg) = true ->
  is_writable (access reg) = true ->
  otp_index reg = Some idx ->
  _operator s = Some d ->
  read_fuse idx d = (Ok (Reg.get_reset_value reg), d1) ->
  fst (write_single (S depth) n lock s)
  = fst (write_fuse idx (Reg.get_reset_value reg)
                    (is_always (individual_write_lock reg)) d1)
  /\ _operator (snd (write_single (S depth) n lock s))
     = Some (snd (write_fuse idx (Reg.get_reset_value reg)
                             (is_always (individual_write_lock reg)) d1)).
Proof.
  intros Hfind Huid Hleaf Hpol Hlf Hr Hw Hidx Hop Hread.
  rewrite (write_single_leaf _ n lock reg s Hfind Hleaf).
  rewrite (write_single_reg_steps _ n reg idx lock s Hidx Hw).
  assert (Hc1 : check_write_lock (S depth) reg s = (Ok tt, s)).
  { unfold check_write_lock, bind, get_fuse_regs. now rewrite Hlf. }
  rewrite Hc1.
  pose (s2 := mkFuses (family s) (revision s) (Some d1)
                      (Regs.update_locks
                         (Reg.set_value reg (Reg.get_reset_value reg) (fuse_regs s)))
                      [reg] (log s)).
  assert (Hrs : read_single (S depth) (uid reg) true s
                = (Ok (Reg.get_reset_value reg), s2)).
  { rewrite (read_single_unlocked_leaf depth (uid reg) true reg s Huid Hlf Hleaf).
    rewrite (read_single_unchecked_leaf depth (uid reg) reg s Huid Hleaf).
    rewrite Hr, Hidx. cbn [negb]. unfold with_fuse_operator. rewrite Hop, Hread.
    reflexivity. }
  assert (Hc2 : check_not_written (S depth) reg s = (Ok tt, s2)).
  { unfold check_not_written.
    destruct (individual_write_lock reg); [congruence| |];
      unfold bind; rewrite Hrs, Z.eqb_refl; reflexivity. }
  rewrite Hc2.
  assert (Hval : Reg.get_value (fuse_regs s2) reg = Reg.get_reset_value reg).
  { unfold Reg.get_value. rewrite Hleaf. unfold Reg.leaf_value. subst s2.
    cbn [fuse_regs]. rewrite reg_values_update_locks.
    unfold Reg.set_value. rewrite Hleaf. unfold Reg.set_leaf_value. cbn [reg_values].
    now rewrite lookup_insert_eq. }
  destruct (effective_lock_frame reg lock s2) as (l & s3 & Hel & Hctx & Hop3 & Hfr3).
  assert (Hl : l = is_always (individual_write_lock reg)).
  { revert Hel. unfold effective_lock, bind, ret, logger.
    destruct lock, (individual_write_lock reg); try congruence; cbn;
      intros E; now injection E as <- _. }
  rewrite Hel. unfold with_fuse_operator. rewrite Hop3, Hfr3, Hval. subst s2.
  cbn [_operator]. rewrite Hl.
  destruct (write_fuse idx (Reg.get_reset_value reg)
                       (is_always (individual_write_lock reg)) d1) as [[[]|e] d2];
    cbn [fst snd]; [|split; reflexivity].
  assert (Hor : is_always (individual_write_lock reg)
                || is_implicit (individual_write_lock reg) = true).
  { destruct (individual_write_lock reg); try reflexivity. congruence. }
  rewrite Hor. unfold modify_fuse_regs. cbn [fst snd _operator]. split; reflexivity.
Qed.

(** [FUSE_B] is set to 5 in memory and written: the device receives the
    value 0. *)
Lemma write_single_programs_value_read_back_witness :
  Reg.get_value (fuse_regs (Demo.set Demo.FUSE_B 5 Demo.blank)) Demo.FUSE_B = 5
  /\ Demo.requests (snd (write_single 1 "FUSE_B" false (Demo.set Demo.FUSE_B 5 Demo.blank)))
     = [(4, 0)].
Proof.
  split; [reflexivity|].
  unfold Demo.requests.
  destruct (write_single_programs_value_read_back 0 "FUSE_B" Demo.FUSE_B 4 false
              (Demo.set Demo.FUSE_B 5 Demo.blank)
              (Demo.boot [] []) (Demo.mkSimBoot false ∅ [] [])) as [_ Hdev].
  - reflexivity.
  - reflexivity.
  - reflexivity.
  - discriminate.
  - reflexivity.
  - reflexivity.
  - reflexivity.
  - reflexivity.
  - reflexivity.
  - vm_compute. reflexivity.
  - rewrite Hdev. vm_compute. reflexivity.
Defined.

(** X10. What [write_single] refuses before any programming request.  An
    unknown name and a register that is not writable leave the object
    untouched.  For a register with a lock fuse, the lock fuse is read
    first: a failure of that read is the failure of the write, and when the
    read shows the register write-locked the write raises
    [SPSDKFuseOperationFailure]; in both cases the object is left as the
    read of the lock fuse left it, so nothing was programmed. *)
Theorem write_single_refusals {Dev : Type} `{FuseOperator Dev}
        (depth : nat) (n : string) (lock : bool) (s : Fuses Dev) :
  (forall e, Regs.find_reg (fuse_regs s) n true = Raise e ->
             write_single depth n lock s = (Raise e, s))
  /\ (forall reg idx,
         Regs.find_reg (fuse_regs s) n true = Ok reg ->
         Reg.has_group_registers reg = false ->
         otp_index reg = Some idx ->
         is_writable (access reg) = false ->
         write_single depth n lock s
         = (Raise (SPSDKFuseOperationFailure
                     ("Unable to write fuse " +:+ n +:+ ". Fuse access: "
                      +:+ access_description (access reg))), s))
  /\ (forall reg idx lock_fuse,
         Regs.find_reg (fuse_regs s) n true = Ok reg ->
         Reg.has_group_registers reg = false ->
         otp_index reg = Some idx ->
         is_writable (access reg) = true ->
         Regs.get_lock_fuse (fuse_regs s) reg = Some lock_fuse ->
         (forall e s1,
             read_single depth (uid lock_fuse) (negb (Reg.same lock_fuse reg))
                         (append_log s lock_read_debug) = (Raise e, s1) ->
             write_single depth n lock s = (Raise e, s1))
         /\ (forall v s1,
                read_single depth (uid lock_fuse) (negb (Reg.same lock_fuse reg))
                            (append_log s lock_read_debug) = (Ok v, s1) ->
                Reg.has_lock WRITE_LOCK (Reg.get_active_locks (fuse_regs s1) reg) = true ->
                write_single depth n lock s
                = (Raise (SPSDKFuseOperationFailure
                            ("Fuse " +:+ name reg +:+ " write operation is locked by lock fuse "
                             +:+ name lock_fuse +:+ ".")), s1))).
Proof.
  split; [|split].
  - intros e Hfind. unfold write_single, bind, find_reg. now rewrite Hfind.
  - intros reg idx Hfind Hleaf Hidx Hw.
    rewrite (write_single_leaf depth n lock reg s Hfind Hleaf).
    unfold write_single_reg. now rewrite Hidx, Hw.
  - intros reg idx lf Hfind Hleaf Hidx Hw Hlf.
    rewrite (write_single_leaf depth n lock reg s Hfind Hleaf).
    rewrite (write_single_reg_steps depth n reg idx lock s Hidx Hw).
    unfold check_write_lock, bind, get_fuse_regs, logger. rewrite Hlf.
    change (mkFuses (family s) (revision s) (_operator s) (fuse_regs s) (fuse_context s)
                    (log s ++ [mkLog DEBUG "Reading the value of lock register first."]))
      with (append_log s lock_read_debug).
    split.
    + intros e s1 Hread. now rewrite Hread.
    + intros v s1 Hread Hlocked. rewrite Hread, Hlocked. reflexivity.
Qed.

(** The device holds 4 in [LOCK0], the bit that write-locks [FUSE_D]: the
    write of [FUSE_D] is refused and the device has received no
    programming request. *)
Lemma write_single_refusals_witness :
  fst (write_single 3 "FUSE_D" false (Demo.fuses Demo.regs (Demo.boot [(0, 4)] [])))
  = Raise (SPSDKFuseOperationFailure
             "Fuse FUSE_D write operation is locked by lock fuse LOCK0.")
  /\ Demo.requests
       (snd (write_single 3 "FUSE_D" false (Demo.fuses Demo.regs (Demo.boot [(0, 4)] []))))
     = [].
Proof.
  destruct (write_single_refusals 3 "FUSE_D" false
              (Demo.fuses Demo.regs (Demo.boot [(0, 4)] []))) as (_ & _ & Hl).
  destruct (Hl Demo.FUSE_D 6 Demo.LOCK0 eq_refl eq_refl eq_refl eq_refl eq_refl)
    as [_ Hlocked].
  rewrite (Hlocked 4
             (snd (read_single 3 "uid_LOCK0" true
                     (append_log (Demo.fuses Demo.regs (Demo.boot [(0, 4)] []))
                                 lock_read_debug)))).
  - split; vm_compute; reflexivity.
  - vm_compute. reflexivity.
  - vm_compute. reflexivity.
Defined.

(** X11. Writing a group register writes its members one after the other,
    in the stored order, and stops at the first member that fails: the
    members before it stay programmed, the failure of the member is the
    failure of the call, and the members after it are not touched. *)
Theorem write_single_group_stops_at_failure {Dev : Type} `{FuseOperator Dev}
        (depth : nat) (n : string) (lock : bool) (reg m : FuseRegister)
        (before after : list FuseRegister) (e : Exn) (s s1 s2 : Fuses Dev) :
  Regs.find_reg (fuse_regs s) n true = Ok reg ->
  Reg.has_group_registers reg = true ->
  sub_regs reg = (before ++ m :: after)%list ->
  for_each before (fun sub_reg => write_single_reg depth n sub_reg lock) s = (Ok tt, s1) ->
  write_single_reg depth n m lock s1 = (Raise e, s2) ->
  write_single depth n lock s = (Raise e, s2).
Proof.
  intros Hfind Hgroup Hsub Hbefore Hm.
  unfold write_single, bind, find_reg. rewrite Hfind, Hgroup, Hsub.
  rewrite for_each_app, Hbefore. cbn [for_each]. unfold bind. now rewrite Hm.
Qed.

(** [PAIR] has the members [KEY0] (writable, holding 7) and [KEY2] (not
    writable): the write fails on [KEY2], after [KEY0] has been
    programmed. *)
Lemma write_single_group_stops_at_failure_witness :
  fst (write_single 0 "PAIR" false Demo.with_pair)
  = Raise (SPSDKFuseOperationFailure "Unable to write fuse PAIR. Fuse access: RO")
  /\ Demo.requests (snd (write_single 0 "PAIR" false Demo.with_pair)) = [(8, 7)].
Proof.
  rewrite (write_single_group_stops_at_failure 0 "PAIR" false Demo.PAIR Demo.KEY2
             [Demo.KEY0] []
             (SPSDKFuseOperationFailure "Unable to write fuse PAIR. Fuse access: RO")
             Demo.with_pair
             (snd (write_single_reg 0 "PAIR" Demo.KEY0 false Demo.with_pair))
             (snd (write_single_reg 0 "PAIR" Demo.KEY0 false Demo.with_pair))).
  - split; vm_compute; reflexivity.
  - reflexivity.
  - reflexivity.
  - reflexivity.
  - vm_compute. reflexivity.
  - vm_compute. reflexivity.
Defined.

(** X12. [write_multiple] is sequential: writing [names1 ++ names2] is
    writing [names1] and, if that succeeds, writing [names2] from the
    object it left; a failure in [names1] ends the call there.  Each name
    is resolved first and written through the uid of the register, always
    without the lock flag; a name that does not resolve ends the call with
    the not-found error. *)
Theorem write_multiple_sequential {Dev : Type} `{FuseOperator Dev}
        (depth : nat) (names1 names2 : list string) (s : Fuses Dev) :
  write_multiple depth (names1 ++ names2) s
  = match write_multiple depth names1 s with
    | (Ok _, s1) => write_multiple depth names2 s1
    | (Raise e, s1) => (Raise e, s1)
    end
  /\ (forall n rest reg,
         Regs.find_reg (fuse_regs s) n true = Ok reg ->
         write_multiple depth (n :: rest) s
         = match write_single depth (uid reg) false s with
           | (Ok _, s1) => write_multiple depth rest s1
           | (Raise e, s1) => (Raise e, s1)
           end)
  /\ (forall n rest e,
         Regs.find_reg (fuse_regs s) n true = Raise e ->
         write_multiple depth (n :: rest) s = (Raise e, s)).
Proof.
  split; [|split].
  - unfold write_multiple. apply for_each_app.
  - intros n rest reg Hfind. unfold write_multiple. cbn [for_each].
    unfold bind, find_reg. rewrite Hfind.
    destruct (write_single depth (uid reg) false s) as [[[]|e] s1]; reflexivity.
  - intros n rest e Hfind. unfold write_multiple. cbn [for_each].
    unfold bind, find_reg. now rewrite Hfind.
Qed.

(** [FUSE_A] then an unknown name then [KEY0]: the first is programmed,
    the call fails on the second, the third is not reached. *)
Lemma write_multiple_sequential_witness :
  fst (write_multiple 0 ["FUSE_A"; "NOPE"; "KEY0"] (Demo.set Demo.FUSE_A 5 Demo.blank))
  = Raise (SPSDKRegsErrorRegisterNotFound "The register NOPE has not been found.")
  /\ Demo.requests
       (snd (write_multiple 0 ["FUSE_A"; "NOPE"; "KEY0"]
                            (Demo.set Demo.FUSE_A 5 Demo.blank)))
     = [(3, 5)].
Proof.
  destruct (write_multiple_sequential 0 ["FUSE_A"] ["NOPE"; "KEY0"]
              (Demo.set Demo.FUSE_A 5 Demo.blank)) as (Happ & _).
  change (["FUSE_A"; "NOPE"; "KEY0"]) with (["FUSE_A"] ++ ["NOPE"; "KEY0"])%list.
  rewrite Happ. split; vm_compute; reflexivity.
Defined.

Section ScriptText.

Context {Dev : Type} `{FuseOperator Dev}.

Lemma get_fuse_script_loop_app (fr : FuseRegisters) (l1 l2 : list FuseRegister) :
  forall ret_ : string,
    get_fuse_script_loop fr (l1 ++ l2) ret_
    = match get_fuse_script_loop fr l1 ret_ with
      | Ok mid => get_fuse_script_loop fr l2 mid
      | Raise e => Raise e
      end.
Proof.
  induction l1 as [|f l1 IH]; intros ret_; cbn [app get_fuse_script_loop]; [reflexivity|].
  destruct (otp_index f); [apply IH | reflexivity].
Qed.

Lemma get_fuse_script_loop_body (fr : FuseRegisters) (fuses : list FuseRegister) :
  Forall has_otp_index fuses ->
  exists body : string,
    forall ret_ : string, get_fuse_script_loop fr fuses ret_ = Ok (ret_ +:+ body).
Proof.
  induction fuses as [|f rest IH]; intros Hall.
  - exists "". intros ret_. cbn [get_fuse_script_loop]. now rewrite append_empty_r.
  - apply List.Forall_cons_iff in Hall as [Hf Hrest].
    destruct (IH Hrest) as (body & Hbody).
    unfold has_otp_index in Hf.
    destruct (otp_index f) as [idx|] eqn:Hidx; [|congruence].
    eexists. intros ret_. cbn [get_fuse_script_loop]. rewrite Hidx, Hbody.
    rewrite !append_assoc. reflexivity.
Qed.

Lemma get_fuse_script_loop_ok_all (fr : FuseRegisters) (fuses : list FuseRegister) :
  forall (ret_ out : string),
    get_fuse_script_loop fr fuses ret_ = Ok out -> Forall has_otp_index fuses.
Proof.
  induction fuses as [|f rest IH]; intros ret_ out; [constructor|].
  cbn [get_fuse_script_loop].
  destruct (otp_index f) as [idx|] eqn:Hidx; [|discriminate].
  intros E. apply List.Forall_cons; [unfold has_otp_index; congruence|].
  eapply IH. exact E.
Qed.

(** The loop appends the blocks of the fuses to the text it starts from. *)
Lemma get_fuse_script_loop_blocks (fr : FuseRegisters) (fuses : list FuseRegister) :
  Forall has_otp_index fuses ->
  forall ret_ : string,
    get_fuse_script_loop fr fuses ret_ = Ok (ret_ +:+ script_body fr fuses).
Proof.
  induction fuses as [|f rest IH]; intros Hall ret_.
  - cbn [get_fuse_script_loop script_body fold_right]. now rewrite append_empty_r.
  - apply List.Forall_cons_iff in Hall as [Hf Hrest].
    unfold has_otp_index in Hf.
    cbn [get_fuse_script_loop script_body fold_right]. unfold fuse_block at 1.
    destruct (otp_index f) as [idx|] eqn:Hidx; [|congruence].
    rewrite (IH Hrest). fold (script_body fr rest).
    rewrite !append_assoc. reflexivity.
Qed.

Lemma script_body_app (fr : FuseRegisters) (l1 l2 : list FuseRegister) :
  script_body fr (l1 ++ l2) = script_body fr l1 +:+ script_body fr l2.
Proof.
  induction l1 as [|f l1 IH]; [reflexivity|].
  cbn [app]. unfold script_body in *. cbn [fold_right]. now rewrite IH, append_assoc.
Qed.

End ScriptText.

(** X13. [get_fuse_script] on fuses that all have an OTP index returns the
    header, which is the text returned for no fuse at all, followed by one
    block per fuse, in the order given.  A block is made of the fuse
    alone: a comment line with its name, OTP index and value, the write
    command without lock and without verify, an empty line; nothing of the
    version, the family or the revision comes back in it.  So the text for
    [fuses1 ++ fuses2] is the text for [fuses1] followed by the blocks of
    [fuses2]. *)
Theorem get_fuse_script_header_and_body {Dev : Type} `{FuseOperator Dev}
        (fr : FuseRegisters) (fuses1 fuses2 : list FuseRegister) :
  Forall has_otp_index fuses1 ->
  Forall has_otp_index fuses2 ->
  forall version family_ revision_ : string,
  exists header : string,
    get_fuse_script version family_ fr [] revision_ = Ok header
    /\ get_fuse_script version family_ fr fuses1 revision_
       = Ok (header +:+ script_body fr fuses1)
    /\ get_fuse_script version family_ fr (fuses1 ++ fuses2) revision_
       = Ok (header +:+ script_body fr fuses1 +:+ script_body fr fuses2)
    /\ (forall (fuse : FuseRegister) (idx : Z),
           otp_index fuse = Some idx ->
           get_fuse_script version family_ fr [fuse] revision_
           = Ok (header
                 +:+ "# Fuse " +:+ name fuse +:+ ", index " +:+ PyFormat.str_int idx
                 +:+ " and value: 0x"
                 +:+ bytes_hex (width fuse) (Reg.get_value fr fuse) +:+ "." +:+ nl
                 +:+ fst (get_fuse_write_cmd idx (Reg.get_value fr fuse) false false)
                 +:+ nl +:+ nl)).
Proof.
  intros H1 H2 version family_ revision_.
  eexists. unfold get_fuse_script.
  split; [reflexivity|]. split; [now apply get_fuse_script_loop_blocks|]. split.
  - rewrite get_fuse_script_loop_blocks.
    + now rewrite script_body_app.
    + apply List.Forall_app. now split.
  - intros fuse idx Hidx. cbn [get_fuse_script_loop]. rewrite Hidx.
    rewrite !append_assoc. reflexivity.
Qed.

(** [FUSE_A] holds 5 and [MODE] holds 3: the header and the two blocks. *)
Lemma get_fuse_script_header_and_body_witness :
  get_fuse_script "2.2.0" "demo" Demo.preset ([Demo.FUSE_A] ++ [Demo.MODE]) "latest"
  = Ok ("# BLHOST fuses programming script" +:+ nl
        +:+ "# Generated by SPSDK 2.2.0" +:+ nl
        +:+ "# Chip: demo rev:latest" +:+ nl +:+ nl +:+ nl
        +:+ "# Fuse FUSE_A, index 3 and value: 0x00000005." +:+ nl
        +:+ "efuse-program-once 3 0x5 --no-verify" +:+ nl +:+ nl
        +:+ "# Fuse MODE, index 10 and value: 0x00000003." +:+ nl
        +:+ "efuse-program-once 10 0x3 --no-verify" +:+ nl +:+ nl).
Proof.
  destruct (get_fuse_script_header_and_body (Dev := Demo.SimBoot)
              Demo.preset [Demo.FUSE_A] [Demo.MODE]) with
    (version := "2.2.0") (family_ := "demo") (revision_ := "latest")
    as (header & Hheader & _ & Hboth & _).
  - apply List.Forall_cons; [discriminate | apply List.Forall_nil].
  - apply List.Forall_cons; [discriminate | apply List.Forall_nil].
  - rewrite Hboth. vm_compute in Hheader. injection Hheader as <-.
    vm_compute. reflexivity.
Defined.

Lemma get_operator_type_ok (name_ : string) (t : OperatorType) :
  get_operator_type name_ = Ok t <-> operator_type_name t = name_.
Proof.
  unfold get_operator_type, subclasses. cbn [find].
  destruct (String.eqb_spec (operator_type_name BlhostType) name_) as [Eb|Eb].
  - split.
    + intros E. now injection E as <-.
    + intros E. destruct t; [reflexivity|]. subst name_. discriminate.
  - destruct (String.eqb_spec (operator_type_name NxpeleType) name_) as [En|En].
    + split.
      * intros E. now injection E as <-.
      * intros E. destruct t; [contradiction | reflexivity].
    + split; [discriminate|]. intros E. destruct t; contradiction.
Qed.

Lemma get_operator_type_unknown (name_ : string) :
  (forall t : OperatorType, operator_type_name t <> name_) ->
  get_operator_type name_
  = Raise (SPSDKKeyError ("No such a fuse operator with name " +:+ name_)).
Proof.
  intros Hnone. unfold get_operator_type, subclasses. cbn [find].
  destruct (String.eqb_spec (operator_type_name BlhostType) name_) as [Eb|Eb];
    [now destruct (Hnone BlhostType)|].
  destruct (String.eqb_spec (operator_type_name NxpeleType) name_) as [En|En];
    [now destruct (Hnone NxpeleType)|].
  reflexivity.
Qed.

(** X14. [create_fuse_script] returns a text exactly when the operator name
    of the family names an operator class, every register of the
    last-touched list that has no members has an OTP index, and every
    member of every register with members has one.  When the name is no
    [NAME] of an operator class it raises [SPSDKKeyError], whatever the
    list holds.  The index of a register with members is never asked for,
    and neither the operator of the object nor the log is looked at. *)
Theorem create_fuse_script_succeeds_iff {Dev : Type}
        (version tool : string) (s : Fuses Dev) :
  ((exists text : string, create_fuse_script version tool s = Ok text)
   <-> ((exists t : OperatorType, operator_type_name t = tool)
        /\ forall reg : FuseRegister,
             In reg (fuse_context s) ->
             if Reg.has_group_registers reg
             then Forall has_otp_index (sub_regs reg)
             else has_otp_index reg))
  /\ ((forall t : OperatorType, operator_type_name t <> tool) ->
      create_fuse_script version tool s
      = Raise (SPSDKKeyError ("No such a fuse operator with name " +:+ tool))).
Proof.
  split; [|intros Hnone; unfold create_fuse_script;
           now rewrite (get_operator_type_unknown tool Hnone)].
  unfold create_fuse_script, get_fuse_script.
  set (expand := fun reg : FuseRegister =>
                   if Reg.has_group_registers reg
                   then (if reverse_subregs_order reg then rev (sub_regs reg)
                         else sub_regs reg)
                   else [reg]).
  assert (Hexp : forall reg,
             Forall has_otp_index (expand reg)
             <-> (if Reg.has_group_registers reg
                  then Forall has_otp_index (sub_regs reg)
                  else has_otp_index reg)).
  { intros reg. unfold expand. destruct (Reg.has_group_registers reg).
    - destruct (reverse_subregs_order reg); [|tauto].
      rewrite !List.Forall_forall. split; intros Hx x Hin; apply Hx.
      + now apply in_rev in Hin.
      + now apply in_rev.
    - split.
      + intros Hx. now apply List.Forall_cons_iff in Hx as [Hx _].
      + intros Hx. apply List.Forall_cons; [exact Hx | apply List.Forall_nil]. }
  assert (Hflat : Forall has_otp_index (flat_map expand (fuse_context s))
                  <-> forall reg, In reg (fuse_context s) ->
                                  Forall has_otp_index (expand reg)).
  { rewrite List.Forall_forall. split.
    - intros Hx reg Hin. apply List.Forall_forall. intros x Hxin. apply Hx.
      apply in_flat_map. now exists reg.
    - intros Hx x Hin. apply in_flat_map in Hin as (reg & Hreg & Hxin).
      specialize (Hx reg Hreg). rewrite List.Forall_forall in Hx. now apply Hx. }
  split.
  - intros (text & Htext).
    destruct (get_operator_type tool) as [t|e] eqn:Ht; [|discriminate].
    split; [exists t; now apply get_operator_type_ok|].
    intros reg Hin. apply Hexp.
    apply get_fuse_script_loop_ok_all in Htext. now apply Hflat.
  - intros [(t & Ht) Hall]. apply get_operator_type_ok in Ht. rewrite Ht.
    destruct (@get_fuse_script_loop_body Empty_set (operator_class t) (fuse_regs s)
                (flat_map expand (fuse_context s))) as (body & Hbody).
    + apply Hflat. intros reg Hin. apply Hexp. now apply Hall.
    + eexists. apply Hbody.
Qed.

(** After [read_single("KEY")] the list holds the group [KEY], which has no
    OTP index of its own: the script is created under the name [nxpele],
    and refused under a name that no operator class has. *)
Lemma create_fuse_script_succeeds_iff_witness :
  otp_index Demo.KEY = None
  /\ fuse_context (snd (read_single 4 "KEY" true Demo.blank)) = [Demo.KEY]
  /\ (exists text : string,
         create_fuse_script "2.2.0" "nxpele" (snd (read_single 4 "KEY" true Demo.blank))
         = Ok text)
  /\ create_fuse_script "2.2.0" "jtag" (snd (read_single 4 "KEY" true Demo.blank))
     = Raise (SPSDKKeyError "No such a fuse operator with name jtag").
Proof.
  split; [reflexivity|]. split; [vm_compute; reflexivity|]. split.
  - apply (create_fuse_script_succeeds_iff "2.2.0" "nxpele"
             (snd (read_single 4 "KEY" true Demo.blank))).
    split; [exists NxpeleType; reflexivity|].
    intros reg Hin.
    assert (Hctx : fuse_context (snd (read_single 4 "KEY" true Demo.blank)) = [Demo.KEY])
      by (vm_compute; reflexivity).
    rewrite Hctx in Hin. destruct Hin as [<-|[]].
    cbn. apply List.Forall_cons; [discriminate|].
    apply List.Forall_cons; [discriminate | apply List.Forall_nil].
  - apply (create_fuse_script_succeeds_iff "2.2.0" "jtag"
             (snd (read_single 4 "KEY" true Demo.blank))).
    intros []; discriminate.
Defined.

(** X15. The session discipline of the blhost operator: whatever the
    outcome of the operation, and whether or not the session was open
    before the call, [read_fuse] and [write_fuse] leave the session closed
    (for a boot loader whose [close] closes).  On a session that is already
    open neither of them opens it again: the one request goes to the
    session as it is, and the session is closed after it.  On a session
    that is not open each of them opens it once, before the request. *)
Theorem blhost_session_is_closed {T : Type} `{McuBoot T}
        (index value : Z) (lock : bool) (mboot : T) :
  (forall m : T, is_opened (mboot_close m) = false) ->
  is_opened (snd (BlhostFuseOperator.read_fuse index mboot)) = false
  /\ is_opened (snd (BlhostFuseOperator.write_fuse index value lock mboot)) = false
  /\ (is_opened mboot = true ->
      snd (BlhostFuseOperator.read_fuse index mboot)
      = mboot_close (snd (efuse_read_once index mboot))
      /\ snd (BlhostFuseOperator.write_fuse index value lock mboot)
         = mboot_close
             (snd (efuse_program_once
                     (if lock then Z.lor index (Z.shiftl 1 24) else index)
                     value mboot)))
  /\ (is_opened mboot = false ->
      snd (BlhostFuseOperator.read_fuse index mboot)
      = mboot_close (snd (efuse_read_once index (mboot_open mboot)))
      /\ snd (BlhostFuseOperator.write_fuse index value lock mboot)
         = mboot_close
             (snd (efuse_program_once
                     (if lock then Z.lor index (Z.shiftl 1 24) else index)
                     value (mboot_open mboot)))).
Proof.
  intros Hclose.
  unfold BlhostFuseOperator.read_fuse, BlhostFuseOperator.write_fuse,
    BlhostFuseOperator.mboot_operation_decorator.
  split; [|split; [|split]].
  - destruct (efuse_read_once index _) as [[v|] m]; apply Hclose.
  - destruct (efuse_program_once _ value _) as [[|] m]; apply Hclose.
  - intros Hopen. rewrite Hopen. split.
    + destruct (efuse_read_once index mboot) as [[v|] m]; reflexivity.
    + destruct (efuse_program_once _ value mboot) as [[|] m]; reflexivity.
  - intros Hopen. rewrite Hopen. split.
    + destruct (efuse_read_once index (mboot_open mboot)) as [[v|] m]; reflexivity.
    + destruct (efuse_program_once _ value (mboot_open mboot)) as [[|] m]; reflexivity.
Qed.

(** A read that fails on a session the caller had opened: the session is
    closed afterwards. *)
Lemma blhost_session_is_closed_witness :
  fst (BlhostFuseOperator.read_fuse 3 (Demo.mkSimBoot true ∅ [3] []))
  = Raise (SPSDKFuseOperationFailure "Reading of fuse failed.")
  /\ is_opened (snd (BlhostFuseOperator.read_fuse 3 (Demo.mkSimBoot true ∅ [3] []))) = false.
Proof.
  split; [reflexivity|].
  apply (blhost_session_is_closed 3 0 false (Demo.mkSimBoot true ∅ [3] [])).
  intros m. reflexivity.
Defined.

(** X16. The lock request of the blhost operator travels in bit 24 of the
    index: for an index below [2^24], a locking write is the plain write of
    the index plus [2^24], whose low 24 bits still are the index.  The
    index is not range-checked: for an index that has bit 24 set, the
    write is the same with and without the lock flag. *)
Theorem blhost_lock_bit {T : Type} `{McuBoot T} (index value : Z) (mboot : T) :
  (0 <= index < 2 ^ 24 ->
   BlhostFuseOperator.write_fuse index value true mboot
   = BlhostFuseOperator.write_fuse (index + 2 ^ 24) value false mboot
   /\ Z.land (index + 2 ^ 24) (Z.ones 24) = index
   /\ Z.testbit (index + 2 ^ 24) 24 = true
   /\ Z.testbit index 24 = false)
  /\ (Z.testbit index 24 = true ->
      BlhostFuseOperator.write_fuse index value true mboot
      = BlhostFuseOperator.write_fuse index value false mboot).
Proof.
  split.
  - intros Hrange.
    assert (Hhigh : Z.testbit index 24 = false).
    { destruct (Z.eq_dec index 0) as [->|Hnz]; [apply Z.bits_0|].
      apply Z.bits_above_log2; [lia|]. apply Z.log2_lt_pow2; lia. }
    assert (Hland : Z.land index (2 ^ 24) = 0).
    { apply Z.bits_inj'. intros n Hn. rewrite Z.land_spec, Z.bits_0.
      destruct (Z.eq_dec n 24) as [->|Hne].
      - now rewrite Hhigh.
      - rewrite (Z.pow2_bits_false 24 n); [apply andb_false_r|lia]. }
    assert (Hlor : Z.lor index (Z.shiftl 1 24) = index + 2 ^ 24).
    { rewrite Z.shiftl_1_l.
      rewrite <- (Z.lxor_lor _ _ Hland). symmetry. now apply Z.add_nocarry_lxor. }
    split; [|split; [|split]].
    + unfold BlhostFuseOperator.write_fuse. now rewrite Hlor.
    + rewrite Z.land_ones by lia. rewrite Z.add_mod by lia.
      rewrite Z.mod_same by lia. rewrite Z.add_0_r, Z.mod_mod by lia.
      apply Z.mod_small. lia.
    + rewrite <- Hlor, Z.lor_spec, Z.shiftl_1_l, Z.pow2_bits_true by lia.
      apply orb_true_r.
    + exact Hhigh.
  - intros Hbit.
    assert (Hlor : Z.lor index (Z.shiftl 1 24) = index).
    { apply Z.bits_inj'. intros n Hn. rewrite Z.lor_spec, Z.shiftl_1_l.
      destruct (Z.eq_dec n 24) as [->|Hne].
      - rewrite Hbit. reflexivity.
      - rewrite (Z.pow2_bits_false 24 n) by lia. apply orb_false_r. }
    unfold BlhostFuseOperator.write_fuse. now rewrite Hlor.
Qed.

(** Index 5 with the lock flag reaches the device as [5 + 2^24]; index
    [5 + 2^24] reaches it unchanged with or without the flag. *)
Lemma blhost_lock_bit_witness :
  Demo.sim_requests (snd (BlhostFuseOperator.write_fuse 5 1 true (Demo.boot [] [])))
  = [(5 + 2 ^ 24, 1)]
  /\ BlhostFuseOperator.write_fuse (5 + 2 ^ 24) 1 true (Demo.boot [] [])
     = BlhostFuseOperator.write_fuse (5 + 2 ^ 24) 1 false (Demo.boot [] []).
Proof.
  destruct (blhost_lock_bit 5 1 (Demo.boot [] [])) as [Hlow _].
  destruct (blhost_lock_bit (5 + 2 ^ 24) 1 (Demo.boot [] [])) as [_ Hhigh].
  split.
  - destruct Hlow as (Heq & _); [lia|]. rewrite Heq. vm_compute. reflexivity.
  - apply Hhigh. reflexivity.
Defined.

(** X17. [get_operator_type] finds a class by its [NAME] and by nothing
    else: the name of every class leads back to the class, a class that is
    returned has the name asked for, and every other name, be it the same
    word in capitals, raises [SPSDKKeyError]. *)
Theorem get_operator_type_by_name (name_ : string) :
  (forall t : OperatorType, get_operator_type (operator_type_name t) = Ok t)
  /\ (forall t : OperatorType,
         get_operator_type name_ = Ok t -> operator_type_name t = name_)
  /\ ((forall t : OperatorType, operator_type_name t <> name_) ->
      get_operator_type name_
      = Raise (SPSDKKeyError ("No such a fuse operator with name " +:+ name_))).
Proof.
  split; [|split].
  - intros []; reflexivity.
  - intros t. unfold get_operator_type, subclasses. cbn [find].
    destruct (String.eqb (operator_type_name BlhostType) name_) eqn:Eb.
    + intros E. injection E as <-. now apply String.eqb_eq.
    + destruct (String.eqb (operator_type_name NxpeleType) name_) eqn:En.
      * intros E. injection E as <-. now apply String.eqb_eq.
      * discriminate.
  - intros Hnone. unfold get_operator_type, subclasses. cbn [find].
    destruct (String.eqb (operator_type_name BlhostType) name_) eqn:Eb.
    + apply String.eqb_eq in Eb. now destruct (Hnone BlhostType).
    + destruct (String.eqb (operator_type_name NxpeleType) name_) eqn:En.
      * apply String.eqb_eq in En. now destruct (Hnone NxpeleType).
      * reflexivity.
Qed.

Lemma get_operator_type_by_name_witness :
  get_operator_type "BLHOST"
  = Raise (SPSDKKeyError "No such a fuse operator with name BLHOST")
  /\ get_operator_type "nxpele" = Ok NxpeleType.
Proof.
  split.
  - destruct (get_operator_type_by_name "BLHOST") as (_ & _ & Hnone).
    apply Hnone. intros []; discriminate.
  - destruct (get_operator_type_by_name "nxpele") as (Hname & _).
    apply (Hname NxpeleType).
Defined.

Lemma substring_all (s : string) : String.substring 0 (String.length s) s = s.
Proof.
  induction s as [|c s IH]; [reflexivity|].
  cbn [String.length String.substring]. now rewrite IH.
Qed.

(** X18. [get_object_value] answers for a value of the form [__name] with
    the attribute [name] of the object, and raises [SPSDKValueError] when
    the object has no such attribute; the message then carries the name
    without the two underscores.  A value that does not start with two
    underscores is never looked up: it raises with the value as it is. *)
Theorem get_object_value_resolves (value : string) (attributes_object : AttributesObject) :
  (forall rest : string,
      value = "__" +:+ rest ->
      Script.get_object_value value attributes_object
      = match attributes_object rest with
        | Some v => Ok v
        | None => Raise (SPSDKValueError ("Fuses: Object does not contain " +:+ rest))
        end)
  /\ (Script.startswith "__" value = false ->
      Script.get_object_value value attributes_object
      = Raise (SPSDKValueError ("Fuses: Object does not contain " +:+ value))).
Proof.
  split.
  - intros rest ->.
    assert (Hpre : Script.startswith "__" ("__" +:+ rest) = true).
    { unfold Script.startswith.
      change ("__" +:+ rest) with (String "_" (String "_" rest)).
      cbn [String.prefix].
      destruct (ascii_dec "_" "_") as [_|Hne]; [|congruence]. now destruct rest. }
    assert (Hsub : String.substring 2 (String.length ("__" +:+ rest) - 2) ("__" +:+ rest)
                   = rest).
    { change ("__" +:+ rest) with (String "_" (String "_" rest)).
      cbn [String.length String.substring].
      replace (S (S (String.length rest)) - 2)%nat with (String.length rest) by lia.
      apply substring_all. }
    unfold Script.get_object_value. rewrite Hpre, Hsub. reflexivity.
  - intros Hpre. unfold Script.get_object_value. now rewrite Hpre.
Qed.

Lemma get_object_value_resolves_witness :
  Script.get_object_value "__seven" Demo.attributes = Ok (PyInt 7)
  /\ Script.get_object_value "__eight" Demo.attributes
     = Raise (SPSDKValueError "Fuses: Object does not contain eight")
  /\ Script.get_object_value "seven" Demo.attributes
     = Raise (SPSDKValueError "Fuses: Object does not contain seven").
Proof.
  destruct (get_object_value_resolves "__seven" Demo.attributes) as [H7 _].
  destruct (get_object_value_resolves "__eight" Demo.attributes) as [H8 _].
  destruct (get_object_value_resolves "seven" Demo.attributes) as [_ Hs].
  split; [|split].
  - now rewrite (H7 "seven" eq_refl).
  - now rewrite (H8 "eight" eq_refl).
  - apply Hs. reflexivity.
Defined.

Section GenerateMore.

Context {Dev : Type} `{FuseOperator Dev}.

Lemma apply_bitfields_unresolved (attributes_object : AttributesObject)
      (reg : FuseRegister) (items : list (string * PyVal)) (sub_key sv : string)
      (e : Exn) :
  In (sub_key, PyStr sv) items ->
  Script.get_object_value sv attributes_object = Raise e ->
  forall (fr : FuseRegisters) (extra_info : string) (out : FuseRegisters * string),
    Script.apply_bitfields attributes_object reg items fr extra_info <> Ok out.
Proof.
  intros Hin Hraise.
  induction items as [|[k v] rest IH]; [destruct Hin|].
  intros fr extra_info out. cbn [Script.apply_bitfields].
  destruct (Reg.get_bitfield reg k) as [b|e']; [|discriminate].
  destruct Hin as [E|Hin].
  - injection E as -> ->. cbn [is_int_or_bool]. rewrite Hraise. discriminate.
  - match goal with
    | |- context [match ?a with Ok _ => _ | Raise _ => _ end] =>
        destruct a as [fr'|e']; [|discriminate]
    end.
    now apply IH.
Qed.

Lemma process_item_unresolved (fs : FuseScript) (attributes_object : AttributesObject)
      (key : string) (value : DbValue) (sv : string) (e : Exn)
      (fr : FuseRegisters) (o : Script.Output) (out : FuseRegisters * Script.Output) :
  Script.startswith "_" key = false ->
  mentions value sv ->
  Script.get_object_value sv attributes_object = Raise e ->
  Script.process_item fs attributes_object key value fr o <> Ok out.
Proof.
  intros Hpub Hm Hraise. unfold Script.process_item. rewrite Hpub.
  destruct (Regs.find_reg fr key false) as [reg|e']; [|discriminate].
  assert (Hval : forall x, Script.apply_value attributes_object reg value fr <> Ok x).
  { intros x. destruct value as [v|items]; cbn [mentions] in Hm.
    - subst v. cbn [Script.apply_value is_int_or_bool]. rewrite Hraise. discriminate.
    - destruct Hm as (sub_key & Hin). cbn [Script.apply_value].
      now apply (apply_bitfields_unresolved attributes_object reg items sub_key sv e). }
  destruct (Script.apply_value attributes_object reg value fr) as [[fr' ei]|e'];
    [|discriminate].
  now destruct (Hval (fr', ei)).
Qed.

Lemma generate_loop_unresolved (fs : FuseScript) (attributes_object : AttributesObject)
      (items : list (string * DbValue)) (key : string) (value : DbValue) (sv : string)
      (e : Exn) :
  In (key, value) items ->
  Script.startswith "_" key = false ->
  mentions value sv ->
  Script.get_object_value sv attributes_object = Raise e ->
  forall (fr : FuseRegisters) (o : Script.Output) (out : FuseRegisters * Script.Output),
    Script.generate_loop fs attributes_object items fr o <> Ok out.
Proof.
  intros Hin Hpub Hm Hraise.
  induction items as [|[k v] rest IH]; [destruct Hin|].
  intros fr o out. cbn [Script.generate_loop].
  destruct (Script.process_item fs attributes_object k v fr o) as [[fr' o']|e'] eqn:E;
    [|discriminate].
  destruct Hin as [Ekv|Hin].
  - injection Ekv as -> ->.
    now destruct (process_item_unresolved fs attributes_object key value sv e fr o
                    (fr', o') Hpub Hm Hraise).
  - now apply IH.
Qed.




Lemma emit_sub_regs_extends (fs : FuseScript) (fr : FuseRegisters)
      (subs : list FuseRegister) :
  forall o o' : Script.Output,
    Script.emit_sub_regs fs fr subs o = Ok o' ->
    exists t : string, Script.out_script o' = Script.out_script o +:+ t.
Proof.
  induction subs as [|reg rest IH]; intros o o'; cbn [Script.emit_sub_regs].
  - intros E. injection E as <-. exists "". now rewrite append_empty_r.
  - destruct (otp_index reg) as [idx|]; [|discriminate].
    destruct (get_fuse_write_cmd idx (Reg.get_value fr reg) false
                                 (negb (fs_no_verify fs))) as [cmd logs].
    intros E. apply IH in E as (t & Ht). cbn [Script.out_script] in Ht.
    eexists. rewrite Ht, !append_assoc. reflexivity.
Qed.

Lemma emit_register_extends (fs : FuseScript) (fr : FuseRegisters) (reg : FuseRegister)
      (extra_info : string) (o o' : Script.Output) :
  Script.emit_register fs fr reg extra_info o = Ok o' ->
  exists t : string, Script.out_script o' = Script.out_script o +:+ t.
Proof.
  unfold Script.emit_register.
  destruct (sub_regs reg) as [|m ms].
  - destruct (otp_index reg) as [idx|]; [|discriminate].
    destruct (get_fuse_write_cmd idx (Reg.get_value fr reg) false
                                 (negb (fs_no_verify fs))) as [cmd logs].
    intros E. injection E as <-. cbn [Script.out_script].
    destruct (negb (String.eqb extra_info ""));
      eexists; rewrite !append_assoc; reflexivity.
  - intros E. apply emit_sub_regs_extends in E as (t & Ht).
    cbn [Script.out_script] in Ht. rewrite Ht.
    destruct (negb (String.eqb extra_info ""));
      eexists; rewrite !append_assoc; reflexivity.
Qed.

Lemma generate_loop_extends (fs : FuseScript) (attributes_object : AttributesObject)
      (items : list (string * DbValue)) :
  forall (fr fr' : FuseRegisters) (o o' : Script.Output),
    Script.generate_loop fs attributes_object items fr o = Ok (fr', o') ->
    exists t : string, Script.out_script o' = Script.out_script o +:+ t.
Proof.
  induction items as [|[k v] rest IH]; intros fr fr' o o'; cbn [Script.generate_loop].
  - intros E. injection E as _ <-. exists "". now rewrite append_empty_r.
  - destruct (Script.process_item fs attributes_object k v fr o) as [[fr1 o1]|e] eqn:E1;
      [|discriminate].
    intros E. apply IH in E as (t & Ht).
    assert (H1 : exists t1, Script.out_script o1 = Script.out_script o +:+ t1).
    { revert E1. unfold Script.process_item.
      destruct (Script.startswith "_" k).
      - intros E. injection E as _ <-. exists "". now rewrite append_empty_r.
      - destruct (Regs.find_reg fr k false) as [reg|e]; [|discriminate].
        destruct (Script.apply_value attributes_object reg v fr) as [[fr2 ei]|e];
          [|discriminate].
        destruct (Script.emit_register fs fr2 reg ei o) as [o2|e] eqn:E2; [|discriminate].
        intros E. injection E as _ <-. now apply emit_register_extends in E2. }
    destruct H1 as (t1 & Ht1). exists (t1 +:+ t). now rewrite Ht, Ht1, append_assoc.
Qed.

End GenerateMore.

(** X19. A string value of [fuses_db] that [get_object_value] does not
    resolve, be it the value of a register or of a bitfield, makes
    [generate_script] fail, wherever the entry stands in the database and
    in both output modes; so a string that does not name an attribute of
    the object, a numeral written as a string among them, is never
    accepted.  Only a private key shields its value. *)
Theorem generate_script_refuses_unresolved {Dev : Type} `{FuseOperator Dev}
        (version : string) (fs : FuseScript) (attributes_object : AttributesObject)
        (key : string) (value : DbValue) (sv : string) (e : Exn)
        (info_only : bool) (text : string) :
  In (key, value) (fs_fuses_db fs) ->
  Script.startswith "_" key = false ->
  mentions value sv ->
  Script.get_object_value sv attributes_object = Raise e ->
  Script.generate_script version fs attributes_object info_only <> Ok text.
Proof.
  intros Hin Hpub Hm Hraise. unfold Script.generate_script.
  match goal with
  | |- context [Script.generate_loop ?a ?b ?c ?d ?o] =>
      destruct (Script.generate_loop a b c d o) as [[fr' o']|e'] eqn:E; [|discriminate]
  end.
  now destruct (generate_loop_unresolved fs attributes_object (fs_fuses_db fs) key value
                  sv e Hin Hpub Hm Hraise _ _ _ E).
Qed.

(** A numeral written as a string, after an entry that is fine. *)
Lemma generate_script_refuses_unresolved_witness :
  Script.generate_script (Dev := Demo.SimBoot) "2.2.0"
    (Demo.script [("FUSE_A", DbLeaf (PyInt 1)); ("FUSE_C", DbLeaf (PyStr "0x10"))])
    Demo.attributes false
  = Raise (SPSDKValueError "Fuses: Object does not contain 0x10").
Proof.
  destruct (Script.generate_script (Dev := Demo.SimBoot) "2.2.0"
              (Demo.script [("FUSE_A", DbLeaf (PyInt 1)); ("FUSE_C", DbLeaf (PyStr "0x10"))])
              Demo.attributes false) as [text|e] eqn:E.
  - destruct (generate_script_refuses_unresolved (Dev := Demo.SimBoot) "2.2.0"
                (Demo.script [("FUSE_A", DbLeaf (PyInt 1));
                              ("FUSE_C", DbLeaf (PyStr "0x10"))])
                Demo.attributes "FUSE_C" (DbLeaf (PyStr "0x10")) "0x10"
                (SPSDKValueError "Fuses: Object does not contain 0x10") false text).
    + right. left. reflexivity.
    + reflexivity.
    + reflexivity.
    + reflexivity.
    + exact E.
  - vm_compute in E. injection E as <-. reflexivity.
Defined.



(** X21. A script that [generate_script] returns begins with the file
    header and a line break; every entry only appends to it.  With an
    empty database the script is the header line alone and the info text
    is empty. *)
Theorem generate_script_begins_with_header {Dev : Type} `{FuseOperator Dev}
        (version : string) (fs : FuseScript) (attributes_object : AttributesObject) :
  (forall text : string,
      Script.generate_script version fs attributes_object false = Ok text ->
      exists body : string,
        text = Script.generate_file_header version fs +:+ nl +:+ body)
  /\ (fs_fuses_db fs = [] ->
      Script.generate_script version fs attributes_object false
      = Ok (Script.generate_file_header version fs +:+ nl)
      /\ Script.generate_script version fs attributes_object true = Ok "").
Proof.
  split.
  - intros text. unfold Script.generate_script.
    match goal with
    | |- context [Script.generate_loop ?a ?b ?c ?d ?o] =>
        destruct (Script.generate_loop a b c d o) as [[fr' o']|e'] eqn:E; [|discriminate]
    end.
    intros Et. injection Et as <-.
    apply generate_loop_extends in E as (t & Ht). cbn [Script.out_script] in Ht.
    exists t. now rewrite Ht, append_assoc.
  - intros Hdb. unfold Script.generate_script. rewrite Hdb. split; reflexivity.
Qed.

Lemma generate_script_begins_with_header_witness :
  exists body : string,
    Script.generate_script (Dev := Demo.SimBoot) "2.2.0"
      (Demo.script [("FUSE_A", DbLeaf (PyInt 1))]) Demo.attributes false
    = Ok (Script.generate_file_header (Dev := Demo.SimBoot) "2.2.0"
            (Demo.script [("FUSE_A", DbLeaf (PyInt 1))]) +:+ nl +:+ body).
Proof.
  destruct (generate_script_begins_with_header (Dev := Demo.SimBoot) "2.2.0"
              (Demo.script [("FUSE_A", DbLeaf (PyInt 1))]) Demo.attributes) as [Hpre _].
  destruct (Script.generate_script (Dev := Demo.SimBoot) "2.2.0"
              (Demo.script [("FUSE_A", DbLeaf (PyInt 1))]) Demo.attributes false)
    as [text|e] eqn:E.
  - destruct (Hpre text eq_refl) as (body & ->). exists body. reflexivity.
  - vm_compute in E. discriminate.
Defined.

Lemma py_or_set (a b : option string) : is_set a -> Settings.py_or a b = a.
Proof.
  intros (s & -> & Hs). unfold Settings.py_or.
  destruct (String.eqb s "") eqn:E; [|reflexivity].
  apply String.eqb_eq in E. contradiction.
Qed.

Lemma py_or_unset (a b : option string) : ~ is_set a -> Settings.py_or a b = b.
Proof.
  intros Hn. unfold Settings.py_or. destruct a as [s|]; [|reflexivity].
  destruct (String.eqb s "") eqn:E; [reflexivity|].
  destruct Hn. exists s. split; [reflexivity|]. intros ->. discriminate.
Qed.

(** X22. Where the data folder comes from: the variable that carries the
    version when it is set to a non-empty string, else the variable
    [SPSDK_DATA_FOLDER] when that is set to a non-empty string, else the
    folder of the package; a variable set to the empty string counts as
    not set.  The restricted data folder has no fallback: it is a
    non-empty string only when one of its two variables is. *)
Theorem data_folder_precedence (environ : Settings.Environ)
        (version_base package_data : string) :
  (is_set (environ (Settings.SPSDK_DATA_FOLDER_ENV_VERSION version_base)) ->
   Settings.SPSDK_DATA_FOLDER environ version_base package_data
   = environ (Settings.SPSDK_DATA_FOLDER_ENV_VERSION version_base))
  /\ (~ is_set (environ (Settings.SPSDK_DATA_FOLDER_ENV_VERSION version_base)) ->
      is_set (environ "SPSDK_DATA_FOLDER") ->
      Settings.SPSDK_DATA_FOLDER environ version_base package_data
      = environ "SPSDK_DATA_FOLDER")
  /\ (~ is_set (environ (Settings.SPSDK_DATA_FOLDER_ENV_VERSION version_base)) ->
      ~ is_set (environ "SPSDK_DATA_FOLDER") ->
      Settings.SPSDK_DATA_FOLDER environ version_base package_data = Some package_data)
  /\ (is_set (Settings.SPSDK_RESTRICTED_DATA_FOLDER environ version_base) ->
      is_set (environ (Settings.SPSDK_RESTRICTED_DATA_FOLDER_ENV_VERSION version_base))
      \/ is_set (environ "SPSDK_RESTRICTED_DATA_FOLDER")).
Proof.
  unfold Settings.SPSDK_DATA_FOLDER, Settings.SPSDK_RESTRICTED_DATA_FOLDER.
  split; [|split; [|split]].
  - intros Hv. rewrite (py_or_set _ (environ "SPSDK_DATA_FOLDER") Hv).
    now apply py_or_set.
  - intros Hv Hp. rewrite (py_or_unset _ (environ "SPSDK_DATA_FOLDER") Hv).
    now apply py_or_set.
  - intros Hv Hp. rewrite (py_or_unset _ (environ "SPSDK_DATA_FOLDER") Hv).
    now apply py_or_unset.
  - intros Hr.
    destruct (environ (Settings.SPSDK_RESTRICTED_DATA_FOLDER_ENV_VERSION version_base))
      as [s|] eqn:E; cbn [Settings.py_or] in Hr.
    + destruct (String.eqb s "") eqn:Es; [right; exact Hr | left; exact Hr].
    + right. exact Hr.
Qed.

(** With both variables set the one of the version wins; the restricted
    folder, set to the empty string for the version only, is not set. *)
Lemma data_folder_precedence_witness :
  Settings.SPSDK_DATA_FOLDER Demo.environ "2.2.0" "/usr/lib/spsdk/data"
  = Some "/opt/data-2.2.0"
  /\ Settings.SPSDK_RESTRICTED_DATA_FOLDER Demo.environ "2.2.0" = None.
Proof.
  destruct (data_folder_precedence Demo.environ "2.2.0" "/usr/lib/spsdk/data")
    as (Hv & _).
  split.
  - rewrite Hv; [reflexivity|]. exists "/opt/data-2.2.0". split; [reflexivity|discriminate].
  - reflexivity.
Defined.

Section LoadConfigMore.

Context {Dev : Type}.

(** X23. [load_config] assigns the last-touched list at its very end: a
    call that raises, in the validation, while the values are loaded or
    while the names are resolved, leaves the list as it was; a call
    refused by the validation leaves the whole object as it was.  No call
    touches the device handle or the log. *)
Theorem load_config_failure_keeps_context
        (check_config : Config -> Result unit) (config : Config) (s : Fuses Dev) :
  (forall e : Exn,
      check_config config = Raise e ->
      load_config check_config config s = (Raise e, s))
  /\ (forall (e : Exn) (s' : Fuses Dev),
         load_config check_config config s = (Raise e, s') ->
         fuse_context s' = fuse_context s)
  /\ (forall (r : Result unit) (s' : Fuses Dev),
         load_config check_config config s = (r, s') ->
         _operator s' = _operator s /\ log s' = log s).
Proof.
  unfold load_config. split; [|split].
  - intros e He. now rewrite He.
  - intros e s'. destruct (check_config config) as [[]|e0].
    + destruct (RegsConfig.load_yml_config _ _) as [[[]|e1] fr].
      * destruct (resolve_all fr _) as [ctx|e2].
        -- unfold set_fuse_context. discriminate.
        -- intros E. injection E as _ <-. reflexivity.
      * intros E. injection E as _ <-. reflexivity.
    + intros E. injection E as _ <-. reflexivity.
  - intros r s'. destruct (check_config config) as [[]|e0].
    + destruct (RegsConfig.load_yml_config _ _) as [[[]|e1] fr].
      * destruct (resolve_all fr _) as [ctx|e2].
        -- unfold set_fuse_context. intros E. injection E as _ <-. split; reflexivity.
        -- intros E. injection E as _ <-. split; reflexivity.
      * intros E. injection E as _ <-. split; reflexivity.
    + intros E. injection E as _ <-. split; reflexivity.
Qed.

End LoadConfigMore.

(** A configuration refused by the validation, on a session whose list
    holds [FUSE_B]. *)
Lemma load_config_failure_keeps_context_witness :
  load_config (fun _ => Raise (SPSDKError "Invalid configuration")) Demo.config
              Demo.after_read_B
  = (Raise (SPSDKError "Invalid configuration"), Demo.after_read_B).
Proof.
  destruct (load_config_failure_keeps_context
              (fun _ => Raise (SPSDKError "Invalid configuration")) Demo.config
              Demo.after_read_B) as (Hcheck & _).
  apply Hcheck. reflexivity.
Defined.

Section PartialWarning.

Lemma bitfield_info_cons (fr : FuseRegisters) (reg : FuseRegister) (b : Bitfield) :
  exists t : string, Script.bitfield_info fr reg b = String "#" t.
Proof. unfold Script.bitfield_info. eexists. reflexivity. Qed.

Lemma apply_bitfields_extra_info (attributes_object : AttributesObject)
      (reg : FuseRegister) (items : list (string * PyVal)) :
  forall (fr fr' : FuseRegisters) (extra_info extra_info' : string),
    Script.apply_bitfields attributes_object reg items fr extra_info
    = Ok (fr', extra_info') ->
    exists t : string,
      extra_info' = extra_info +:+ t /\ (t = "" <-> items = []).
Proof.
  induction items as [|[k v] rest IH]; intros fr fr' ei ei'; cbn [Script.apply_bitfields].
  - intros E. injection E as _ <-. exists "". split; [now rewrite append_empty_r|tauto].
  - destruct (Reg.get_bitfield reg k) as [b|e]; [|discriminate].
    match goal with
    | |- context [match ?a with Ok _ => _ | Raise _ => _ end] =>
        destruct a as [fr1|e]; [|discriminate]
    end.
    intros E. apply IH in E as (t & -> & _).
    destruct (bitfield_info_cons fr1 reg b) as (u & Hu).
    exists (Script.bitfield_info fr1 reg b +:+ t). split; [now rewrite append_assoc|].
    split; [|discriminate]. rewrite Hu. discriminate.
Qed.

End PartialWarning.

(** X24. The text [extra_info], on which the line "WARNING! Partially set
    register" of the script depends, is empty after an entry exactly when
    the entry is no bitfield mapping or an empty one: every mapping that
    names a bitfield draws the warning, also one that names them all. *)
Theorem partial_warning_iff_bitfields (attributes_object : AttributesObject)
        (reg : FuseRegister) (value : DbValue) (fr fr' : FuseRegisters)
        (extra_info : string) :
  Script.apply_value attributes_object reg value fr = Ok (fr', extra_info) ->
  (extra_info = "" <-> match value with DbDict (_ :: _) => False | _ => True end).
Proof.
  destruct value as [v|items]; cbn [Script.apply_value].
  - intros E. split; [tauto|intros _].
    destruct (is_int_or_bool v).
    + destruct (Script.reg_set_value reg v fr); [|discriminate]. now injection E as _ <-.
    + destruct v; try (now injection E as _ <-).
      destruct (Script.get_object_value s attributes_object) as [r|e]; [|discriminate].
      destruct (truthy r); [|now injection E as _ <-].
      destruct (Script.reg_set_value reg r fr); [|discriminate]. now injection E as _ <-.
  - intros E. apply apply_bitfields_extra_info in E as (t & -> & Ht).
    change ("" +:+ t) with t. rewrite Ht. destruct items; split; try tauto; discriminate.
Qed.

(** [MODE] has the bitfields [BOOT] and [DBG]; a mapping that sets both
    still leaves a non-empty [extra_info]. *)
Lemma partial_warning_iff_bitfields_witness :
  exists (fr' : FuseRegisters) (extra_info : string),
    Script.apply_value Demo.attributes Demo.MODE
                       (DbDict [("BOOT", PyInt 3); ("DBG", PyInt 1)]) Demo.regs
    = Ok (fr', extra_info)
    /\ extra_info <> "".
Proof.
  destruct (Script.apply_value Demo.attributes Demo.MODE
              (DbDict [("BOOT", PyInt 3); ("DBG", PyInt 1)]) Demo.regs)
    as [[fr' extra_info]|e] eqn:E.
  - exists fr', extra_info. split; [reflexivity|].
    intros Hempty.
    now apply (partial_warning_iff_bitfields Demo.attributes Demo.MODE
                 (DbDict [("BOOT", PyInt 3); ("DBG", PyInt 1)]) Demo.regs fr' extra_info E).
  - vm_compute in E. discriminate.
Defined.

(** X25. The text of an SPSDK exception is [SPSDK: ] followed by its
    description; an exception raised with the empty description prints as
    [SPSDK: Unknown Error], so that the text after the prefix is never
    empty. *)
Theorem exn_str_has_description (e : Exn) (description : string) :
  exn_description e = Some description ->
  (description = "" -> exn_str e = "SPSDK: Unknown Error")
  /\ (description <> "" -> exn_str e = "SPSDK: " +:+ description)
  /\ exists text : string, exn_str e = "SPSDK: " +:+ text /\ text <> "".
Proof.
  intros Hd.
  assert (Hstr : exn_str e
                 = "SPSDK: " +:+ (if String.eqb description "" then "Unknown Error"
                                  else description)).
  { destruct e; cbn [exn_description] in Hd; try discriminate;
      injection Hd as ->; reflexivity. }
  split; [|split].
  - intros ->. exact Hstr.
  - intros Hne. rewrite Hstr.
    destruct (String.eqb_spec description "") as [E|E]; [contradiction|reflexivity].
  - rewrite Hstr. eexists. split; [reflexivity|].
    destruct (String.eqb_spec description "") as [E|E]; [discriminate|exact E].
Qed.

Lemma exn_str_has_description_witness :
  exn_str (SPSDKFuseOperationFailure "") = "SPSDK: Unknown Error"
  /\ exn_str (SPSDKKeyError "No such a fuse operator with name x")
     = "SPSDK: No such a fuse operator with name x".
Proof.
  destruct (exn_str_has_description (SPSDKFuseOperationFailure "") "" eq_refl)
    as (Hempty & _).
  destruct (exn_str_has_description (SPSDKKeyError "No such a fuse operator with name x")
              "No such a fuse operator with name x" eq_refl) as (_ & Hfull & _).
  split; [now apply Hempty | apply Hfull; discriminate].
Defined.
